(** * Engineering-database mnemonics

    A shallow embedding of [jwql/edb/engineering_database.py]: the
    [EdbMnemonic] container, its combination operators ([__add__],
    [__mul__]), the interpolator, the statistics family and the two
    change-only helpers, followed by the properties established about
    them.

    Conventions of the embedding.
    - A [datetime] is an integer number of microseconds (the resolution
      of Python's [datetime]), counted from [datetime.min]; a
      [timedelta] is a signed number of microseconds.  Offsets in
      seconds are floats, as in the source.
    - A Python [float] is an IEEE binary64 value, taken from the
      specification floats of the Standard Library ([SpecFloat], with
      53 bits of precision), so that arithmetic on telemetry values
      rounds as it does in Python.
    - Code that can raise returns a [result]; the constructor of the
      exception is the Python exception class.
    - A method that mutates [self] is a function from the state before
      to the state after. *)

From Stdlib Require Import String.
From Stdlib Require Import ZArith List Bool Lia.
From Stdlib Require Import Floats.SpecFloat.
From Stdlib Require Import Sorting.Sorted.
Import ListNotations.
Local Open Scope Z_scope.

(* ================================================================= *)
(** ** Exceptions *)

Inductive exn : Type :=
| ValueError
| IndexError
| KeyError
| TypeError
| ZeroDivisionError
| OverflowError.

Inductive result (A : Type) : Type :=
| Ok (a : A)
| Raise (e : exn).

Arguments Ok {A} a.
Arguments Raise {A} e.

Definition bind {A B : Type} (m : result A) (k : A -> result B) : result B :=
  match m with
  | Ok a => k a
  | Raise e => Raise e
  end.

Notation "x <- m ;; k" := (bind m (fun x => k))
  (at level 61, m at next level, right associativity).
Notation "' pat <- m ;; k" := (bind m (fun x => match x with pat => k end))
  (at level 61, pat pattern, m at next level, right associativity).

Fixpoint mapM {A B : Type} (f : A -> result B) (l : list A) : result (list B) :=
  match l with
  | [] => Ok []
  | a :: l' => b <- f a ;; bs <- mapM f l' ;; Ok (b :: bs)
  end.


(* ================================================================= *)
(** ** Times and floats *)

Abbreviation datetime := Z (only parsing).
Abbreviation timedelta := Z (only parsing).

(** [timedelta(microseconds=1)] *)
Definition microsecond : timedelta := 1.
(** [timedelta(days=1)] *)
Definition day : timedelta := 86400000000.

Abbreviation float := spec_float (only parsing).
Definition prec : Z := 53.
Definition emax : Z := 1024.

Definition float_of_int (z : Z) : float := binary_normalize prec emax z 0 false.
Definition fadd : float -> float -> float := SFadd prec emax.
Definition fsub : float -> float -> float := SFsub prec emax.
Definition fmul : float -> float -> float := SFmul prec emax.
Definition fdiv : float -> float -> float := SFdiv prec emax.
Definition fsqrt : float -> float := SFsqrt prec emax.
Definition nan : float := S754_nan.

(** [int(x)]: truncation toward zero; [int(nan)] is a [ValueError] and
    [int(inf)] an [OverflowError]. *)
Definition int_of_float (x : float) : result Z :=
  match x with
  | S754_zero _ => Ok 0
  | S754_infinity _ => Raise OverflowError
  | S754_nan => Raise ValueError
  | S754_finite s m e =>
      let mag := if e <? 0 then Z.pos m / 2 ^ (- e) else Z.pos m * 2 ^ e in
      Ok (if s then - mag else mag)
  end.

(** [a / b] on two Python integers, for [b] other than zero: the
    quotient rounded once, to the nearest float.  An operand enters the
    division as the integer it is, whatever its size. *)
Definition int_operand (z : Z) : float :=
  match z with
  | 0 => S754_zero false
  | Z.pos p => S754_finite false p 0
  | Z.neg p => S754_finite true p 0
  end.

Definition int_truediv (a b : Z) : float :=
  SFdiv prec emax (int_operand a) (int_operand b).

(** [a / b] on two [timedelta]s: the true quotient of the two
    microsecond counts. *)
Definition td_truediv (a b : timedelta) : result float :=
  if b =? 0 then Raise ZeroDivisionError
  else Ok (int_truediv a b).

(** [td / 2.]: Python rounds the half microsecond to even. *)
Definition td_half (d : timedelta) : timedelta :=
  let q := d / 2 in
  if Z.even d then q else if Z.even q then q else q + 1.

(** [td.total_seconds()]: the true quotient of the microsecond count
    by [10**6]. *)
Definition total_seconds (d : timedelta) : float := int_truediv d 1000000.

Definition signed (s : bool) (z : Z) : Z := if s then - z else z.

(** [math.modf(x)] on a finite float, as the constructor of
    [timedelta] uses it: the fractional part, which is a float, and the
    whole part, which is converted to an integer. *)
Definition modf (x : float) : float * Z :=
  match x with
  | S754_finite s m e =>
      if e <? 0
      then (binary_normalize prec emax (signed s (Z.pos m mod 2 ^ (- e))) e s,
            signed s (Z.pos m / 2 ^ (- e)))
      else (S754_zero s, signed s (Z.pos m * 2 ^ e))
  | _ => (x, 0)
  end.

(** The integer nearest to a finite float, a half going to the even
    neighbour. *)
Definition round_half_even (x : float) : Z :=
  match x with
  | S754_finite s m e =>
      if e <? 0
      then let d := 2 ^ (- e) in
           let q := Z.pos m / d in
           let r := Z.pos m mod d in
           signed s (match 2 * r ?= d with
                     | Lt => q
                     | Gt => q + 1
                     | Eq => if Z.even q then q else q + 1
                     end)
      else signed s (Z.pos m * 2 ^ e)
  | _ => 0
  end.

(** The range of [timedelta]: from [-999999999] days to one
    microsecond short of [10**9] days. *)
Definition timedelta_min : timedelta := -86399999913600000000.
Definition timedelta_max : timedelta := 86399999999999999999.

(** [timedelta(seconds=x)] for a float [x].  The whole seconds are
    converted exactly; the fraction is multiplied by [10**6] in floats
    and the product rounded to a whole number of microseconds, a half
    going to the even one.  NaN is a [ValueError], an infinity or a
    value out of the range of [timedelta] an [OverflowError]. *)
Definition timedelta_of_seconds (x : float) : result timedelta :=
  match x with
  | S754_nan => Raise ValueError
  | S754_infinity _ => Raise OverflowError
  | _ =>
      let '(frac, whole) := modf x in
      let us := whole * 1000000
                + round_half_even (fmul (float_of_int 1000000) frac) in
      if (timedelta_min <=? us) && (us <=? timedelta_max) then Ok us
      else Raise OverflowError
  end.

(** The range of [datetime], counted in microseconds from
    [datetime.min]: the years 1 to 9999. *)
Definition datetime_min : datetime := 0.
Definition datetime_max : datetime := 315537897599999999.

(** [dt + td], an [OverflowError] when the sum leaves the range of
    [datetime]. *)
Definition datetime_add (dt : datetime) (td : timedelta) : result datetime :=
  let r := dt + td in
  if (datetime_min <=? r) && (r <=? datetime_max) then Ok r
  else Raise OverflowError.

(** [np.ceil(x)] *)
Definition np_ceil (x : float) : float :=
  match x with
  | S754_finite s m e =>
      if e <? 0
      then let q := Z.pos m / 2 ^ (- e) in
           if Z.pos m mod 2 ^ (- e) =? 0 then x
           else if s
                then (if q =? 0 then S754_zero true else float_of_int (- q))
                else float_of_int (q + 1)
      else x
  | _ => x
  end.

(* ================================================================= *)
(** ** Python and numpy sequences *)

(** [l[i]], negative indices counting from the end. *)
Definition py_index {A : Type} (l : list A) (i : Z) : result A :=
  let n := Z.of_nat (length l) in
  let j := if i <? 0 then i + n else i in
  if (0 <=? j) && (j <? n)
  then match nth_error l (Z.to_nat j) with
       | Some a => Ok a
       | None => Raise IndexError
       end
  else Raise IndexError.

(** The bound of a slice, clamped as Python does. [None] stands for an
    omitted bound and takes the default [dflt]. *)
Definition slice_bound (n : Z) (dflt : Z) (b : option Z) : Z :=
  match b with
  | None => dflt
  | Some i => let j := if i <? 0 then i + n else i in Z.max 0 (Z.min n j)
  end.

(** [l[lo:hi]] *)
Definition py_slice {A : Type} (l : list A) (lo hi : option Z) : list A :=
  let n := Z.of_nat (length l) in
  let a := slice_bound n 0 lo in
  let b := slice_bound n n hi in
  firstn (Z.to_nat (b - a)) (skipn (Z.to_nat a) l).

(** [range(n)] *)
Definition range (n : nat) : list Z := map Z.of_nat (seq 0 n).

(** [np.where(mask)[0]] for the mask [p] over [l], counting from [i]. *)
Fixpoint where_from {A : Type} (p : A -> bool) (i : Z) (l : list A) : list Z :=
  match l with
  | [] => []
  | a :: l' => if p a then i :: where_from p (i + 1) l' else where_from p (i + 1) l'
  end.

Definition np_where {A : Type} (p : A -> bool) (l : list A) : list Z :=
  where_from p 0 l.

(** [arr[idx]] for an index array. *)
Definition take {A : Type} (l : list A) (idx : list Z) : result (list A) :=
  mapM (py_index l) idx.

(** [np.min] and [np.max]: a [ValueError] on an empty array. *)
Definition np_min (l : list Z) : result Z :=
  match l with
  | [] => Raise ValueError
  | x :: l' => Ok (fold_left Z.min l' x)
  end.

Definition np_max (l : list Z) : result Z :=
  match l with
  | [] => Raise ValueError
  | x :: l' => Ok (fold_left Z.max l' x)
  end.

(** [l[-1]] when the list is known to be non-empty, as an option. *)
Fixpoint last_opt {A : Type} (l : list A) : option A :=
  match l with
  | [] => None
  | [a] => Some a
  | _ :: l' => last_opt l'
  end.

(* ================================================================= *)
(** ** Telemetry values and the data table *)

(** An entry of the [euvalues] column: a number (NaN included) or a
    string. *)
Inductive euvalue : Type :=
| Num (x : float)
| Str (s : string).

(** [isinstance(v, Number)] *)
Definition is_number (v : euvalue) : bool :=
  match v with Num _ => true | Str _ => false end.

(** The astropy [Table] behind [self.data], restricted to the two
    columns the module uses.  A table with both columns is a list of
    rows, so the columns have one length by construction. *)
Inductive Table : Type :=
| NoColumns
| DatesOnly (d : list datetime)
| ValuesOnly (v : list euvalue)
| Rows (r : list (datetime * euvalue)).

(** [len(table)] *)
Definition table_len (t : Table) : nat :=
  match t with
  | NoColumns => 0%nat
  | DatesOnly d => length d
  | ValuesOnly v => length v
  | Rows r => length r
  end.

(** [table["dates"]] and [table["euvalues"]]: a [KeyError] when the
    column is absent. *)
Definition col_dates (t : Table) : result (list datetime) :=
  match t with
  | DatesOnly d => Ok d
  | Rows r => Ok (map fst r)
  | _ => Raise KeyError
  end.

Definition col_euvalues (t : Table) : result (list euvalue) :=
  match t with
  | ValuesOnly v => Ok v
  | Rows r => Ok (map snd r)
  | _ => Raise KeyError
  end.

(** [table["dates"] = col] and [table["euvalues"] = col].  A column of
    another length than the table is refused with a [ValueError] once
    the table has a second column: astropy first tries
    [replace_column], which checks the length unless the column is the
    only one, and then falls back to the in-place [column[:] = col],
    where numpy cannot broadcast the new shape (a column of length one
    is the exception: it is broadcast over the rows). *)
Definition set_dates (t : Table) (col : list datetime) : result Table :=
  match t with
  | NoColumns | DatesOnly _ => Ok (DatesOnly col)
  | ValuesOnly v =>
      if Nat.eqb (length col) (length v) then Ok (Rows (combine col v))
      else Raise ValueError
  | Rows r =>
      if Nat.eqb (length col) (length r) then Ok (Rows (combine col (map snd r)))
      else match col with
           | [c] => Ok (Rows (map (fun row => (c, snd row)) r))
           | _ => Raise ValueError
           end
  end.

Definition set_euvalues (t : Table) (col : list euvalue) : result Table :=
  match t with
  | NoColumns | ValuesOnly _ => Ok (ValuesOnly col)
  | DatesOnly d =>
      if Nat.eqb (length col) (length d) then Ok (Rows (combine d col))
      else Raise ValueError
  | Rows r =>
      if Nat.eqb (length col) (length r) then Ok (Rows (combine (map fst r) col))
      else match col with
           | [c] => Ok (Rows (map (fun row => (fst row, c)) r))
           | _ => Raise ValueError
           end
  end.

(** [table[lo:]] *)
Definition table_slice_from (t : Table) (lo : Z) : Table :=
  match t with
  | NoColumns => NoColumns
  | DatesOnly d => DatesOnly (py_slice d (Some lo) None)
  | ValuesOnly v => ValuesOnly (py_slice v (Some lo) None)
  | Rows r => Rows (py_slice r (Some lo) None)
  end.

(** [table[idx]] for an index array. *)
Definition table_take (t : Table) (idx : list Z) : result Table :=
  match t with
  | NoColumns => Ok NoColumns
  | DatesOnly d => c <- take d idx ;; Ok (DatesOnly c)
  | ValuesOnly v => c <- take v idx ;; Ok (ValuesOnly c)
  | Rows r => c <- take r idx ;; Ok (Rows c)
  end.

(** [Table([dates, values], names=("dates", "euvalues"))]: columns of
    different lengths are refused. *)
Definition table_of_columns (d : list datetime) (v : list euvalue) : result Table :=
  t <- set_dates NoColumns d ;; set_euvalues t v.

(* ================================================================= *)
(** ** External collaborators *)

(** An entry of [mean], [median] or [stdev]: [None], one value, or a
    whole value array (what [change_only_stats] returns for a single
    sample). *)
Inductive stat : Type :=
| SNone
| SVal (v : euvalue)
| SArr (vs : list euvalue).

(** What the module takes from astropy and does not define itself:
    [astropy.stats.sigma_clipped_stats(values, sigma=sigma)], giving
    mean, median and standard deviation; whether [u.Unit(s)] accepts
    a string; and the composition of two unit strings,
    [(u.Unit(a) * u.Unit(b)).compose()[0]] formatted as a string. *)
Class External : Type := {
  sigma_clipped_stats : list euvalue -> Z -> stat * stat * stat;
  unit_parses : string -> bool;
  combined_unit : string -> string -> string
}.

(* ================================================================= *)
(** ** The container *)

(** [np.array(blocks)]: the sentinel [[None]] or an array of indices. *)
Inductive Blocks : Type :=
| Sentinel
| Indices (l : list Z).

(** [blocks[0] is not None]; an empty array has no first element. *)
Definition first_is_not_None (b : Blocks) : result bool :=
  match b with
  | Sentinel => Ok false
  | Indices [] => Raise IndexError
  | Indices (_ :: _) => Ok true
  end.

(** [blocks[0:-1]] *)
Definition blocks_but_last (b : Blocks) : list Z :=
  match b with
  | Sentinel => []
  | Indices l => py_slice l (Some 0) (Some (-1))
  end.

(** [meta]: [Some ap] when [meta["TlmMnemonics"][0]["AllPoints"]] is
    [ap], [None] when the dictionary has no key ["TlmMnemonics"]. *)
Definition Meta : Type := option Z.

Definition all_points (m : Meta) : result Z :=
  match m with
  | Some ap => Ok ap
  | None => Raise KeyError
  end.

(** [info]: a dictionary in which each of the three keys the module
    reads may be absent. *)
Record Info : Type := {
  info_unit : option string;
  info_tlmMnemonic : option string;
  info_description : option string
}.

Definition lookup (field : option string) : result string :=
  match field with
  | Some s => Ok s
  | None => Raise KeyError
  end.

Record EdbMnemonic : Type := {
  mnemonic_identifier : string;
  requested_start_time : option datetime;
  requested_end_time : option datetime;
  data : Table;
  mean : option (list stat);
  median : option (list stat);
  stdev : option (list stat);
  median_times : option (list datetime);
  meta : Meta;
  info : option Info;
  blocks : Blocks;
  data_start_time : option datetime;
  data_end_time : option datetime
}.

Definition with_data (s : EdbMnemonic) (t : Table) : EdbMnemonic :=
  {| mnemonic_identifier := mnemonic_identifier s;
     requested_start_time := requested_start_time s;
     requested_end_time := requested_end_time s;
     data := t;
     mean := mean s; median := median s; stdev := stdev s;
     median_times := median_times s;
     meta := meta s; info := info s; blocks := blocks s;
     data_start_time := data_start_time s;
     data_end_time := data_end_time s |}.

Definition with_blocks (s : EdbMnemonic) (b : Blocks) : EdbMnemonic :=
  {| mnemonic_identifier := mnemonic_identifier s;
     requested_start_time := requested_start_time s;
     requested_end_time := requested_end_time s;
     data := data s;
     mean := mean s; median := median s; stdev := stdev s;
     median_times := median_times s;
     meta := meta s; info := info s; blocks := b;
     data_start_time := data_start_time s;
     data_end_time := data_end_time s |}.

Definition with_stats (s : EdbMnemonic) (m md sd : list stat) (mt : list datetime)
  : EdbMnemonic :=
  {| mnemonic_identifier := mnemonic_identifier s;
     requested_start_time := requested_start_time s;
     requested_end_time := requested_end_time s;
     data := data s;
     mean := Some m; median := Some md; stdev := Some sd;
     median_times := Some mt;
     meta := meta s; info := info s; blocks := blocks s;
     data_start_time := data_start_time s;
     data_end_time := data_end_time s |}.

Definition with_info (s : EdbMnemonic) (i : option Info) : EdbMnemonic :=
  {| mnemonic_identifier := mnemonic_identifier s;
     requested_start_time := requested_start_time s;
     requested_end_time := requested_end_time s;
     data := data s;
     mean := mean s; median := median s; stdev := stdev s;
     median_times := median_times s;
     meta := meta s; info := i; blocks := blocks s;
     data_start_time := data_start_time s;
     data_end_time := data_end_time s |}.

(* ================================================================= *)
(** ** Module-level helpers *)

(** [calc_median_time(time_arr)] *)
Definition calc_median_time (time_arr : list datetime) : result datetime :=
  t0 <- py_index time_arr 0 ;;
  tn <- py_index time_arr (-1) ;;
  Ok (t0 + td_half (tn - t0)).

(** [times[1:] - times[0:-1]] *)
Definition delta_time (times : list datetime) : list timedelta :=
  map (fun p => fst p - snd p) (combine (tl times) times).

(** [int(x)] for the time fractions below.  Infinities and NaN, on
    which Python raises, do not arise there: a [timedelta] is bounded
    (a thousand million days) and the divisor is not zero; they are
    sent to 0. *)
Definition int_of_fraction (x : float) : Z :=
  match int_of_float x with
  | Ok z => z
  | Raise _ => 0
  end.

(** [delta_time / np.min(delta_time) * 100.] *)
Definition time_fractions (deltas : list timedelta) : result (list float) :=
  m <- np_min deltas ;;
  mapM (fun d => q <- td_truediv d m ;; Ok (fmul q (float_of_int 100))) deltas.

(** [[item for sublist in [[val] * int(time) for val, time in
    zip(values, time_fractions)] for item in sublist]] *)
Definition flat_list_for_median (values : list euvalue) (fractions : list float)
  : list euvalue :=
  concat (map (fun p => repeat (fst p) (Z.to_nat (int_of_fraction (snd p))))
              (combine values fractions)).

Section WithExternal.

Context {ext : External}.

(** [change_only_stats(times, values, sigma)] *)
Definition change_only_stats (times : list datetime) (values : list euvalue) (sigma : Z)
  : result (stat * stat * stat) :=
  match times with
  | [] => Ok (SNone, SNone, SNone)
  | [_] => Ok (SArr values, SArr values, SVal (Num (float_of_int 0)))
  | _ =>
      fractions <- time_fractions (delta_time times) ;;
      Ok (sigma_clipped_stats (flat_list_for_median values fractions) sigma)
  end.

(** The statistics of one window, by encoding: the dispatch shared by
    the four statistics methods. *)
Definition window_stats (m : Meta) (dates : list datetime) (values : list euvalue)
  (sigma : Z) : result (stat * stat * stat) :=
  ap <- all_points m ;;
  if negb (ap =? 0) then Ok (sigma_clipped_stats values sigma)
  else change_only_stats dates values sigma.

(** [full_stats(self, sigma)] *)
Definition full_stats (self : EdbMnemonic) (sigma : Z) : result EdbMnemonic :=
  ap <- all_points (meta self) ;;
  '(m, md, sd) <-
    (if negb (ap =? 0)
     then v <- col_euvalues (data self) ;; Ok (sigma_clipped_stats v sigma)
     else d <- col_dates (data self) ;;
          v <- col_euvalues (data self) ;;
          change_only_stats d v sigma) ;;
  d <- col_dates (data self) ;;
  mt <- calc_median_time d ;;
  Ok (with_stats self [m] [md] [sd] [mt]).

(** [EdbMnemonic.__init__] *)
Definition __init__ (mnemonic_identifier : string)
  (start_time end_time : option datetime) (data : Table) (meta : Meta)
  (info : option Info) (blocks : Blocks) : result EdbMnemonic :=
  let self :=
    {| mnemonic_identifier := mnemonic_identifier;
       requested_start_time := start_time;
       requested_end_time := end_time;
       data := data;
       mean := None; median := None; stdev := None; median_times := None;
       meta := meta; info := info; blocks := blocks;
       data_start_time := None; data_end_time := None |} in
  if Nat.eqb (table_len data) 0 then Ok self
  else
    d <- col_dates data ;;
    lo <- np_min d ;;
    hi <- np_max d ;;
    let self :=
      {| mnemonic_identifier := mnemonic_identifier;
         requested_start_time := start_time;
         requested_end_time := end_time;
         data := data;
         mean := None; median := None; stdev := None; median_times := None;
         meta := meta; info := info; blocks := blocks;
         data_start_time := Some lo; data_end_time := Some hi |} in
    v <- col_euvalues data ;;
    v0 <- py_index v 0 ;;
    if is_number v0 && (match meta with Some _ => true | None => false end)
    then full_stats self 3
    else Ok self.

End WithExternal.

(* ================================================================= *)
(** ** numpy: [unique], [intersect1d] and [interp] *)

(** A stable sort of (value, index) pairs by value, as
    [argsort(kind="mergesort")] orders them: among equal values the
    earlier index stays first. *)
Fixpoint insert_stable (x : Z * Z) (l : list (Z * Z)) : list (Z * Z) :=
  match l with
  | [] => [x]
  | y :: l' => if fst x <=? fst y then x :: l else y :: insert_stable x l'
  end.

Fixpoint argsort_pairs (l : list (Z * Z)) : list (Z * Z) :=
  match l with
  | [] => []
  | x :: l' => insert_stable x (argsort_pairs l')
  end.

(** The mask [aux[1:] != aux[:-1]] (with the first entry kept): the
    first pair of each run of equal values. *)
Fixpoint run_heads (prev : Z) (l : list (Z * Z)) : list (Z * Z) :=
  match l with
  | [] => []
  | x :: l' => if fst x =? prev then run_heads prev l' else x :: run_heads (fst x) l'
  end.

Definition unique_pairs (ar : list Z) : list (Z * Z) :=
  match argsort_pairs (combine ar (range (length ar))) with
  | [] => []
  | x :: l => x :: run_heads (fst x) l
  end.

(** [np.unique(ar, return_index=True)]: the sorted distinct values and,
    for each, the index of its first occurrence in [ar]. *)
Definition np_unique (ar : list Z) : list Z * list Z :=
  let u := unique_pairs ar in (map fst u, map snd u).

(** [np.intersect1d(ar1, ar2, return_indices=True)]: the sorted common
    values with the index of the first occurrence of each in [ar1] and
    in [ar2]. *)
Definition np_intersect1d (ar1 ar2 : list Z) : list Z * list Z * list Z :=
  let u1 := unique_pairs ar1 in
  let u2 := unique_pairs ar2 in
  let common :=
    concat (map (fun p =>
                   match find (fun q => fst q =? fst p) u2 with
                   | Some q => [(fst p, (snd p, snd q))]
                   | None => []
                   end) u1) in
  (map fst common, map (fun c => fst (snd c)) common, map (fun c => snd (snd c)) common).

Definition is_nan (x : float) : bool :=
  match x with S754_nan => true | _ => false end.

(** One point of [np.interp] at or above the first knot: the knot
    interval is searched from the left (the knots are increasing), a
    point on a knot takes that knot's value, a point at or beyond the
    last knot takes [fp[-1]]. *)
Fixpoint interp_search (x : float) (xp fp : list float) : float :=
  match xp, fp with
  | x0 :: ((x1 :: _) as xp'), y0 :: ((y1 :: _) as fp') =>
      if SFltb x x1
      then if SFeqb x0 x then y0
           else
             let slope := fdiv (fsub y1 y0) (fsub x1 x0) in
             let r := fadd (fmul slope (fsub x x0)) y0 in
             if is_nan r
             then let r' := fadd (fmul slope (fsub x x1)) y1 in
                  if is_nan r' && SFeqb y0 y1 then y0 else r'
             else r
      else interp_search x xp' fp'
  | _, y0 :: _ => y0
  | _, [] => nan
  end.

(** [np.interp(x, xp, fp)] *)
Definition np_interp (x xp fp : list float) : result (list float) :=
  match xp, fp with
  | [], _ => Raise ValueError
  | x0 :: _, y0 :: _ =>
      if Nat.eqb (length xp) (length fp)
      then Ok (map (fun xi => if is_nan xi then xi
                              else if SFltb xi x0 then y0
                              else interp_search xi xp fp) x)
      else Raise ValueError
  | _, [] => Raise ValueError
  end.

(** A value as numpy casts it to [float64]. *)
Definition as_float (v : euvalue) : result float :=
  match v with
  | Num x => Ok x
  | Str _ => Raise TypeError
  end.

(** [a * b] on two entries of value columns. *)
Definition value_mul (a b : euvalue) : result euvalue :=
  x <- as_float a ;; y <- as_float b ;; Ok (Num (fmul x y)).

(* ================================================================= *)
(** ** Methods that need no collaborator *)

(** [EdbMnemonic.change_only_add_points] *)
Definition change_only_add_points (self : EdbMnemonic) : result EdbMnemonic :=
  d <- col_dates (data self) ;;
  d0 <- py_index d 0 ;;
  v <- col_euvalues (data self) ;;
  v0 <- py_index v 0 ;;
  let delta_t := microsecond in
  added <- mapM (fun i =>
                   d <- col_dates (data self) ;;
                   di <- py_index d i ;;
                   v <- col_euvalues (data self) ;;
                   vi <- py_index v (i - 1) ;;
                   Ok (di - delta_t, vi))
                (range (table_len (table_slice_from (data self) 1))) ;;
  let new_dates := d0 :: map fst added in
  let new_vals := v0 :: map snd added in
  t <- set_dates NoColumns new_dates ;;
  new_table <- set_euvalues t new_vals ;;
  Ok (with_data self new_table).

(** [create_time_offset(dt_obj, epoch)], for [datetime] arguments: the
    float number of seconds from [epoch] to [dt_obj]. *)
Definition create_time_offset (dt_obj epoch : datetime) : float :=
  total_seconds (dt_obj - epoch).

(** [add_time_offset(offset, dt_obj)] *)
Definition add_time_offset (offset : float) (dt_obj : datetime) : result datetime :=
  td <- timedelta_of_seconds offset ;;
  datetime_add dt_obj td.

(** The new table of [interpolate] for change-only data. *)
Definition interpolate_change_only (t : Table) (times : list datetime) : result Table :=
  found <- mapM (fun time =>
                   d <- col_dates t ;;
                   match last_opt (np_where (fun x => x <=? time) d) with
                   | Some i =>
                       v <- col_euvalues t ;;
                       x <- py_index v i ;;
                       Ok [(time, x)]
                   | None => Ok []
                   end) times ;;
  let new_values := map snd (concat found) in
  let new_dates := map fst (concat found) in
  if Nat.ltb 0 (length new_values)
  then tab <- set_euvalues NoColumns new_values ;; set_dates tab new_dates
  else Ok NoColumns.

(** The new table of [interpolate] for all-points data.  The offsets
    are float seconds from the first row; they are compared, handed to
    [np.interp] and converted back to timestamps as floats.  With fewer
    than two rows the source evaluates [np.array[()]], a subscript of
    a function, which is a [TypeError]. *)
Definition interpolate_all_points (t : Table) (times : list datetime) : result Table :=
  d <- col_dates t ;;
  if Nat.leb 2 (length d) then
    d0 <- py_index d 0 ;;
    let interp_times := map (fun ele => create_time_offset ele d0) times in
    let mnem_times := map (fun ele => create_time_offset ele d0) d in
    first <- py_index mnem_times 0 ;;
    final <- py_index mnem_times (-1) ;;
    let interp_times := filter (fun x => SFleb first x && SFleb x final) interp_times in
    v <- col_euvalues t ;;
    fp <- mapM as_float v ;;
    vals <- np_interp interp_times mnem_times fp ;;
    tab <- set_euvalues NoColumns (map Num vals) ;;
    new_dates <- mapM (fun ele => add_time_offset ele d0) interp_times ;;
    set_dates tab new_dates
  else Raise TypeError.

(** [EdbMnemonic.interpolate] *)
Definition interpolate (self : EdbMnemonic) (times : list datetime) : result EdbMnemonic :=
  ap <- all_points (meta self) ;;
  new_tab <- (if ap =? 0 then interpolate_change_only (data self) times
              else interpolate_all_points (data self) times) ;;
  kept <- mapM (fun index =>
                  nd <- col_dates new_tab ;;
                  d <- col_dates (data self) ;;
                  di <- py_index d index ;;
                  match np_where (fun x => di <=? x) nd with
                  | g :: _ => Ok [g]
                  | [] => Ok []
                  end) (blocks_but_last (blocks self)) ;;
  nd <- col_dates new_tab ;;
  let new_blocks := concat kept ++ [Z.of_nat (length nd)] in
  Ok (with_data (with_blocks self (Indices new_blocks)) new_tab).

(** [change_only_bounding_points(date_list, value_list, starttime,
    endtime)] *)
Definition change_only_bounding_points (date_list : list datetime)
  (value_list : list euvalue) (starttime endtime : datetime)
  : result (list datetime * list euvalue) :=
  let valid_idx := np_where (fun t => (t <=? endtime) && (starttime <=? t)) date_list in
  let before_startime := np_where (fun t => t <? starttime) date_list in
  let before_endtime := np_where (fun t => t <? endtime) date_list in
  value0 <- match last_opt before_startime with
            | None => Ok (Num nan)
            | Some i => py_index value_list i
            end ;;
  value_end <- match last_opt before_endtime with
               | None => Ok (Num nan)
               | Some i => py_index value_list i
               end ;;
  dates <- take date_list valid_idx ;;
  values <- take value_list valid_idx ;;
  Ok (starttime :: dates ++ [endtime], value0 :: values ++ [value_end]).

(* ================================================================= *)
(** ** Methods that call the collaborators *)

Section Methods.

Context {ext : External}.

(** [blocks[i]] *)
Definition blocks_index (b : Blocks) (i : Z) : result (option Z) :=
  match b with
  | Sentinel => x <- py_index [tt] i ;; Ok None
  | Indices l => x <- py_index l i ;; Ok (Some x)
  end.

(** [EdbMnemonic.block_stats] *)
Definition block_stats (self : EdbMnemonic) (sigma : Z) : result EdbMnemonic :=
  v <- col_euvalues (data self) ;;
  v0 <- py_index v 0 ;;
  let starts := blocks_but_last (blocks self) in
  per_block <-
    mapM (fun p =>
            let i := fst p in
            let index := snd p in
            if is_number v0 then
              ap <- all_points (meta self) ;;
              hi <- blocks_index (blocks self) (i + 1) ;;
              '(meanval, medianval, stdevval) <-
                (if negb (ap =? 0)
                 then v <- col_euvalues (data self) ;;
                      Ok (sigma_clipped_stats (py_slice v (Some index) hi) sigma)
                 else d <- col_dates (data self) ;;
                      v <- col_euvalues (data self) ;;
                      change_only_stats (py_slice d (Some index) hi)
                                        (py_slice v (Some index) hi) sigma) ;;
              d <- col_dates (data self) ;;
              medtime <- calc_median_time (py_slice d (Some index) hi) ;;
              Ok (meanval, medianval, stdevval, medtime)
            else
              v <- col_euvalues (data self) ;;
              meanval <- py_index v index ;;
              d <- col_dates (data self) ;;
              hi <- blocks_index (blocks self) (i + 1) ;;
              medtime <- calc_median_time (py_slice d (Some index) hi) ;;
              Ok (SVal meanval, SVal meanval, SVal (Num (float_of_int 0)), medtime))
         (combine (range (length starts)) starts) ;;
  Ok (with_stats self
        (map (fun r => fst (fst (fst r))) per_block)
        (map (fun r => snd (fst (fst r))) per_block)
        (map (fun r => snd (fst r)) per_block)
        (map snd per_block)).

(** [EdbMnemonic.daily_stats] *)
Definition daily_stats (self : EdbMnemonic) (sigma : Z) : result EdbMnemonic :=
  d <- col_dates (data self) ;;
  min_date <- np_min d ;;
  max_date <- np_max d ;;
  let date_range := max_date - min_date in
  let num_days := date_range / day in
  let range_days := num_days + 1 in
  let limits := map (fun x => min_date + x * day) (range (Z.to_nat range_days))
                ++ [max_date] in
  per_day <-
    mapM (fun i =>
            lo <- py_index limits i ;;
            hi <- py_index limits (i + 1) ;;
            d <- col_dates (data self) ;;
            let good := np_where (fun t => (lo <=? t) && (t <? hi)) d in
            ap <- all_points (meta self) ;;
            '(avg, med, dev) <-
              (if negb (ap =? 0)
               then v <- col_euvalues (data self) ;;
                    vg <- take v good ;;
                    Ok (sigma_clipped_stats vg sigma)
               else dg <- take d good ;;
                    v <- col_euvalues (data self) ;;
                    vg <- take v good ;;
                    change_only_stats dg vg sigma) ;;
            Ok (avg, med, dev, lo + td_half (hi - lo)))
         (range (length limits - 1)) ;;
  Ok (with_stats self
        (map (fun r => fst (fst (fst r))) per_day)
        (map (fun r => snd (fst (fst r))) per_day)
        (map (fun r => snd (fst r)) per_day)
        (map snd per_day)).

(** [EdbMnemonic.timed_stats].  [duration_secs] is
    [duration.to('second').value], a numpy float: the number of bins is
    the float quotient of the span in seconds by it, rounded up by
    [np.ceil] and converted by [int]; the bounds of a bin are rebuilt
    from float seconds by [timedelta(seconds=...)]. *)
Definition timed_stats (self : EdbMnemonic) (duration_secs : float) (sigma : Z)
  : result EdbMnemonic :=
  date_arr <- col_dates (data self) ;;
  hi <- np_max date_arr ;;
  lo <- np_min date_arr ;;
  let num_bins := fdiv (total_seconds (hi - lo)) duration_secs in
  let num_bins := np_ceil num_bins in
  n <- int_of_float num_bins ;;
  per_bin <-
    mapM (fun i =>
            d0 <- py_index date_arr 0 ;;
            offset <- timedelta_of_seconds (fmul (float_of_int i) duration_secs) ;;
            min_date <- datetime_add d0 offset ;;
            width <- timedelta_of_seconds duration_secs ;;
            max_date <- datetime_add min_date width ;;
            let good := np_where (fun t => (min_date <=? t) && (t <? max_date)) date_arr in
            ap <- all_points (meta self) ;;
            v <- col_euvalues (data self) ;;
            vg <- take v good ;;
            dg <- take date_arr good ;;
            '(avg, med, dev) <-
              (if negb (ap =? 0) then Ok (sigma_clipped_stats vg sigma)
               else change_only_stats dg vg sigma) ;;
            medtime <- calc_median_time dg ;;
            Ok (avg, med, dev, medtime))
         (range (Z.to_nat n)) ;;
  Ok (with_stats self
        (map (fun r => fst (fst (fst r))) per_bin)
        (map (fun r => snd (fst (fst r))) per_bin)
        (map (fun r => snd (fst r)) per_bin)
        (map snd per_bin)).

(** The block list of a sum, from the blocks of the operand that
    starts earlier and of the one that starts later. *)
Definition add_blocks (early_blocks late_blocks : Blocks) (overlap_len : Z)
  : result Blocks :=
  late_set <- first_is_not_None late_blocks ;;
  if late_set then
    let new_late_blocks :=
      match late_blocks with
      | Indices l => map (fun b => b - overlap_len) l
      | Sentinel => []
      end in
    early_set <- first_is_not_None early_blocks ;;
    if negb early_set then Ok (Indices new_late_blocks)
    else match early_blocks with
         | Indices e => Ok (Indices (e ++ new_late_blocks))
         | Sentinel => Ok (Indices new_late_blocks)
         end
  else
    early_set <- first_is_not_None early_blocks ;;
    if early_set then Ok early_blocks else Ok Sentinel.

(** [EdbMnemonic.__add__].  The message of the [ValueError] is an
    f-string that reads [self.info["tlmMnemonic"]]. *)
Definition __add__ (self mnem : EdbMnemonic) : result EdbMnemonic :=
  if negb (String.eqb (mnemonic_identifier self) (mnemonic_identifier mnem)) then
    match info self with
    | None => Raise TypeError
    | Some i => name <- lookup (info_tlmMnemonic i) ;; Raise ValueError
    end
  else
    self_dates <- col_dates (data self) ;;
    if Nat.eqb (length self_dates) 0 then Ok mnem else
    mnem_dates <- col_dates (data mnem) ;;
    if Nat.eqb (length mnem_dates) 0 then Ok self else
    self_min <- np_min self_dates ;;
    mnem_min <- np_min mnem_dates ;;
    let early := if self_min <? mnem_min then self else mnem in
    let late := if self_min <? mnem_min then mnem else self in
    early_dates <- col_dates (data early) ;;
    late_dates <- col_dates (data late) ;;
    early_data <- col_euvalues (data early) ;;
    late_data <- col_euvalues (data late) ;;
    let all_dates := early_dates ++ late_dates in
    let '(unique_dates, unq_idx) := np_unique all_dates in
    let all_data := early_data ++ late_data in
    unique_data <- take all_data unq_idx ;;
    let overlap_len := Z.of_nat (length unique_dates) - Z.of_nat (length all_dates) in
    new_blocks <- add_blocks (blocks early) (blocks late) overlap_len ;;
    new_data <- table_of_columns unique_dates unique_data ;;
    __init__ (mnemonic_identifier self) (data_start_time self) (data_end_time self)
             new_data (meta self) (info self) new_blocks.

(** The [try] block that closes [__mul__]: the result's [info] is
    updated key by key, and a [KeyError] on the way keeps what was
    written before it.  A missing dictionary or a string that is no
    unit is not caught. *)
Definition mul_info (self mnem new_obj : EdbMnemonic) : result EdbMnemonic :=
  match info self with
  | None => Raise TypeError
  | Some si =>
      match info_unit si with
      | None => Ok new_obj
      | Some us =>
          if negb (unit_parses us) then Raise ValueError else
          match info mnem with
          | None => Raise TypeError
          | Some mi =>
              match info_unit mi with
              | None => Ok new_obj
              | Some um =>
                  if negb (unit_parses um) then Raise ValueError else
                  let i1 := {| info_unit := Some (combined_unit us um);
                               info_tlmMnemonic := info_tlmMnemonic si;
                               info_description := info_description si |} in
                  match info_tlmMnemonic si, info_tlmMnemonic mi with
                  | Some ts, Some tm =>
                      let i2 := {| info_unit := info_unit i1;
                                   info_tlmMnemonic := Some (ts ++ " * " ++ tm)%string;
                                   info_description := info_description si |} in
                      match info_description si, info_description mi with
                      | Some dsc, Some dmc =>
                          Ok (with_info new_obj
                                (Some {| info_unit := info_unit i2;
                                         info_tlmMnemonic := info_tlmMnemonic i2;
                                         info_description :=
                                           Some ("(" ++ dsc ++ ") * (" ++ dmc ++ ")")%string |}))
                      | _, _ => Ok (with_info new_obj (Some i2))
                      end
                  | _, _ => Ok (with_info new_obj (Some i1))
                  end
              end
          end
      end
  end.

(** [__mul__] once [mnem] has been interpolated. *)
Definition mul_aligned (self mnem : EdbMnemonic) : result EdbMnemonic :=
  self_dates <- col_dates (data self) ;;
  mnem_dates <- col_dates (data mnem) ;;
  let '(common_dates, self_idx, mnem_idx) := np_intersect1d self_dates mnem_dates in
  use_blocks <-
    (if Nat.eqb (length self_idx) (table_len (data self)) then Ok (blocks self)
     else if Nat.eqb (length mnem_idx) (table_len (data mnem)) then Ok (blocks mnem)
     else Raise ValueError) ;;
  self_data <- table_take (data self) self_idx ;;
  mnem_data <- table_take (data mnem) mnem_idx ;;
  tab <- set_dates NoColumns common_dates ;;
  sv <- col_euvalues self_data ;;
  mv <- col_euvalues mnem_data ;;
  prod <- mapM (fun p => value_mul (fst p) (snd p)) (combine sv mv) ;;
  new_tab <- set_euvalues tab prod ;;
  new_obj <- __init__ (mnemonic_identifier self) (requested_start_time self)
                      (requested_end_time self) new_tab (meta self) (info self)
                      use_blocks ;;
  mul_info self mnem new_obj.

(** [EdbMnemonic.__mul__].  The right operand is mutated, so the
    outcome comes with the state [mnem] is left in; [self] and [mnem]
    are two objects. *)
Definition __mul__ (self mnem : EdbMnemonic) : result EdbMnemonic * EdbMnemonic :=
  match col_dates (data mnem) with
  | Raise e => (Raise e, mnem)
  | Ok mnem_dates =>
      if Nat.ltb (length mnem_dates) 2 then
        match (t <- set_dates (data mnem) [] ;; set_euvalues t []) with
        | Ok t => (Ok (with_data mnem t), with_data mnem t)
        | Raise e => (Raise e, mnem)
        end
      else
        match (self_dates <- col_dates (data self) ;; interpolate mnem self_dates) with
        | Raise e => (Raise e, mnem)
        | Ok mnem' => (mul_aligned self mnem', mnem')
        end
  end.

End Methods.

(* ================================================================= *)
(** ** A reference instance of the collaborators *)

(** Sigma clipping with astropy's defaults (centre on the median, at
    most five iterations), sums taken from left to right; every string
    is a unit and two units compose by juxtaposition.  The instance
    serves to run the model on concrete series; the properties below
    hold for every instance. *)

Fixpoint insert_float (x : float) (l : list float) : list float :=
  match l with
  | [] => [x]
  | y :: l' => if SFleb x y then x :: l else y :: insert_float x l'
  end.

Definition sort_floats (l : list float) : list float :=
  fold_right insert_float [] l.

Definition fmean (l : list float) : float :=
  fdiv (fold_left fadd l (float_of_int 0)) (float_of_int (Z.of_nat (length l))).

Definition fmedian (l : list float) : float :=
  let s := sort_floats l in
  let n := length s in
  if Nat.even n
  then fdiv (fadd (nth (n / 2 - 1) s nan) (nth (n / 2) s nan)) (float_of_int 2)
  else nth (n / 2) s nan.

Definition fstd (l : list float) : float :=
  let m := fmean l in
  fsqrt (fmean (map (fun x => fmul (fsub x m) (fsub x m)) l)).

Fixpoint clip (iters : nat) (sigma : float) (l : list float) : list float :=
  match iters with
  | O => l
  | S k =>
      let c := fmedian l in
      let w := fmul sigma (fstd l) in
      let l' := filter (fun x => SFleb (fsub c w) x && SFleb x (fadd c w)) l in
      if Nat.eqb (length l') (length l) then l else clip k sigma l'
  end.

Definition numeric_values (values : list euvalue) : list float :=
  concat (map (fun v => match v with
                        | Num x => if is_nan x then [] else [x]
                        | Str _ => []
                        end) values).

Definition reference_sigma_clipped_stats (values : list euvalue) (sigma : Z)
  : stat * stat * stat :=
  let kept := clip 5 (float_of_int sigma) (numeric_values values) in
  (SVal (Num (fmean kept)), SVal (Num (fmedian kept)), SVal (Num (fstd kept))).

#[export] Instance reference_external : External := {
  sigma_clipped_stats := reference_sigma_clipped_stats;
  unit_parses := fun _ => true;
  combined_unit := fun a b => (a ++ " " ++ b)%string
}.

(* ================================================================= *)
(** ** Definitions the properties are stated with *)

(** The value in effect at [t]: that of the last sample strictly
    before [t], NaN when there is none. *)
Definition held_before (samples : list (datetime * euvalue)) (t : datetime) : euvalue :=
  match last_opt (filter (fun s => fst s <? t) samples) with
  | Some s => snd s
  | None => Num nan
  end.

(** The samples inside the closed window. *)
Definition clip_to_window (samples : list (datetime * euvalue)) (starttime endtime : datetime)
  : list (datetime * euvalue) :=
  filter (fun s => (fst s <=? endtime) && (starttime <=? fst s)) samples.

(** The held-value expansion: every original sample, and before each
    one but the first a sample one microsecond earlier that carries
    the value of the sample before. *)
Fixpoint held_value_expansion (prev : datetime * euvalue)
  (rest : list (datetime * euvalue)) : list (datetime * euvalue) :=
  match rest with
  | [] => []
  | cur :: rest' => (fst cur - microsecond, snd prev) :: cur :: held_value_expansion cur rest'
  end.

(** The instance [__init__] builds from an empty table. *)
Definition empty_series (mnemonic_identifier : string)
  (start_time end_time : option datetime) (meta : Meta) (info : option Info)
  (blocks : Blocks) : EdbMnemonic :=
  {| mnemonic_identifier := mnemonic_identifier;
     requested_start_time := start_time;
     requested_end_time := end_time;
     data := Rows [];
     mean := None; median := None; stdev := None; median_times := None;
     meta := meta; info := info; blocks := blocks;
     data_start_time := None; data_end_time := None |}.

(** A series as the retrieval adapter holds it before any statistics:
    identifier ["M"], the given encoding flag, rows and blocks. *)
Definition series (ap : Z) (rows : list (datetime * euvalue)) (b : Blocks) : EdbMnemonic :=
  {| mnemonic_identifier := "M";
     requested_start_time := None;
     requested_end_time := None;
     data := Rows rows;
     mean := None; median := None; stdev := None; median_times := None;
     meta := Some ap;
     info := Some {| info_unit := None; info_tlmMnemonic := Some "M"%string;
                     info_description := None |};
     blocks := b;
     data_start_time := None; data_end_time := None |}.

Definition num (z : Z) : euvalue := Num (float_of_int z).

(** Pairs ordered by value, and by index among equal values. *)
Definition lex_lt (a b : Z * Z) : Prop :=
  fst a < fst b \/ (fst a = fst b /\ snd a < snd b).

Definition by_index (a b : Z * Z) : Prop := snd a < snd b.

(** The number of samples whose timestamp occurs again further on:
    the samples a deduplication removes. *)
Fixpoint duplicated (l : list Z) : nat :=
  match l with
  | [] => 0
  | t :: l' => ((if existsb (Z.eqb t) l' then 1 else 0) + duplicated l')%nat
  end.

(** One time fraction: [delta / m * 100.] *)
Definition time_fraction (m d : timedelta) : float :=
  fmul (int_truediv d m) (float_of_int 100).

(** The deduplicated rows of a concatenation: the distinct timestamps
    in increasing order, each with the value found at the index
    [np.unique] returns for it. *)
Definition merged_rows (all : list (datetime * euvalue)) : list (datetime * euvalue) :=
  map (fun p => (fst p, nth (Z.to_nat (snd p)) (map snd all) (Num nan)))
      (unique_pairs (map fst all)).

(** The earliest timestamp of non-empty rows. *)
Definition earliest (rows : list (datetime * euvalue)) : datetime :=
  match map fst rows with
  | [] => 0
  | t :: l => fold_left Z.min l t
  end.

(** The rows of the two operands, those of the operand that starts
    earlier first ([a]'s first only when it starts strictly earlier). *)
Definition earlier_then_later (ra rb : list (datetime * euvalue))
  : list (datetime * euvalue) :=
  if earliest ra <? earliest rb then ra ++ rb else rb ++ ra.

(** Two series of three samples that share the timestamp 3. *)
Definition early_example : EdbMnemonic :=
  series 1 [(1, num 10); (2, num 20); (3, num 30)] (Indices [0; 3]).

Definition late_example : EdbMnemonic :=
  series 1 [(3, num 31); (4, num 40); (5, num 50)] (Indices [0; 3]).












(** A product of two all-points series: the left one sampled at 0 and
    10 microseconds, the right one at 0 and 20. *)
Definition mul_left_example : EdbMnemonic :=
  series 1 [(0, num 2); (10, num 3)] (Indices [0; 2]).

Definition mul_right_example : EdbMnemonic :=
  series 1 [(0, num 3); (20, num 5)] Sentinel.

Definition mul_product_example : EdbMnemonic :=
  match fst (__mul__ mul_left_example mul_right_example) with
  | Ok r => r
  | Raise _ => mul_left_example
  end.

Definition mul_right_after_example : EdbMnemonic :=
  snd (__mul__ mul_left_example mul_right_example).

(** The multiset of a change-only window: the value of each sample
    that has a successor, repeated [int(delta / m * 100.)] times, where
    [delta] is the time to the next sample and [m] the smallest such
    time. *)
Definition held_values (m : timedelta) (values : list euvalue) (deltas : list timedelta)
  : list euvalue :=
  concat (map (fun p => repeat (fst p) (Z.to_nat (int_of_fraction (time_fraction m (snd p)))))
              (combine values deltas)).

(* ================================================================= *)
(** ** Retrieval *)

(** [EdbMnemonic.__len__] *)
Definition __len__ (self : EdbMnemonic) : result nat :=
  d <- col_dates (data self) ;; Ok (length d).

(** What [get_mnemonic] asks of the engineering-database service and
    of the MAST dictionary: [service.get_meta(identifier)], the
    metadata; [service.get_values(identifier, start, end,
    include_obstime=True, include_bracket_values=bracket)], the
    samples as (obstime, value) pairs; and
    [get_mnemonic_info(identifier)], the description or [None]. *)
Record Service : Type := {
  get_meta : string -> Meta;
  get_values : string -> datetime -> datetime -> bool -> list (datetime * euvalue);
  get_mnemonic_info : string -> option Info
}.

Section Retrieval.

Context {ext : External}.

(** [get_mnemonic(mnemonic_identifier, start_time, end_time)] *)
Definition get_mnemonic (service : Service) (mnemonic_identifier : string)
  (start_time end_time : datetime) : result EdbMnemonic :=
  let meta := get_meta service mnemonic_identifier in
  ap <- all_points meta ;;
  let bracket := ap =? 0 in
  let data := get_values service mnemonic_identifier start_time end_time bracket in
  let dates := map fst data in
  let values := map snd data in
  '(dates, values) <-
    (if bracket then change_only_bounding_points dates values start_time end_time
     else Ok (dates, values)) ;;
  data <- table_of_columns dates values ;;
  let info := get_mnemonic_info service mnemonic_identifier in
  mnemonic <- __init__ mnemonic_identifier (Some start_time) (Some end_time)
                       data meta info Sentinel ;;
  if bracket then
    n <- __len__ mnemonic ;;
    if Nat.ltb 0 n then change_only_add_points mnemonic else Ok mnemonic
  else Ok mnemonic.

End Retrieval.

(* ================================================================= *)
(** ** File names ([jwql.utils.utils]) *)

(** A file name is a list of characters.  The classes of the pattern
    are taken on ASCII names, where [\d] is [[0-9]] and [\w] is
    [[A-Za-z0-9_]]. *)
Definition chars (s : string) : list Ascii.ascii := list_ascii_of_string s.

Definition code (c : Ascii.ascii) : N := Ascii.N_of_ascii c.

Definition isascii (c : Ascii.ascii) : bool := N.ltb (code c) 128.

(** [[a-z]], [\d], [\w] and [.] *)
Definition lower (c : Ascii.ascii) : bool := N.leb 97 (code c) && N.leb (code c) 122.
Definition upper (c : Ascii.ascii) : bool := N.leb 65 (code c) && N.leb (code c) 90.
Definition digit (c : Ascii.ascii) : bool := N.leb 48 (code c) && N.leb (code c) 57.
Definition underscore (c : Ascii.ascii) : bool := N.eqb (code c) 95.
Definition word (c : Ascii.ascii) : bool := lower c || upper c || digit c || underscore c.
Definition dot (c : Ascii.ascii) : bool := negb (N.eqb (code c) 10).
Definition slash (c : Ascii.ascii) : bool := N.eqb (code c) 47.

(** [os.path.basename(p)]: what follows the last ["/"]. *)
Fixpoint basename (p : list Ascii.ascii) : list Ascii.ascii :=
  match p with
  | [] => []
  | c :: p' => if slash c || existsb slash p' then basename p' else p
  end.

(** The pieces of the pattern: literal text, and a greedy repetition
    [cls{lo,hi}] of a character class ([hi = None] for no upper
    bound), which may be a named group. *)
Inductive item : Type :=
| Text (t : string)
| Rep (cls : Ascii.ascii -> bool) (lo : nat) (hi : option nat) (name : option string).

(** The longest run of [cls] at the head of [s], within the bound. *)
Fixpoint span (cls : Ascii.ascii -> bool) (hi : option nat) (s : list Ascii.ascii) : nat :=
  match s with
  | [] => 0%nat
  | c :: s' =>
      if cls c then
        match hi with
        | Some 0%nat => 0%nat
        | Some (S h) => S (span cls (Some h) s')
        | None => S (span cls None s')
        end
      else 0%nat
  end.

(** A greedy repetition gives back one character at a time, down to
    [lo], until the rest of the pattern matches. *)
Fixpoint backoff {R : Type} (k lo : nat) (continue : nat -> option R) : option R :=
  if Nat.ltb k lo then None
  else match continue k with
       | Some r => Some r
       | None => match k with
                 | O => None
                 | S k' => backoff k' lo continue
                 end
       end.

Fixpoint strip (t s : list Ascii.ascii) : option (list Ascii.ascii) :=
  match t, s with
  | [], _ => Some s
  | a :: t', b :: s' => if Ascii.eqb a b then strip t' s' else None
  | _ :: _, [] => None
  end.

(** [pattern.match(s)]: the pieces matched in turn from the start of
    [s], by backtracking; the result is the [groupdict()] of the
    match, the named groups in the order of the pattern. *)
Fixpoint match_items (items : list item) (s : list Ascii.ascii)
  : option (list (string * list Ascii.ascii)) :=
  match items with
  | [] => Some []
  | Text t :: rest =>
      match strip (chars t) s with
      | Some s' => match_items rest s'
      | None => None
      end
  | Rep cls lo hi name :: rest =>
      backoff (span cls hi s) lo
        (fun k =>
           match match_items rest (skipn k s) with
           | Some groups =>
               Some (match name with
                     | Some n => (n, firstn k s) :: groups
                     | None => groups
                     end)
           | None => None
           end)
  end.

(** The compiled pattern of [filename_parser]. *)
Definition elements : list item :=
  [ Rep lower 1 None None;
    Rep digit 5 (Some 5%nat) (Some "program_id"%string);
    Rep digit 3 (Some 3%nat) (Some "observation"%string);
    Rep digit 3 (Some 3%nat) (Some "visit"%string);
    Text "_";
    Rep digit 2 (Some 2%nat) (Some "visit_group"%string);
    Rep digit 1 (Some 1%nat) (Some "parallel_seq_id"%string);
    Rep digit 2 (Some 2%nat) (Some "activity"%string);
    Text "_";
    Rep digit 1 None (Some "exposure_id"%string);
    Text "_";
    Rep word 1 None (Some "detector"%string);
    Text "_";
    Rep word 1 None (Some "suffix"%string);
    Rep dot 0 None None ].

(** [filename_parser(filename)] *)
Definition filename_parser (filename : list Ascii.ascii)
  : result (list (string * list Ascii.ascii)) :=
  let filename := basename filename in
  match match_items elements filename with
  | Some filename_dict => Ok filename_dict
  | None => Raise ValueError
  end.

(* ================================================================= *)
(** ** Cosmic rays ([jwql.instrument_monitors.miri_monitors.cosmic_ray_monitor]) *)

(** The data-quality array [dq]: an integer array of three or of four
    dimensions, as nested lists. *)
Inductive dqarray : Type :=
| Dq3 (a : list (list (list Z)))
| Dq4 (a : list (list (list (list Z)))).

(** [np.where(mask)] on an array of several dimensions lists the
    entries that pass the test in row-major order.  [where_nested]
    adds one dimension: the coordinates found in each element of [a],
    each after the index of the element. *)
Definition where_nested {A : Type} (inner : A -> list (list Z)) (a : list A)
  : list (list Z) :=
  concat (map (fun ai => map (cons (snd ai)) (inner (fst ai)))
              (combine a (range (length a)))).

Definition where1 (p : Z -> bool) (a : list Z) : list (list Z) :=
  map (fun i => [i]) (np_where p a).
Definition where2 (p : Z -> bool) : list (list Z) -> list (list Z) :=
  where_nested (where1 p).
Definition where3 (p : Z -> bool) : list (list (list Z)) -> list (list Z) :=
  where_nested (where2 p).
Definition where4 (p : Z -> bool) : list (list (list (list Z))) -> list (list Z) :=
  where_nested (where3 p).

(** The index array of one dimension. *)
Definition column (k : nat) (coords : list (list Z)) : list Z :=
  map (fun c => nth k c 0) coords.

(** [np.where(dq == 4)]: a tuple of one index array per dimension. *)
Definition np_where_flagged (dq : dqarray) : list (list Z) :=
  match dq with
  | Dq3 a =>
      let c := where3 (fun v => v =? 4) a in [column 0 c; column 1 c; column 2 c]
  | Dq4 a =>
      let c := where4 (fun v => v =? 4) a in
      [column 0 c; column 1 c; column 2 c; column 3 c]
  end.

(** [CosmicRay.get_jump_locations], with [self.nints] as an
    argument. *)
Definition get_jump_locations (nints : Z) (dq : dqarray) : result (list (list Z)) :=
  let flag_locations := np_where_flagged dq in
  first <- py_index flag_locations 0 ;;
  if 1 <? nints then
    mapM (fun i =>
            c0 <- (col <- py_index flag_locations 0 ;; py_index col i) ;;
            c1 <- (col <- py_index flag_locations 1 ;; py_index col i) ;;
            c2 <- (col <- py_index flag_locations 2 ;; py_index col i) ;;
            c3 <- (col <- py_index flag_locations 3 ;; py_index col i) ;;
            Ok [c0; c1; c2; c3])
         (range (length first))
  else
    mapM (fun i =>
            c0 <- (col <- py_index flag_locations 0 ;; py_index col i) ;;
            c1 <- (col <- py_index flag_locations 1 ;; py_index col i) ;;
            c2 <- (col <- py_index flag_locations 2 ;; py_index col i) ;;
            Ok [c0; c1; c2])
         (range (length first)).

(** [CosmicRay.group_before] *)
Definition group_before (nints : Z) (jump_locations : list (list Z))
  : result (list (list Z)) :=
  if 1 <? nints then
    mapM (fun coord =>
            c0 <- py_index coord 0 ;;
            c1 <- py_index coord 1 ;;
            c2 <- py_index coord 2 ;;
            c3 <- py_index coord 3 ;;
            Ok [c0; c1 - 1; c2; c3])
         jump_locations
  else
    mapM (fun coord =>
            c0 <- py_index coord 0 ;;
            c1 <- py_index coord 1 ;;
            c2 <- py_index coord 2 ;;
            Ok [c0 - 1; c1; c2])
         jump_locations.

Section Magnitudes.

(** The pixel values, with their subtraction and multiplication. *)
Variable V : Type.
Variables sub mul : V -> V -> V.

(** [a[i][j]], [a[i][j][k]] and [a[i][j][k][l]] *)
Definition at2 {A : Type} (a : list (list A)) (i j : Z) : result A :=
  row <- py_index a i ;; py_index row j.
Definition at3 {A : Type} (a : list (list (list A))) (i j k : Z) : result A :=
  plane <- py_index a i ;; at2 plane j k.
Definition at4 {A : Type} (a : list (list (list (list A)))) (i j k l : Z) : result A :=
  cube <- py_index a i ;; at3 cube j k l.

(** The rate array: of two dimensions for one integration, of three
    for several. *)
Inductive ratearray : Type :=
| Rate2 (r : list (list V))
| Rate3 (r : list (list (list V))).

(** What an index expression gives: a number, or an array ([None])
    when it names fewer indices than the array has dimensions.
    Arithmetic on an array gives an array. *)
Definition lift2 (f : V -> V -> V) (a b : option V) : option V :=
  match a, b with
  | Some x, Some y => Some (f x y)
  | _, _ => None
  end.

(** [data[coord]] for a tuple of indices into the four-dimensional
    [data]. *)
Definition data_at (data : list (list (list (list V)))) (coord : list Z)
  : result (option V) :=
  match coord with
  | [] => Ok None
  | [a] => x <- py_index data a ;; Ok None
  | [a; b] => x <- py_index data a ;; y <- py_index x b ;; Ok None
  | [a; b; c] => x <- at3 data a b c ;; Ok None
  | [a; b; c; d] => v <- at4 data a b c d ;; Ok (Some v)
  | _ => Raise IndexError
  end.

(** [CosmicRay.magnitude]; [header] is the value of [header["TGROUP"]]
    when the header has one. *)
Definition magnitude (nints : Z) (coord coord_gb : list Z) (rateints : ratearray)
  (data : list (list (list (list V)))) (header : option V) : result (option V) :=
  group_time <- match header with Some t => Ok t | None => Raise KeyError end ;;
  if nints =? 1 then
    i2 <- py_index coord (-2) ;;
    i1 <- py_index coord (-1) ;;
    rate <- match rateints with
            | Rate2 r => v <- at2 r i2 i1 ;; Ok (Some v)
            | Rate3 r => x <- at2 r i2 i1 ;; Ok None
            end ;;
    c0 <- py_index coord 0 ;;
    c1 <- py_index coord 1 ;;
    c2 <- py_index coord 2 ;;
    v <- at4 data 0 c0 c1 c2 ;;
    g0 <- py_index coord_gb 0 ;;
    g1 <- py_index coord_gb 1 ;;
    g2 <- py_index coord_gb 2 ;;
    w <- at4 data 0 g0 g1 g2 ;;
    Ok (lift2 sub (Some (sub v w)) (lift2 mul rate (Some group_time)))
  else
    c0 <- py_index coord 0 ;;
    i2 <- py_index coord (-2) ;;
    i1 <- py_index coord (-1) ;;
    rate <- match rateints with
            | Rate3 r => at3 r c0 i2 i1
            | Rate2 r => x <- at2 r c0 i2 ;; Raise IndexError
            end ;;
    v <- data_at data coord ;;
    w <- data_at data coord_gb ;;
    Ok (lift2 sub (lift2 sub v w) (Some (mul rate group_time))).

(** [CosmicRay.get_cr_mags] *)
Definition get_cr_mags (nints : Z) (jump_locations jump_locations_pre : list (list Z))
  (rateints : ratearray) (jump_data : list (list (list (list V))))
  (jump_head : option V) : result (list (option V)) :=
  mapM (fun p => magnitude nints (fst p) (snd p) rateints jump_data jump_head)
       (combine jump_locations jump_locations_pre).

(** The analysis of one exposure in [CosmicRay.process]: the jumps,
    the coordinates one group before, and the magnitudes. *)
Definition process_magnitudes (nints : Z) (jump_dq : dqarray) (rate_data : ratearray)
  (jump_data : list (list (list (list V)))) (jump_head : option V)
  : result (list (option V)) :=
  jump_locations <- get_jump_locations nints jump_dq ;;
  jump_locations_pre <- group_before nints jump_locations ;;
  get_cr_mags nints jump_locations jump_locations_pre rate_data jump_data jump_head.

End Magnitudes.

Arguments Rate2 {V} r.
Arguments Rate3 {V} r.
Arguments magnitude {V} sub mul nints coord coord_gb rateints data header.
Arguments get_cr_mags {V} sub mul nints jump_locations jump_locations_pre rateints
  jump_data jump_head.
Arguments process_magnitudes {V} sub mul nints jump_dq rate_data jump_data jump_head.
Arguments data_at {V} data coord.

(* ================================================================= *)
(** ** Further definitions the properties are stated with *)

(** The change-only resampling of rows onto targets: each target that
    has a sample at or before it, with the value of the last such
    sample. *)
Definition held_samples (rows : list (datetime * euvalue)) (times : list datetime)
  : list (datetime * euvalue) :=
  concat (map (fun t =>
                 match last_opt (filter (fun r => fst r <=? t) rows) with
                 | Some r => [(t, snd r)]
                 | None => []
                 end) times).

(** A column numpy keeps as it is given: all numbers or all strings. *)
Definition homogeneous (values : list euvalue) : bool :=
  forallb is_number values || forallb (fun v => negb (is_number v)) values.

(** The latest timestamp of non-empty rows. *)
Definition latest (rows : list (datetime * euvalue)) : datetime :=
  match map fst rows with
  | [] => 0
  | t :: l => fold_left Z.max l t
  end.

(** A service that answers every query with one encoding flag and
    one list of samples, and has no description. *)
Definition constant_service (ap : Z) (rows : list (datetime * euvalue)) : Service :=
  {| get_meta := fun _ => Some ap;
     get_values := fun _ _ _ _ => rows;
     get_mnemonic_info := fun _ => None |}.

(** The sum of two series when [__add__] returns one. *)
Definition sum_of (a b : EdbMnemonic) : EdbMnemonic :=
  match __add__ a b with
  | Ok r => r
  | Raise _ => a
  end.

(** The windows of the daily statistics over data from [lo] to [hi]:
    whole days counted from [lo], the last one cut at [hi].  A window
    holds the samples from its first bound on and before its second. *)
Definition daily_windows (lo hi : datetime) : list (datetime * datetime) :=
  let n := (hi - lo) / day + 1 in
  map (fun i => (lo + i * day, if i + 1 <? n then lo + (i + 1) * day else hi))
      (range (Z.to_nat n)).

Definition in_window (w : datetime * datetime) (r : datetime * euvalue) : bool :=
  (fst w <=? fst r) && (fst r <? snd w).

(** The bins of the fixed-duration statistics, for a duration in
    float seconds.  Their number is the span of the data in seconds
    over the duration, a float quotient, rounded up.  Bin [i] begins at
    the timestamp of the first row plus [i] durations, the product
    being a float that is converted to microseconds, and ends one
    duration, converted likewise, later. *)
Definition bin_count (rows : list (datetime * euvalue)) (duration_secs : float) : result Z :=
  int_of_float (np_ceil (fdiv (total_seconds (latest rows - earliest rows)) duration_secs)).

Definition timed_bin (d0 : datetime) (duration_secs : float) (i : Z)
  : result (datetime * datetime) :=
  offset <- timedelta_of_seconds (fmul (float_of_int i) duration_secs) ;;
  min_date <- datetime_add d0 offset ;;
  width <- timedelta_of_seconds duration_secs ;;
  max_date <- datetime_add min_date width ;;
  Ok (min_date, max_date).

Definition timed_bins (rows : list (datetime * euvalue)) (duration_secs : float)
  : result (list (datetime * datetime)) :=
  match rows with
  | [] => Ok []
  | r0 :: _ =>
      n <- bin_count rows duration_secs ;;
      mapM (timed_bin (fst r0) duration_secs) (range (Z.to_nat n))
  end.

(** Four samples 0.7 seconds apart and a duration of 0.7 seconds: the
    span of 2.1 seconds makes four bins, the float quotient being just
    above 3. *)
Definition tenths_example : list (datetime * euvalue) :=
  [(0, num 1); (700000, num 2); (1400000, num 3); (2100000, num 4)].

Definition seven_tenths : float := int_truediv 7 10.

(** The order of the entries of an array: coordinates compare
    index by index, the first index counting most. *)
Fixpoint coord_lt (c d : list Z) : Prop :=
  match c, d with
  | i :: c', j :: d' => i < j \/ (i = j /\ coord_lt c' d')
  | _, _ => False
  end.

(** The parts of a JWST file name, the name they spell, and the
    dictionary that holds them. *)
Record name_parts : Type := {
  instrument_prefix : list Ascii.ascii;
  program_id : list Ascii.ascii;
  observation : list Ascii.ascii;
  visit : list Ascii.ascii;
  visit_group : list Ascii.ascii;
  parallel_seq_id : list Ascii.ascii;
  activity : list Ascii.ascii;
  exposure_id : list Ascii.ascii;
  detector : list Ascii.ascii;
  suffix : list Ascii.ascii
}.

Definition spelled (n : name_parts) : list Ascii.ascii :=
  instrument_prefix n ++ program_id n ++ observation n ++ visit n ++ chars "_" ++
  visit_group n ++ parallel_seq_id n ++ activity n ++ chars "_" ++
  exposure_id n ++ chars "_" ++ detector n ++ chars "_" ++ suffix n.

Definition groupdict (n : name_parts) : list (string * list Ascii.ascii) :=
  [ ("program_id"%string, program_id n);
    ("observation"%string, observation n);
    ("visit"%string, visit n);
    ("visit_group"%string, visit_group n);
    ("parallel_seq_id"%string, parallel_seq_id n);
    ("activity"%string, activity n);
    ("exposure_id"%string, exposure_id n);
    ("detector"%string, detector n);
    ("suffix"%string, suffix n) ].

(** The shape the pattern asks of each part. *)
Definition digits (k : nat) (x : list Ascii.ascii) : bool :=
  Nat.eqb (length x) k && forallb digit x.

Definition some (cls : Ascii.ascii -> bool) (x : list Ascii.ascii) : bool :=
  Nat.leb 1 (length x) && forallb cls x.

Definition conforms (n : name_parts) : bool :=
  some lower (instrument_prefix n) &&
  digits 5 (program_id n) && digits 3 (observation n) && digits 3 (visit n) &&
  digits 2 (visit_group n) && digits 1 (parallel_seq_id n) && digits 2 (activity n) &&
  some digit (exposure_id n) && some word (detector n) && some word (suffix n).

(** What follows a name does not go on with a word character. *)
Definition ends_word (tail : list Ascii.ascii) : bool :=
  match tail with
  | [] => true
  | c :: _ => negb (word c) && isascii c
  end.

(** A run of [cls] stops before [s]. *)
Definition stops (cls : Ascii.ascii -> bool) (s : list Ascii.ascii) : bool :=
  match s with
  | [] => true
  | c :: _ => negb (cls c)
  end.

(** The groups of a match, by the name of the piece. *)
Definition add_group (name : option string) (x : list Ascii.ascii)
  (groups : list (string * list Ascii.ascii)) : list (string * list Ascii.ascii) :=
  match name with
  | Some n => (n, x) :: groups
  | None => groups
  end.

(** What a match of the pieces says of the text: each piece spells a
    part of it, in turn, within its class and its bounds. *)
Fixpoint parsed (items : list item) (s : list Ascii.ascii)
  (groups : list (string * list Ascii.ascii)) : Prop :=
  match items with
  | [] => groups = []
  | Text t :: rest => exists s', s = chars t ++ s' /\ parsed rest s' groups
  | Rep cls lo hi name :: rest =>
      exists x s' groups',
        s = x ++ s' /\ forallb cls x = true /\ (lo <= length x)%nat /\
        match hi with Some h => (length x <= h)%nat | None => True end /\
        parsed rest s' groups' /\ groups = add_group name x groups'
  end.

(** The parts of [jw00327001001_02101_00001_nrca1_rate]. *)
Definition example_name : name_parts :=
  {| instrument_prefix := chars "jw";
     program_id := chars "00327"; observation := chars "001"; visit := chars "001";
     visit_group := chars "02"; parallel_seq_id := chars "1"; activity := chars "01";
     exposure_id := chars "00001";
     detector := chars "nrca1"; suffix := chars "rate" |}.

(** The entry of a four-dimensional array at non-negative indices. *)
Definition entry {A : Type} (l : list A) (i : Z) : option A :=
  if i <? 0 then None else nth_error l (Z.to_nat i).

Definition entry4 (a : list (list (list (list Z)))) (i g y x : Z) : option Z :=
  match entry a i with
  | Some b =>
      match entry b g with
      | Some c =>
          match entry c y with
          | Some d => entry d x
          | None => None
          end
      | None => None
      end
  | None => None
  end.

(** The number of entries of a four-dimensional array that are
    exactly the jump flag. *)
Definition count1 (d : list Z) : nat := length (filter (fun v => v =? 4) d).
Definition count2 (c : list (list Z)) : nat := list_sum (map count1 c).
Definition count3 (b : list (list (list Z))) : nat := list_sum (map count2 b).
Definition count4 (a : list (list (list (list Z)))) : nat := list_sum (map count3 a).

(** Arrays of a given shape. *)
Definition has_shape2 {A : Type} (c : list (list A)) (n3 n4 : nat) : Prop :=
  length c = n3 /\ Forall (fun d => length d = n4) c.
Definition has_shape3 {A : Type} (b : list (list (list A))) (n2 n3 n4 : nat) : Prop :=
  length b = n2 /\ Forall (fun c => has_shape2 c n3 n4) b.
Definition has_shape4 {A : Type} (a : list (list (list (list A)))) (n1 n2 n3 n4 : nat)
  : Prop :=
  length a = n1 /\ Forall (fun b => has_shape3 b n2 n3 n4) a.

(* ================================================================= *)
(** * Properties *)

(** ** Sequences *)

Lemma bind_ok {A B : Type} (m : result A) (k : A -> result B) (b : B) :
  bind m k = Ok b -> exists a, m = Ok a /\ k a = Ok b.
Proof. destruct m as [a|e]; simpl; intros H; [eauto | discriminate]. Qed.

Lemma bind_ret {A B : Type} (a : A) (k : A -> result B) : bind (Ok a) k = k a.
Proof. reflexivity. Qed.

Lemma py_index_app_here {A : Type} (pre l : list A) (a : A) :
  py_index (pre ++ a :: l) (Z.of_nat (length pre)) = Ok a.
Proof.
  unfold py_index.
  assert (Hn : Z.of_nat (length (pre ++ a :: l)) = Z.of_nat (length pre) + 1 + Z.of_nat (length l)).
  { rewrite length_app; simpl; lia. }
  rewrite Hn.
  destruct (Z.of_nat (length pre) <? 0) eqn:E; [apply Z.ltb_lt in E; lia|].
  replace ((0 <=? Z.of_nat (length pre)) &&
           (Z.of_nat (length pre) <? Z.of_nat (length pre) + 1 + Z.of_nat (length l)))
    with true by (symmetry; apply andb_true_iff; split;
                  [apply Z.leb_le | apply Z.ltb_lt]; lia).
  rewrite Nat2Z.id, nth_error_app2 by lia.
  now rewrite Nat.sub_diag.
Qed.

Lemma py_index_nth_error {A : Type} (l : list A) (i : nat) (a : A) :
  nth_error l i = Some a -> py_index l (Z.of_nat i) = Ok a.
Proof.
  intros H. unfold py_index.
  assert (Hi : (i < length l)%nat) by (apply nth_error_Some; congruence).
  destruct (Z.of_nat i <? 0) eqn:E; [apply Z.ltb_lt in E; lia|].
  replace ((0 <=? Z.of_nat i) && (Z.of_nat i <? Z.of_nat (length l))) with true
    by (symmetry; apply andb_true_iff; split; [apply Z.leb_le | apply Z.ltb_lt]; lia).
  now rewrite Nat2Z.id, H.
Qed.

Lemma py_index_empty {A : Type} (i : Z) : py_index (@nil A) i = Raise IndexError.
Proof.
  unfold py_index; simpl.
  destruct (i <? 0) eqn:E.
  - rewrite Z.add_0_r. apply Z.ltb_lt in E.
    replace (0 <=? i) with false by (symmetry; apply Z.leb_gt; lia). reflexivity.
  - apply Z.ltb_ge in E.
    replace (i <? 0) with false by (symmetry; apply Z.ltb_ge; lia).
    now rewrite andb_false_r.
Qed.

Lemma mapM_ext_ok {A B : Type} (f : A -> result B) (g : A -> B) (l : list A) :
  (forall a, In a l -> f a = Ok (g a)) -> mapM f l = Ok (map g l).
Proof.
  induction l as [|a l IH]; simpl; intros H; [reflexivity|].
  rewrite (H a) by now left. simpl.
  rewrite IH by (intros; apply H; now right). reflexivity.
Qed.

Lemma mapM_length {A B : Type} (f : A -> result B) (l : list A) (r : list B) :
  mapM f l = Ok r -> length r = length l.
Proof.
  revert r; induction l as [|a l IH]; simpl; intros r H.
  - now inversion H.
  - apply bind_ok in H as (b & _ & H). apply bind_ok in H as (bs & Hbs & H).
    inversion H; subst; simpl. now rewrite (IH bs).
Qed.

Lemma mapM_last {A B : Type} (f : A -> result B) (l : list A) (r : list B) (d : B) :
  mapM f l = Ok r ->
  match last_opt l with Some i => f i | None => Ok d end
  = Ok (match last_opt r with Some x => x | None => d end).
Proof.
  revert r; induction l as [|a l IH]; intros r H.
  - simpl in H. now inversion H.
  - simpl in H. apply bind_ok in H as (b & Hb & H). apply bind_ok in H as (bs & Hbs & H).
    inversion H; subst; clear H.
    specialize (IH bs Hbs).
    destruct l as [|a' l].
    + simpl in Hbs. inversion Hbs; subst. simpl. exact Hb.
    + assert (Hlen := mapM_length _ _ _ Hbs).
      destruct bs as [|b' bs]; [discriminate|].
      exact IH.
Qed.

Lemma last_opt_map {A B : Type} (g : A -> B) (l : list A) :
  last_opt (map g l) = option_map g (last_opt l).
Proof.
  induction l as [|a [|a' l] IH]; try reflexivity.
  exact IH.
Qed.

Lemma last_value_map {A B : Type} (g : A -> B) (l : list A) (d : B) :
  match last_opt (map g l) with Some x => x | None => d end
  = match last_opt l with Some s => g s | None => d end.
Proof. rewrite last_opt_map. now destruct (last_opt l). Qed.

(** Indexing a column with the indices [np.where] found on the dates
    selects the rows whose date passes the test. *)
Lemma take_where {A : Type} (p : Z -> bool) (d : list Z) :
  forall (v pre : list A),
    length d = length v ->
    mapM (py_index (pre ++ v)) (where_from p (Z.of_nat (length pre)) d)
    = Ok (map snd (filter (fun s => p (fst s)) (combine d v))).
Proof.
  induction d as [|x d IH]; intros v pre Hlen.
  - reflexivity.
  - destruct v as [|y v]; [discriminate|].
    simpl in Hlen. injection Hlen as Hlen.
    assert (Hnext : Z.of_nat (length pre) + 1 = Z.of_nat (length (pre ++ [y])))
      by (rewrite length_app; simpl; lia).
    assert (Happ : pre ++ y :: v = (pre ++ [y]) ++ v) by now rewrite <- app_assoc.
    simpl. destruct (p x).
    + simpl. rewrite py_index_app_here. simpl.
      rewrite Hnext, Happ, IH by assumption. reflexivity.
    + rewrite Hnext, Happ, IH by assumption. reflexivity.
Qed.

Lemma filter_combine_self (p : Z -> bool) (d : list Z) :
  map snd (filter (fun s => p (fst s)) (combine d d)) = filter p d.
Proof.
  induction d as [|x d IH]; simpl; [reflexivity|].
  destruct (p x); simpl; now rewrite IH.
Qed.

Lemma filter_combine_fst {A : Type} (p : Z -> bool) (d : list Z) (v : list A) :
  length d = length v ->
  map fst (filter (fun s => p (fst s)) (combine d v)) = filter p d.
Proof.
  revert v; induction d as [|x d IH]; intros [|y v] H; try discriminate; simpl;
    [reflexivity|].
  injection H as H. destruct (p x); simpl; now rewrite IH.
Qed.

(* ================================================================= *)
(** ** Bounding-point reconstruction *)

(** C7. For change-only samples and a window, the reconstruction
    returns the samples clipped to the window, preceded by a sample at
    exactly the start that carries the value of the last input sample
    strictly before the start (NaN when there is none) and followed by
    a sample at exactly the end that carries the value of the last
    input sample strictly before the end (NaN when there is none). *)
Theorem bounding_points_reconstruction
  (date_list : list datetime) (value_list : list euvalue) (starttime endtime : datetime) :
  length date_list = length value_list ->
  let samples := combine date_list value_list in
  let clipped := clip_to_window samples starttime endtime in
  change_only_bounding_points date_list value_list starttime endtime
  = Ok (starttime :: map fst clipped ++ [endtime],
        held_before samples starttime :: map snd clipped ++
        [held_before samples endtime]).
Proof.
  intros Hlen samples clipped.
  unfold change_only_bounding_points, np_where, take.
  pose proof (take_where (fun t => t <? starttime) date_list value_list [] Hlen) as Hs.
  pose proof (take_where (fun t => t <? endtime) date_list value_list [] Hlen) as He.
  pose proof (take_where (fun t => (t <=? endtime) && (starttime <=? t))
                date_list value_list [] Hlen) as Hv.
  pose proof (take_where (fun t => (t <=? endtime) && (starttime <=? t))
                date_list date_list [] eq_refl) as Hd.
  simpl in Hs, He, Hv, Hd.
  rewrite (mapM_last _ _ _ (Num nan) Hs), (mapM_last _ _ _ (Num nan) He).
  simpl. rewrite Hd, Hv. simpl.
  rewrite (filter_combine_self (fun t => (t <=? endtime) && (starttime <=? t))).
  rewrite !last_value_map.
  unfold clipped, clip_to_window, held_before, samples.
  rewrite (filter_combine_fst (fun t => (t <=? endtime) && (starttime <=? t)))
    by assumption.
  reflexivity.
Qed.

(** The example of the specification: samples (5, 1) and (15, 2) over
    the window from 0 to 20. *)
Lemma bounding_points_reconstruction_example :
  change_only_bounding_points [5; 15] [Num (float_of_int 1); Num (float_of_int 2)] 0 20
  = Ok ([0; 5; 15; 20],
        [Num nan; Num (float_of_int 1); Num (float_of_int 2); Num (float_of_int 2)]).
Proof.
  exact (bounding_points_reconstruction
           [5; 15] [Num (float_of_int 1); Num (float_of_int 2)] 0 20 eq_refl).
Defined.

(* ================================================================= *)
(** ** Change-only expansion *)

Lemma py_index_in_range {A : Type} (l : list A) (i : Z) :
  - Z.of_nat (length l) <= i < Z.of_nat (length l) -> exists a, py_index l i = Ok a.
Proof.
  intros Hi. unfold py_index.
  set (j := if i <? 0 then i + Z.of_nat (length l) else i).
  assert (Hj : 0 <= j < Z.of_nat (length l)).
  { unfold j. destruct (i <? 0) eqn:E; [apply Z.ltb_lt in E | apply Z.ltb_ge in E]; lia. }
  replace ((0 <=? j) && (j <? Z.of_nat (length l))) with true
    by (symmetry; apply andb_true_iff; split; [apply Z.leb_le | apply Z.ltb_lt]; lia).
  destruct (nth_error l (Z.to_nat j)) as [a|] eqn:E; [eauto|].
  apply nth_error_None in E. lia.
Qed.

Lemma py_index_snoc {A : Type} (pre : list A) (x : A) :
  py_index (pre ++ [x]) (-1) = Ok x.
Proof.
  unfold py_index; cbv zeta. rewrite length_app.
  change (length [x]) with 1%nat.
  replace (-1 <? 0) with true by reflexivity.
  replace (-1 + Z.of_nat (length pre + 1)) with (Z.of_nat (length pre)) by lia.
  replace ((0 <=? Z.of_nat (length pre)) &&
           (Z.of_nat (length pre) <? Z.of_nat (length pre + 1))) with true
    by (symmetry; apply andb_true_iff; split; [apply Z.leb_le | apply Z.ltb_lt]; lia).
  rewrite Nat2Z.id, nth_error_app2 by lia.
  now rewrite Nat.sub_diag.
Qed.

Lemma py_index_last {A : Type} (l : list A) (a d : A) :
  py_index (a :: l) (-1) = Ok (last (a :: l) d).
Proof.
  rewrite (app_removelast_last d (l := a :: l)) at 1 by discriminate.
  apply py_index_snoc.
Qed.

Lemma py_slice_tail {A : Type} (a : A) (l : list A) :
  py_slice (a :: l) (Some 1) None = l.
Proof.
  unfold py_slice, slice_bound. simpl length.
  replace (1 <? 0) with false by reflexivity.
  rewrite Z.min_r, Z.max_r by lia.
  replace (Z.to_nat 1) with 1%nat by reflexivity. simpl skipn.
  replace (Z.to_nat (Z.of_nat (S (length l)) - 1)) with (length l) by lia.
  apply firstn_all.
Qed.

Lemma last_map_apply {A B : Type} (g : A -> B) (l : list A) (d : A) :
  last (map g l) (g d) = g (last l d).
Proof.
  induction l as [|a [|a' l] IH]; try reflexivity.
  exact IH.
Qed.

Lemma combine_fst_snd {A B : Type} (l : list (A * B)) :
  combine (map fst l) (map snd l) = l.
Proof. induction l as [|[a b] l IH]; simpl; congruence. Qed.

Lemma in_range (n : nat) (i : Z) : In i (range n) <-> 0 <= i < Z.of_nat n.
Proof.
  unfold range. rewrite in_map_iff. split.
  - intros (k & <- & Hk). apply in_seq in Hk. lia.
  - intros Hi. exists (Z.to_nat i). split; [lia | apply in_seq; lia].
Qed.

Lemma held_value_expansion_length (prev : datetime * euvalue) (rest : list (datetime * euvalue)) :
  length (held_value_expansion prev rest) = (2 * length rest)%nat.
Proof.
  revert prev; induction rest as [|cur rest IH]; intros prev; simpl; [reflexivity|].
  rewrite IH. lia.
Qed.

(** C1 (the code departs from it). On a series of two samples or more
    [change_only_add_points] returns as many rows as it was given, not
    the 2n-1 of the held-value expansion: the original samples after
    the first are not kept, and the row after the first stands one
    microsecond before the FIRST sample with the value of the LAST
    one, where the expansion has the second sample's time minus one
    microsecond with the first sample's value. *)
Theorem change_only_add_points_loses_samples
  (self : EdbMnemonic) (r0 r1 : datetime * euvalue) (rest : list (datetime * euvalue)) :
  let s := with_data self (Rows (r0 :: r1 :: rest)) in
  exists rows,
    change_only_add_points s = Ok (with_data self (Rows rows)) /\
    length rows = length (r0 :: r1 :: rest) /\
    nth_error rows 0 = Some r0 /\
    nth_error rows 1 = Some (fst r0 - microsecond, snd (last (r1 :: rest) r1)) /\
    nth_error (r0 :: held_value_expansion r0 (r1 :: rest)) 1
      = Some (fst r1 - microsecond, snd r0) /\
    length (r0 :: held_value_expansion r0 (r1 :: rest))
      = (2 * length (r0 :: r1 :: rest) - 1)%nat.
Proof.
  intros s.
  set (all := r0 :: r1 :: rest).
  set (d := map fst all). set (v := map snd all).
  set (g := fun i : Z =>
              (match py_index d i with Ok x => x | Raise _ => 0 end - microsecond,
               match py_index v (i - 1) with Ok x => x | Raise _ => snd r0 end)).
  exists (r0 :: map g (range (length (r1 :: rest)))).
  assert (Hd : length d = S (length (r1 :: rest)))
    by (unfold d, all; now rewrite length_map).
  assert (Hv : length v = S (length (r1 :: rest)))
    by (unfold v, all; now rewrite length_map).
  assert (Hadd : mapM (fun i =>
                   di <- py_index d i ;;
                   vi <- py_index v (i - 1) ;;
                   Ok (di - microsecond, vi)) (range (length (r1 :: rest)))
                 = Ok (map g (range (length (r1 :: rest))))).
  { apply mapM_ext_ok. intros i Hi. apply in_range in Hi.
    destruct (py_index_in_range d i) as [x Hx]; [lia|].
    destruct (py_index_in_range v (i - 1)) as [y Hy]; [lia|].
    unfold g. rewrite Hx, Hy. reflexivity. }
  assert (Hadd0 : range (table_len (table_slice_from (data s) 1))
                  = range (length (r1 :: rest))).
  { change (data s) with (Rows all). unfold table_slice_from, all.
    now rewrite py_slice_tail. }
  split; [|split; [|split; [|split; [|split]]]].
  - unfold change_only_add_points.
    rewrite Hadd0.
    change (data s) with (Rows all).
    change (col_dates (Rows all)) with (Ok (A := list datetime) d).
    change (col_euvalues (Rows all)) with (Ok (A := list euvalue) v).
    cbv beta iota delta [bind].
    change (py_index d 0) with (Ok (A := datetime) (fst r0)).
    change (py_index v 0) with (Ok (A := euvalue) (snd r0)).
    cbv beta iota delta [bind] in Hadd. rewrite Hadd.
    unfold set_dates, set_euvalues. simpl length.
    rewrite !length_map, Nat.eqb_refl.
    change (fst r0 :: map fst (map g (range (S (length rest)))))
      with (map fst (r0 :: map g (range (S (length rest))))).
    change (snd r0 :: map snd (map g (range (S (length rest)))))
      with (map snd (r0 :: map g (range (S (length rest))))).
    rewrite combine_fst_snd. reflexivity.
  - simpl. unfold range. now rewrite !length_map, length_seq.
  - reflexivity.
  - change (nth_error (r0 :: map g (range (length (r1 :: rest)))) 1) with (Some (g 0)).
    unfold g.
    change (py_index d 0) with (Ok (A := datetime) (fst r0)).
    change (0 - 1) with (-1).
    unfold v, all.
    change (map snd (r0 :: r1 :: rest)) with (snd r0 :: map snd (r1 :: rest)).
    rewrite (py_index_last _ _ (snd r1)).
    change (last (snd r0 :: map snd (r1 :: rest)) (snd r1))
      with (last (map snd (r1 :: rest)) (snd r1)).
    now rewrite last_map_apply.
  - reflexivity.
  - simpl. rewrite held_value_expansion_length. lia.
Qed.

(* ================================================================= *)
(** ** A series without samples *)

Lemma concat_map_nil {A B : Type} (l : list A) :
  concat (map (fun _ : A => @nil B) l) = [].
Proof. induction l; simpl; auto. Qed.

Lemma interpolate_change_only_empty (times : list datetime) :
  interpolate_change_only (Rows []) times = Ok NoColumns.
Proof.
  unfold interpolate_change_only.
  rewrite (mapM_ext_ok _ (fun _ => [])) by reflexivity.
  cbv beta iota delta [bind]. now rewrite concat_map_nil.
Qed.

Section EmptySeries.

Context {ext : External}.

(** C8 (the code departs from it). On a series with zero samples each
    of the four statistics methods and the interpolation raises: the
    full-range and per-block statistics index the first element of an
    empty column, the daily and fixed-duration statistics take the
    minimum or maximum of an empty array, the all-points interpolation
    reaches [np.array[()]] and the change-only interpolation reads the
    ["dates"] column of a table that was given none. *)
Theorem empty_series_operations_raise
  (ident : string) (start_time end_time : option datetime) (ap : Z)
  (inf : option Info) (b : Blocks) (sigma : Z) (duration : float)
  (times : list datetime) :
  let e := empty_series ident start_time end_time (Some ap) inf b in
  __init__ ident start_time end_time (Rows []) (Some ap) inf b = Ok e /\
  full_stats e sigma = Raise IndexError /\
  block_stats e sigma = Raise IndexError /\
  daily_stats e sigma = Raise ValueError /\
  timed_stats e duration sigma = Raise ValueError /\
  interpolate e times = Raise (if ap =? 0 then KeyError else TypeError).
Proof.
  intros e. repeat split; try reflexivity.
  - unfold full_stats. simpl.
    destruct (ap =? 0); simpl.
    + reflexivity.
    + now destruct (sigma_clipped_stats [] sigma) as [[m md] sd].
  - unfold interpolate. simpl.
    destruct (ap =? 0).
    + rewrite interpolate_change_only_empty. simpl.
      now destruct (blocks_but_last b).
    + reflexivity.
Qed.

End EmptySeries.

(* ================================================================= *)
(** ** Addition with an empty operand *)

(** C9, as stated, fails when both operands are empty: the sum is the
    right operand, whose blocks need not be those of the left one. *)
Lemma add_empty_left_operand_empty :
  __add__ (series 1 [] (Indices [0])) (series 1 [] Sentinel) = Ok (series 1 [] Sentinel) /\
  blocks (series 1 [] (Indices [0])) = Indices [0] /\
  blocks (series 1 [] Sentinel) = Sentinel.
Proof. repeat split. Qed.

Section AddIdentity.

Context {ext : External}.

(** C9, amended. For a series [x] and a series [e] of zero samples
    with the identifier of [x]: the sum of [e] and [x] is [x] itself;
    the sum of [x] and [e] is [x] itself when [x] has a sample, and is
    [e] when [x] has none.  The samples of the sum are those of [x] in
    every case, and the blocks are those of [x] unless both operands
    are empty. *)
Theorem add_empty_identity (x e : EdbMnemonic) (ds : list datetime) :
  mnemonic_identifier x = mnemonic_identifier e ->
  col_dates (data e) = Ok [] ->
  col_dates (data x) = Ok ds ->
  __add__ e x = Ok x /\
  __add__ x e = Ok (match ds with [] => e | _ :: _ => x end) /\
  (forall r, __add__ x e = Ok r -> col_dates (data r) = Ok ds).
Proof.
  intros Hid He Hx.
  assert (Hxe : __add__ x e = Ok (match ds with [] => e | _ :: _ => x end)).
  { unfold __add__. rewrite Hid, String.eqb_refl. simpl negb. cbv iota.
    rewrite Hx. simpl bind.
    destruct ds as [|t ds]; [reflexivity|].
    simpl Nat.eqb. cbv iota. rewrite He. reflexivity. }
  split; [|split].
  - unfold __add__. rewrite Hid, String.eqb_refl. simpl negb. cbv iota.
    rewrite He. reflexivity.
  - exact Hxe.
  - intros r Hr. rewrite Hxe in Hr. injection Hr as <-.
    destruct ds; assumption.
Qed.

End AddIdentity.

Lemma add_empty_identity_example :
  __add__ (series 1 [] Sentinel) (series 1 [(1, num 7)] (Indices [0; 1]))
    = Ok (series 1 [(1, num 7)] (Indices [0; 1])) /\
  __add__ (series 1 [(1, num 7)] (Indices [0; 1])) (series 1 [] Sentinel)
    = Ok (series 1 [(1, num 7)] (Indices [0; 1])) /\
  (forall r, __add__ (series 1 [(1, num 7)] (Indices [0; 1])) (series 1 [] Sentinel) = Ok r ->
             col_dates (data r) = Ok [1]).
Proof.
  exact (add_empty_identity (series 1 [(1, num 7)] (Indices [0; 1])) (series 1 [] Sentinel)
           [1] eq_refl eq_refl eq_refl).
Defined.

(* ================================================================= *)
(** ** [np.unique] *)

Lemma insert_stable_In (x p : Z * Z) (l : list (Z * Z)) :
  In p (insert_stable x l) <-> p = x \/ In p l.
Proof.
  induction l as [|y l IH]; simpl.
  - intuition.
  - destruct (fst x <=? fst y); simpl; [intuition | rewrite IH; intuition].
Qed.

Lemma argsort_pairs_In (p : Z * Z) (l : list (Z * Z)) :
  In p (argsort_pairs l) <-> In p l.
Proof.
  induction l as [|x l IH]; simpl; [reflexivity|].
  rewrite insert_stable_In, IH. intuition.
Qed.

Lemma insert_stable_sorted (x : Z * Z) (l : list (Z * Z)) :
  StronglySorted lex_lt l ->
  (forall y, In y l -> snd x < snd y) ->
  StronglySorted lex_lt (insert_stable x l).
Proof.
  induction l as [|y l IH]; intros Hs Hx; simpl.
  - constructor; constructor.
  - apply StronglySorted_inv in Hs as [Hs Hy].
    destruct (fst x <=? fst y) eqn:E.
    + apply Z.leb_le in E. constructor; [constructor; assumption|].
      apply Forall_forall. intros z Hz.
      assert (Hxz : snd x < snd z) by (apply Hx; exact Hz).
      assert (Hyz : fst y <= fst z).
      { destruct Hz as [<-|Hz]; [lia|].
        rewrite Forall_forall in Hy. destruct (Hy z Hz) as [?|[? _]]; lia. }
      unfold lex_lt. lia.
    + apply Z.leb_gt in E. constructor.
      * apply IH; [assumption | intros; apply Hx; now right].
      * apply Forall_forall. intros z Hz. apply insert_stable_In in Hz as [->|Hz].
        -- left; lia.
        -- rewrite Forall_forall in Hy. now apply Hy.
Qed.

Lemma argsort_pairs_sorted (l : list (Z * Z)) :
  StronglySorted by_index l -> StronglySorted lex_lt (argsort_pairs l).
Proof.
  induction l as [|x l IH]; intros Hs; simpl; [constructor|].
  apply StronglySorted_inv in Hs as [Hs Hx].
  apply insert_stable_sorted; [now apply IH|].
  intros y Hy. apply (proj1 (argsort_pairs_In _ _)) in Hy.
  rewrite Forall_forall in Hx. exact (Hx y Hy).
Qed.

Lemma combine_seq_In {A : Type} (ar : list A) :
  forall (k : nat) (t : A) (i : Z),
    In (t, i) (combine ar (map Z.of_nat (seq k (length ar)))) <->
    Z.of_nat k <= i /\ nth_error ar (Z.to_nat i - k) = Some t.
Proof.
  induction ar as [|a ar IH]; intros k t i; simpl.
  - split; [tauto|]. intros [_ H]. now destruct (Z.to_nat i - k)%nat.
  - rewrite IH. split.
    + intros [H|[Hk H]].
      * inversion H; subst. split; [lia|]. now rewrite Nat2Z.id, Nat.sub_diag.
      * split; [lia|].
        replace (Z.to_nat i - k)%nat with (S (Z.to_nat i - S k)) by lia. exact H.
    + intros [Hk H].
      destruct (Z.to_nat i - k)%nat as [|m] eqn:E.
      * left. simpl in H. inversion H; subst. f_equal. lia.
      * right. split; [lia|].
        replace (Z.to_nat i - S k)%nat with m by lia. exact H.
Qed.

Lemma combine_seq_sorted (ar : list Z) :
  forall k : nat, StronglySorted by_index (combine ar (map Z.of_nat (seq k (length ar)))).
Proof.
  induction ar as [|a ar IH]; intros k; simpl; constructor.
  - apply IH.
  - apply Forall_forall. intros [t i] Hi. apply combine_seq_In in Hi as [Hi _].
    unfold by_index; simpl. lia.
Qed.

(** The heads of the runs of a list sorted by value then index. *)
Lemma run_heads_spec (l : list (Z * Z)) :
  forall prev : Z,
    StronglySorted lex_lt l ->
    (forall y, In y l -> prev <= fst y) ->
    StronglySorted Z.lt (map fst (run_heads prev l)) /\
    (forall p, In p (run_heads prev l) ->
               In p l /\ prev < fst p /\
               forall q, In q l -> fst q = fst p -> snd p <= snd q) /\
    (forall q, In q l -> fst q <> prev -> In (fst q) (map fst (run_heads prev l))).
Proof.
  induction l as [|x l IH]; intros prev Hs Hprev; simpl.
  - split; [constructor|]. split; [intros p [] | intros q []].
  - apply StronglySorted_inv in Hs as [Hs Hx]. rewrite Forall_forall in Hx.
    assert (Hxl : forall y, In y l -> fst x <= fst y).
    { intros y Hy. destruct (Hx y Hy) as [?|[? _]]; lia. }
    destruct (fst x =? prev) eqn:E.
    + apply Z.eqb_eq in E.
      destruct (IH prev Hs) as (S1 & S2 & S3).
      { intros y Hy. rewrite <- E. now apply Hxl. }
      split; [exact S1|]. split.
      * intros p Hp. destruct (S2 p Hp) as (Hin & Hlt & Hmin).
        split; [now right|]. split; [exact Hlt|].
        intros q [<-|Hq] Hfq; [lia | now apply Hmin].
      * intros q [<-|Hq] Hne; [congruence | now apply S3].
    + apply Z.eqb_neq in E.
      destruct (IH (fst x) Hs Hxl) as (S1 & S2 & S3).
      assert (Hpx : prev <= fst x) by (apply Hprev; now left).
      split; [|split].
      * simpl. constructor; [exact S1|].
        apply Forall_forall. intros t Ht. apply in_map_iff in Ht as (p & <- & Hp).
        now destruct (S2 p Hp) as (_ & Hlt & _).
      * intros p [<-|Hp].
        -- split; [now left|]. split; [lia|].
           intros q [<-|Hq] Hfq; [lia|].
           destruct (Hx q Hq) as [?|[_ ?]]; lia.
        -- destruct (S2 p Hp) as (Hin & Hlt & Hmin).
           split; [now right|]. split; [lia|].
           intros q [<-|Hq] Hfq; [lia | now apply Hmin].
      * intros q [<-|Hq] Hne; [now left|].
        destruct (Z.eq_dec (fst q) (fst x)) as [Heq|Hneq].
        -- left. now symmetry.
        -- right. now apply S3.
Qed.

(** [np.unique]: the values come out strictly increasing, each with
    the index of its first occurrence, and no value is lost. *)
Lemma unique_pairs_spec (ar : list Z) :
  StronglySorted Z.lt (map fst (unique_pairs ar)) /\
  (forall t i, In (t, i) (unique_pairs ar) ->
               0 <= i /\ nth_error ar (Z.to_nat i) = Some t /\
               forall j, nth_error ar j = Some t -> (Z.to_nat i <= j)%nat) /\
  (forall t, In t ar -> In t (map fst (unique_pairs ar))).
Proof.
  unfold unique_pairs, range.
  pose proof (argsort_pairs_sorted _ (combine_seq_sorted ar 0)) as Hs.
  assert (Hin : forall t i,
             In (t, i) (argsort_pairs (combine ar (map Z.of_nat (seq 0 (length ar)))))
             <-> 0 <= i /\ nth_error ar (Z.to_nat i) = Some t).
  { intros t i. rewrite argsort_pairs_In, combine_seq_In.
    now rewrite Nat.sub_0_r. }
  assert (Hall : forall t j, nth_error ar j = Some t ->
             In (t, Z.of_nat j)
                (argsort_pairs (combine ar (map Z.of_nat (seq 0 (length ar)))))).
  { intros t j Hj. apply Hin. rewrite Nat2Z.id. split; [lia | exact Hj]. }
  destruct (argsort_pairs (combine ar (map Z.of_nat (seq 0 (length ar))))) as [|x l] eqn:E.
  - split; [constructor|]. split.
    + intros t i [].
    + intros t Ht. apply In_nth_error in Ht as [j Hj]. destruct (Hall t j Hj).
  - apply StronglySorted_inv in Hs as [Hs Hx]. rewrite Forall_forall in Hx.
    assert (Hxl : forall y, In y l -> fst x <= fst y).
    { intros y Hy. destruct (Hx y Hy) as [?|[? _]]; lia. }
    destruct (run_heads_spec l (fst x) Hs Hxl) as (S1 & S2 & S3).
    assert (Hfirst : forall p, In p (x :: run_heads (fst x) l) ->
                     In p (x :: l) /\
                     forall q, In q (x :: l) -> fst q = fst p -> snd p <= snd q).
    { intros p [<-|Hp].
      - split; [now left|]. intros q [<-|Hq] Hfq; [lia|].
        destruct (Hx q Hq) as [?|[_ ?]]; lia.
      - destruct (S2 p Hp) as (Hp1 & Hp2 & Hp3).
        split; [now right|]. intros q [<-|Hq] Hfq; [lia | now apply Hp3]. }
    split; [|split].
    + simpl. constructor; [exact S1|].
      apply Forall_forall. intros t Ht. apply in_map_iff in Ht as (p & <- & Hp).
      now destruct (S2 p Hp) as (_ & Hlt & _).
    + intros t i Hti. destruct (Hfirst _ Hti) as [Hmem Hmin].
      apply Hin in Hmem as [Hi Hnth]. split; [exact Hi|]. split; [exact Hnth|].
      intros j Hj.
      specialize (Hmin _ (Hall t j Hj) eq_refl). simpl in Hmin. lia.
    + intros t Ht. apply In_nth_error in Ht as [j Hj].
      destruct (Hall t j Hj) as [Hx0|Hq]; [left; now rewrite Hx0|].
      destruct (Z.eq_dec t (fst x)) as [->|Hne]; [now left|].
      right. apply (S3 (t, Z.of_nat j) Hq). exact Hne.
Qed.

Lemma nodup_duplicated (l : list Z) :
  (length (nodup Z.eq_dec l) + duplicated l = length l)%nat.
Proof.
  induction l as [|t l IH]; simpl; [reflexivity|].
  destruct (in_dec Z.eq_dec t l) as [Hin|Hout].
  - replace (existsb (Z.eqb t) l) with true; [lia|].
    symmetry. apply existsb_exists. exists t. split; [exact Hin | apply Z.eqb_refl].
  - replace (existsb (Z.eqb t) l) with false; [simpl; lia|].
    symmetry. apply not_true_is_false. intros H.
    apply existsb_exists in H as (u & Hu & Heq). apply Z.eqb_eq in Heq. now subst.
Qed.

Lemma sorted_lt_NoDup (l : list Z) : StronglySorted Z.lt l -> NoDup l.
Proof.
  induction l as [|t l IH]; intros Hs; constructor.
  - apply StronglySorted_inv in Hs as [_ Ht]. rewrite Forall_forall in Ht.
    intros Hin. specialize (Ht t Hin). lia.
  - apply IH. now apply StronglySorted_inv in Hs.
Qed.

Lemma unique_pairs_length (ar : list Z) :
  (length (unique_pairs ar) + duplicated ar = length ar)%nat.
Proof.
  destruct (unique_pairs_spec ar) as (Hs & Hfirst & Hall).
  rewrite <- (nodup_duplicated ar). f_equal.
  rewrite <- (length_map fst).
  apply Nat.le_antisymm; apply NoDup_incl_length.
  - now apply sorted_lt_NoDup.
  - intros t Ht. apply nodup_In. apply in_map_iff in Ht as ([u i] & <- & Hp).
    destruct (Hfirst u i Hp) as (_ & Hn & _). simpl. eapply nth_error_In; eassumption.
  - apply NoDup_nodup.
  - intros t Ht. apply nodup_In in Ht. now apply Hall.
Qed.

(* ================================================================= *)
(** ** Statistics of a window and the constructor *)

Lemma time_fractions_nonzero (deltas : list timedelta) (m : timedelta) :
  np_min deltas = Ok m -> m <> 0 ->
  time_fractions deltas = Ok (map (time_fraction m) deltas).
Proof.
  intros Hm Hne. unfold time_fractions. rewrite Hm. simpl bind.
  apply mapM_ext_ok. intros d _. unfold td_truediv.
  replace (m =? 0) with false by (symmetry; now apply Z.eqb_neq).
  reflexivity.
Qed.

Lemma time_fractions_zero (deltas : list timedelta) :
  np_min deltas = Ok 0 -> time_fractions deltas = Raise ZeroDivisionError.
Proof.
  intros Hm. unfold time_fractions. rewrite Hm. simpl bind.
  destruct deltas as [|d deltas]; [discriminate|]. reflexivity.
Qed.

Lemma fold_min_pos (l : list Z) (x : Z) :
  0 < x -> Forall (fun d => 0 < d) l -> 0 < fold_left Z.min l x.
Proof.
  revert x; induction l as [|d l IH]; intros x Hx Hl; simpl; [exact Hx|].
  inversion Hl; subst. apply IH; [lia | assumption].
Qed.

Lemma delta_time_pos (times : list datetime) :
  StronglySorted Z.lt times -> Forall (fun d => 0 < d) (delta_time times).
Proof.
  unfold delta_time.
  induction times as [|t times IH]; intros Hs; [constructor|].
  apply StronglySorted_inv in Hs as [Hs Ht].
  destruct times as [|u times]; [constructor|].
  change (combine (tl (t :: u :: times)) (t :: u :: times))
    with ((u, t) :: combine (tl (u :: times)) (u :: times)).
  simpl map. constructor.
  - simpl. inversion Ht; subst. lia.
  - now apply IH.
Qed.

Section Constructor.

Context {ext : External}.

Lemma change_only_stats_sorted (times : list datetime) (values : list euvalue) (sigma : Z) :
  StronglySorted Z.lt times -> exists r, change_only_stats times values sigma = Ok r.
Proof.
  intros Hs. destruct times as [|t [|u times]]; simpl; eauto.
  pose proof (delta_time_pos _ Hs) as Hpos.
  assert (Hmin : exists m, np_min (delta_time (t :: u :: times)) = Ok m /\ 0 < m).
  { unfold delta_time in *.
    change (combine (tl (t :: u :: times)) (t :: u :: times))
      with ((u, t) :: combine (tl (u :: times)) (u :: times)) in *.
    simpl map in *. inversion Hpos; subst.
    eexists; split; [reflexivity|]. now apply fold_min_pos. }
  destruct Hmin as (m & Hm & Hpm).
  rewrite (time_fractions_nonzero _ m Hm) by lia.
  rewrite bind_ret. eauto.
Qed.

Lemma full_stats_frame (s r : EdbMnemonic) (sigma : Z) :
  full_stats s sigma = Ok r ->
  data r = data s /\ blocks r = blocks s /\
  mnemonic_identifier r = mnemonic_identifier s /\ meta r = meta s /\ info r = info s.
Proof.
  unfold full_stats. intros H.
  apply bind_ok in H as (ap & _ & H).
  apply bind_ok in H as ([[m md] sd] & _ & H).
  apply bind_ok in H as (d & _ & H).
  apply bind_ok in H as (mt & _ & H).
  inversion H; subst. repeat split.
Qed.

Lemma init_frame (ident : string) (st en : option datetime) (t : Table) (m : Meta)
  (i : option Info) (b : Blocks) (r : EdbMnemonic) :
  __init__ ident st en t m i b = Ok r ->
  data r = t /\ blocks r = b /\ mnemonic_identifier r = ident /\ meta r = m /\ info r = i.
Proof.
  unfold __init__. destruct (Nat.eqb (table_len t) 0).
  - intros H; inversion H; subst. repeat split.
  - intros H.
    apply bind_ok in H as (d & _ & H).
    apply bind_ok in H as (lo & _ & H).
    apply bind_ok in H as (hi & _ & H).
    apply bind_ok in H as (v & _ & H).
    apply bind_ok in H as (v0 & _ & H).
    destruct (is_number v0 && match m with Some _ => true | None => false end).
    + apply full_stats_frame in H. exact H.
    + inversion H; subst. repeat split.
Qed.

(** On rows with strictly increasing timestamps the constructor
    returns. *)
Lemma init_sorted_rows (ident : string) (st en : option datetime)
  (rows : list (datetime * euvalue)) (m : Meta) (i : option Info) (b : Blocks) :
  StronglySorted Z.lt (map fst rows) ->
  exists r, __init__ ident st en (Rows rows) m i b = Ok r.
Proof.
  intros Hs. unfold __init__.
  destruct rows as [|[t0 v0] rows]; [simpl; eauto|].
  simpl table_len. simpl Nat.eqb. cbv iota.
  simpl col_dates. simpl col_euvalues. unfold np_min, np_max. simpl map.
  cbv beta iota delta [bind].
  change (py_index (v0 :: map snd rows) 0) with (Ok (A := euvalue) v0).
  cbv beta iota.
  destruct m as [ap|]; [|rewrite andb_false_r; eauto].
  destruct (is_number v0); simpl andb; cbv iota; [|eauto].
  unfold full_stats. simpl meta. simpl data.
  simpl all_points. cbv beta iota delta [bind].
  simpl col_dates. simpl col_euvalues.
  simpl map in *.
  assert (Hmt : exists mt, calc_median_time (t0 :: map fst rows) = Ok mt).
  { unfold calc_median_time.
    change (py_index (t0 :: map fst rows) 0) with (Ok (A := datetime) t0).
    rewrite (py_index_last _ _ 0). simpl bind. eauto. }
  destruct Hmt as [mt Hmt].
  destruct (negb (ap =? 0)).
  - destruct (sigma_clipped_stats (v0 :: map snd rows) 3) as [[mn md] sd].
    rewrite Hmt. eauto.
  - destruct (change_only_stats_sorted _ (v0 :: map snd rows) 3 Hs)
      as [[[mn md] sd] Hc].
    rewrite Hc, Hmt. eauto.
Qed.

End Constructor.

(* ================================================================= *)
(** ** Addition of two non-empty series *)

Lemma np_min_earliest (r : datetime * euvalue) (rows : list (datetime * euvalue)) :
  np_min (map fst (r :: rows)) = Ok (earliest (r :: rows)).
Proof. reflexivity. Qed.

Lemma combine_map_both {A B C : Type} (f : A -> B) (g : A -> C) (l : list A) :
  combine (map f l) (map g l) = map (fun a => (f a, g a)) l.
Proof. induction l as [|a l IH]; simpl; congruence. Qed.

Lemma take_unique (all : list (datetime * euvalue)) :
  take (map snd all) (map snd (unique_pairs (map fst all)))
  = Ok (map (fun p => nth (Z.to_nat (snd p)) (map snd all) (Num nan))
            (unique_pairs (map fst all))).
Proof.
  unfold take. rewrite <- (map_map snd (fun i => nth (Z.to_nat i) (map snd all) (Num nan))).
  apply mapM_ext_ok. intros i Hi. apply in_map_iff in Hi as ([t j] & <- & Hp).
  destruct (unique_pairs_spec (map fst all)) as (_ & Hfirst & _).
  destruct (Hfirst t j Hp) as (Hj & Hn & _). simpl snd.
  assert (Hlt0 : (Z.to_nat j < length (map fst all))%nat).
  { apply nth_error_Some. congruence. }
  assert (Hlt : (Z.to_nat j < length (map snd all))%nat)
    by (rewrite length_map in *; exact Hlt0).
  rewrite <- (Z2Nat.id j) at 1 by exact Hj.
  apply py_index_nth_error. now apply nth_error_nth'.
Qed.

Lemma table_of_columns_rows (d : list datetime) (v : list euvalue) :
  length d = length v -> table_of_columns d v = Ok (Rows (combine d v)).
Proof.
  intros H. unfold table_of_columns. simpl. now rewrite H, Nat.eqb_refl.
Qed.

Section Addition.

Context {ext : External}.

(** [__add__] on two non-empty operands of one identifier: the blocks
    are combined with [overlap_len] the opposite of the number of
    duplicated timestamps, and the constructor receives the
    deduplicated rows. *)
Lemma add_nonempty (a b : EdbMnemonic) (ra rb : list (datetime * euvalue)) :
  mnemonic_identifier a = mnemonic_identifier b ->
  data a = Rows ra -> ra <> [] ->
  data b = Rows rb -> rb <> [] ->
  let a_first := earliest ra <? earliest rb in
  let all := earlier_then_later ra rb in
  __add__ a b =
    (new_blocks <- add_blocks (blocks (if a_first then a else b))
                              (blocks (if a_first then b else a))
                              (- Z.of_nat (duplicated (map fst all))) ;;
     __init__ (mnemonic_identifier a) (data_start_time a) (data_end_time a)
              (Rows (merged_rows all)) (meta a) (info a) new_blocks).
Proof.
  intros Hid Ha Hra Hb Hrb a_first all.
  destruct ra as [|r0 ra]; [congruence|]. destruct rb as [|s0 rb]; [congruence|].
  unfold __add__. rewrite Hid, String.eqb_refl. simpl negb. cbv iota.
  rewrite Ha, Hb. simpl col_dates. cbv beta iota delta [bind].
  simpl length. simpl Nat.eqb. cbv iota.
  change (fst r0 :: map fst ra) with (map fst (r0 :: ra)).
  change (fst s0 :: map fst rb) with (map fst (s0 :: rb)).
  rewrite !np_min_earliest. cbv beta iota.
  fold a_first.
  assert (Hdata : data (if a_first then a else b) = Rows (if a_first then r0 :: ra else s0 :: rb)
                  /\ data (if a_first then b else a)
                     = Rows (if a_first then s0 :: rb else r0 :: ra)).
  { destruct a_first; split; assumption. }
  destruct Hdata as [He Hl]. rewrite He, Hl.
  simpl col_dates. simpl col_euvalues. cbv beta iota.
  assert (Hall_d : map fst (if a_first then r0 :: ra else s0 :: rb) ++
                   map fst (if a_first then s0 :: rb else r0 :: ra) = map fst all).
  { unfold all, earlier_then_later. fold a_first. destruct a_first; now rewrite map_app. }
  assert (Hall_v : map snd (if a_first then r0 :: ra else s0 :: rb) ++
                   map snd (if a_first then s0 :: rb else r0 :: ra) = map snd all).
  { unfold all, earlier_then_later. fold a_first. destruct a_first; now rewrite map_app. }
  rewrite Hall_d, Hall_v. unfold np_unique. cbv beta iota zeta.
  rewrite take_unique. cbv beta iota.
  rewrite table_of_columns_rows by now rewrite !length_map.
  rewrite combine_map_both. fold (merged_rows all).
  replace (Z.of_nat (length (map fst (unique_pairs (map fst all)))) -
           Z.of_nat (length (map fst all)))
    with (- Z.of_nat (duplicated (map fst all))).
  - reflexivity.
  - pose proof (unique_pairs_length (map fst all)) as Hlen.
    rewrite (length_map fst (unique_pairs (map fst all))).
    lia.
Qed.

End Addition.

Lemma merged_rows_dates (all : list (datetime * euvalue)) :
  map fst (merged_rows all) = map fst (unique_pairs (map fst all)).
Proof. unfold merged_rows. rewrite map_map. reflexivity. Qed.

Lemma nth_error_rows (all : list (datetime * euvalue)) (k : nat) (t : datetime) :
  nth_error (map fst all) k = Some t ->
  nth_error all k = Some (t, nth k (map snd all) (Num nan)).
Proof.
  revert k; induction all as [|[u v] all IH]; intros [|k] H; simpl in *;
    try discriminate.
  - now inversion H.
  - now apply IH.
Qed.

Lemma earlier_then_later_length (ra rb : list (datetime * euvalue)) :
  length (earlier_then_later ra rb) = (length ra + length rb)%nat.
Proof.
  unfold earlier_then_later. destruct (earliest ra <? earliest rb);
    rewrite length_app; lia.
Qed.

Lemma add_blocks_ok (early late : Blocks) (overlap_len : Z) :
  early <> Indices [] -> late <> Indices [] ->
  exists b, add_blocks early late overlap_len = Ok b.
Proof.
  intros He Hl. unfold add_blocks.
  destruct late as [|[|l0 l]]; [|congruence|];
    (destruct early as [|[|e0 e]]; [|congruence|]); simpl; eauto.
Qed.

Section AdditionProperties.

Context {ext : External}.

(** C3. For two non-empty series of one identifier, the sum holds the
    timestamps of both in strictly increasing order, none twice; its
    length is the two lengths together less the number of duplicated
    timestamps; and each timestamp carries the value of its first
    occurrence in the concatenation of the earlier operand's samples
    with the later operand's. *)
Theorem add_deduplicates (a b : EdbMnemonic) (ra rb : list (datetime * euvalue)) :
  mnemonic_identifier a = mnemonic_identifier b ->
  data a = Rows ra -> ra <> [] ->
  data b = Rows rb -> rb <> [] ->
  blocks a <> Indices [] -> blocks b <> Indices [] ->
  let all := earlier_then_later ra rb in
  exists r rows,
    __add__ a b = Ok r /\ data r = Rows rows /\
    StronglySorted Z.lt (map fst rows) /\
    NoDup (map fst rows) /\
    (length rows + duplicated (map fst all) = length ra + length rb)%nat /\
    (forall t, In t (map fst all) -> In t (map fst rows)) /\
    (forall t v, In (t, v) rows ->
       exists i, nth_error all i = Some (t, v) /\
                 forall j v', nth_error all j = Some (t, v') -> (i <= j)%nat).
Proof.
  intros Hid Ha Hra Hb Hrb Hba Hbb all.
  rewrite (add_nonempty a b ra rb Hid Ha Hra Hb Hrb). fold all.
  destruct (unique_pairs_spec (map fst all)) as (Hs & Hfirst & Hall).
  destruct (add_blocks_ok
              (blocks (if earliest ra <? earliest rb then a else b))
              (blocks (if earliest ra <? earliest rb then b else a))
              (- Z.of_nat (duplicated (map fst all)))) as [nb Hnb].
  { now destruct (earliest ra <? earliest rb). }
  { now destruct (earliest ra <? earliest rb). }
  rewrite Hnb. simpl bind.
  assert (Hsorted : StronglySorted Z.lt (map fst (merged_rows all)))
    by now rewrite merged_rows_dates.
  destruct (init_sorted_rows (mnemonic_identifier a) (data_start_time a) (data_end_time a)
              (merged_rows all) (meta a) (info a) nb Hsorted) as [r Hr].
  exists r, (merged_rows all).
  split; [exact Hr|].
  split; [now apply init_frame in Hr|].
  split; [exact Hsorted|].
  split; [now apply sorted_lt_NoDup|].
  split; [|split].
  - unfold merged_rows. rewrite length_map.
    rewrite (unique_pairs_length (map fst all)), length_map.
    apply earlier_then_later_length.
  - intros t Ht. rewrite merged_rows_dates. now apply Hall.
  - intros t v Htv. unfold merged_rows in Htv.
    apply in_map_iff in Htv as ([u i] & Heq & Hp). simpl in Heq.
    inversion Heq; subst; clear Heq.
    destruct (Hfirst t i Hp) as (Hi & Hn & Hmin).
    exists (Z.to_nat i). split.
    + now apply nth_error_rows.
    + intros j v' Hj. apply Hmin.
      rewrite nth_error_map, Hj. reflexivity.
Qed.

(** C4 (the code departs from it). When both operands carry block
    indices and the left one starts earlier, the block list of the sum
    is the earlier operand's blocks followed by the later operand's
    block starts each INCREASED by the number of duplicated
    timestamps: [overlap_len] is the unique count less the total, a
    number that is never positive, and it is subtracted. *)
Theorem add_shifts_late_blocks_up (a b : EdbMnemonic)
  (ra rb : list (datetime * euvalue)) (e l : list Z) :
  mnemonic_identifier a = mnemonic_identifier b ->
  data a = Rows ra -> ra <> [] ->
  data b = Rows rb -> rb <> [] ->
  blocks a = Indices e -> e <> [] ->
  blocks b = Indices l -> l <> [] ->
  earliest ra < earliest rb ->
  exists r,
    __add__ a b = Ok r /\
    data r = Rows (merged_rows (ra ++ rb)) /\
    blocks r = Indices (e ++ map (fun i => i + Z.of_nat (duplicated (map fst (ra ++ rb)))) l).
Proof.
  intros Hid Ha Hra Hb Hrb Hba He Hbb Hl Hlt.
  rewrite (add_nonempty a b ra rb Hid Ha Hra Hb Hrb).
  unfold earlier_then_later.
  replace (earliest ra <? earliest rb) with true by (symmetry; now apply Z.ltb_lt).
  rewrite Hba, Hbb.
  destruct e as [|e0 e]; [congruence|]. destruct l as [|l0 l]; [congruence|].
  unfold add_blocks. simpl first_is_not_None. simpl bind.
  assert (Hsorted : StronglySorted Z.lt (map fst (merged_rows (ra ++ rb)))).
  { rewrite merged_rows_dates. apply unique_pairs_spec. }
  match goal with
  | |- exists r, __init__ ?i ?s ?n ?t ?m ?f ?nb = Ok r /\ _ =>
      destruct (init_sorted_rows i s n (merged_rows (ra ++ rb)) m f nb Hsorted) as [r Hr]
  end.
  exists r. split; [exact Hr|].
  apply init_frame in Hr as (Hd & Hbl & _).
  split; [exact Hd|]. rewrite Hbl. simpl. f_equal. f_equal. f_equal.
  f_equal; [lia|]. apply map_ext. intros i. lia.
Qed.

End AdditionProperties.

Lemma add_deduplicates_example :
  exists r rows,
    __add__ early_example late_example = Ok r /\ data r = Rows rows /\
    StronglySorted Z.lt (map fst rows) /\
    NoDup (map fst rows) /\
    (length rows + 1 = 3 + 3)%nat /\
    (forall t, In t [1; 2; 3; 3; 4; 5] -> In t (map fst rows)) /\
    (forall t v, In (t, v) rows ->
       exists i, nth_error [(1, num 10); (2, num 20); (3, num 30);
                            (3, num 31); (4, num 40); (5, num 50)] i = Some (t, v) /\
                 forall j v', nth_error [(1, num 10); (2, num 20); (3, num 30);
                                         (3, num 31); (4, num 40); (5, num 50)] j
                              = Some (t, v') -> (i <= j)%nat).
Proof.
  exact (add_deduplicates early_example late_example
           [(1, num 10); (2, num 20); (3, num 30)]
           [(3, num 31); (4, num 40); (5, num 50)]
           eq_refl eq_refl ltac:(discriminate) eq_refl ltac:(discriminate)
           ltac:(discriminate) ltac:(discriminate)).
Defined.

(** The late operand's block start 0 stood on its sample at timestamp
    3; in the sum it has become index 1, the sample at timestamp 2,
    while timestamp 3 is at index 2. *)
Lemma add_shifts_late_blocks_up_example :
  exists r,
    __add__ early_example late_example = Ok r /\
    data r = Rows [(1, num 10); (2, num 20); (3, num 30); (4, num 40); (5, num 50)] /\
    blocks r = Indices [0; 3; 1; 4].
Proof.
  exact (add_shifts_late_blocks_up early_example late_example
           [(1, num 10); (2, num 20); (3, num 30)]
           [(3, num 31); (4, num 40); (5, num 50)] [0; 3] [0; 3]
           eq_refl eq_refl ltac:(discriminate) eq_refl ltac:(discriminate)
           eq_refl ltac:(discriminate) eq_refl ltac:(discriminate) eq_refl).
Defined.

(* ================================================================= *)
(** ** Interpolation *)

Lemma fold_min_spec (l : list Z) :
  forall x, In (fold_left Z.min l x) (x :: l) /\
            forall y, In y (x :: l) -> fold_left Z.min l x <= y.
Proof.
  induction l as [|a l IH]; intros x; simpl.
  - split; [now left | intros y [<-|[]]; lia].
  - destruct (IH (Z.min x a)) as [Hin Hle]. split.
    + destruct Hin as [H|H]; [|now right; right].
      rewrite <- H. destruct (Z.min_spec x a) as [[_ ->]|[_ ->]]; [now left | right; now left].
    + intros y Hy.
      assert (Hm : fold_left Z.min l (Z.min x a) <= Z.min x a) by (apply Hle; now left).
      destruct Hy as [<-|[<-|Hy]]; [lia | lia | apply Hle; now right].
Qed.

Lemma fold_max_spec (l : list Z) :
  forall x, In (fold_left Z.max l x) (x :: l) /\
            forall y, In y (x :: l) -> y <= fold_left Z.max l x.
Proof.
  induction l as [|a l IH]; intros x; simpl.
  - split; [now left | intros y [<-|[]]; lia].
  - destruct (IH (Z.max x a)) as [Hin Hle]. split.
    + destruct Hin as [H|H]; [|now right; right].
      rewrite <- H. destruct (Z.max_spec x a) as [[_ ->]|[_ ->]]; [right; now left | now left].
    + intros y Hy.
      assert (Hm : Z.max x a <= fold_left Z.max l (Z.max x a)) by (apply Hle; now left).
      destruct Hy as [<-|[<-|Hy]]; [lia | lia | apply Hle; now right].
Qed.

Lemma np_min_spec (d : list Z) (lo : Z) :
  np_min d = Ok lo -> In lo d /\ forall x, In x d -> lo <= x.
Proof.
  destruct d as [|x d]; [discriminate|]. intros H; inversion H; subst.
  apply fold_min_spec.
Qed.

Lemma np_max_spec (d : list Z) (hi : Z) :
  np_max d = Ok hi -> In hi d /\ forall x, In x d -> x <= hi.
Proof.
  destruct d as [|x d]; [discriminate|]. intros H; inversion H; subst.
  apply fold_max_spec.
Qed.

Lemma py_index_In {A : Type} (l : list A) (i : Z) (a : A) :
  py_index l i = Ok a -> In a l.
Proof.
  unfold py_index. cbv zeta.
  destruct ((0 <=? (if i <? 0 then i + Z.of_nat (length l) else i)) &&
            ((if i <? 0 then i + Z.of_nat (length l) else i) <? Z.of_nat (length l)));
    [|discriminate].
  destruct (nth_error l (Z.to_nat (if i <? 0 then i + Z.of_nat (length l) else i))) eqn:E;
    [|discriminate].
  intros H; inversion H; subst. eapply nth_error_In; eassumption.
Qed.

Lemma last_opt_cons {A : Type} (l : list A) (a : A) :
  exists b, last_opt (a :: l) = Some b.
Proof.
  revert a; induction l as [|x l IH]; intros a; [now exists a|].
  destruct (IH x) as [b Hb]. exists b. exact Hb.
Qed.

(** What [interpolate] leaves in [self]: the new table and the
    recomputed block indices, nothing else changed. *)
Lemma interpolate_result (s s' : EdbMnemonic) (times : list datetime) :
  interpolate s times = Ok s' ->
  exists ap new_tab nd new_blocks,
    meta s = Some ap /\
    (if ap =? 0 then interpolate_change_only (data s) times
     else interpolate_all_points (data s) times) = Ok new_tab /\
    col_dates new_tab = Ok nd /\
    s' = with_data (with_blocks s (Indices new_blocks)) new_tab.
Proof.
  unfold interpolate. intros H.
  apply bind_ok in H as (ap & Hap & H).
  apply bind_ok in H as (new_tab & Htab & H).
  apply bind_ok in H as (kept & _ & H).
  apply bind_ok in H as (nd & Hnd & H).
  inversion H; subst; clear H.
  exists ap, new_tab, nd, (concat kept ++ [Z.of_nat (length nd)]).
  repeat split; try assumption.
  destruct (meta s); [now inversion Hap | discriminate].
Qed.


(* ================================================================= *)
(** ** Multiplication *)

Section Multiplication.

Context {ext : External}.

(** C5 (the code departs from it). With a right operand of exactly
    one sample [__mul__] raises a [ValueError]: emptying the ["dates"]
    column of a one-row table that has a second column is refused.
    With a right operand of zero samples it returns that operand, still
    empty. *)
Theorem mul_single_sample_raises
  (self mnem : EdbMnemonic) (t : datetime) (v : euvalue) :
  __mul__ self (with_data mnem (Rows [(t, v)]))
    = (Raise ValueError, with_data mnem (Rows [(t, v)])) /\
  __mul__ self (with_data mnem (Rows []))
    = (Ok (with_data mnem (Rows [])), with_data mnem (Rows [])).
Proof. split; reflexivity. Qed.

End Multiplication.

(* ================================================================= *)
(** ** Change-only statistics *)

Lemma combine_map_r {A B C : Type} (f : B -> C) (l : list A) (l' : list B) :
  combine l (map f l') = map (fun p => (fst p, f (snd p))) (combine l l').
Proof.
  revert l'; induction l as [|a l IH]; intros [|b l']; simpl; try reflexivity.
  now rewrite IH.
Qed.

Lemma flat_list_held_values (m : timedelta) (values : list euvalue) (deltas : list timedelta) :
  flat_list_for_median values (map (time_fraction m) deltas) = held_values m values deltas.
Proof.
  unfold flat_list_for_median, held_values.
  rewrite combine_map_r, map_map. reflexivity.
Qed.

Lemma combine_app_short {A B : Type} (l x : list A) (l' : list B) :
  (length l' <= length l)%nat -> combine (l ++ x) l' = combine l l'.
Proof.
  revert l'; induction l as [|a l IH]; intros [|b l'] H; simpl in *;
    try reflexivity; try lia.
  - now destruct x.
  - rewrite IH by lia. reflexivity.
Qed.

Lemma delta_time_length (times : list datetime) :
  length (delta_time times) = (length times - 1)%nat.
Proof.
  unfold delta_time. rewrite length_map, length_combine.
  destruct times; simpl; lia.
Qed.

(** C6, as stated, fails: the last value of a window has no successor
    and is left out, so that two windows of two samples with the same
    values have the same statistics whatever the time between the
    samples.  Here the value 2 never enters the multiset, which is the
    value 1 a hundred times for a hold of 10 microseconds and for a
    hold of 20. *)
Lemma change_only_stats_ignore_last_value :
  (fr <- time_fractions (delta_time [0; 10]) ;;
   Ok (flat_list_for_median [num 1; num 2] fr)) = Ok (repeat (num 1) 100) /\
  (fr <- time_fractions (delta_time [0; 20]) ;;
   Ok (flat_list_for_median [num 1; num 2] fr)) = Ok (repeat (num 1) 100) /\
  change_only_stats [0; 10] [num 1; num 2] 3 = change_only_stats [0; 20] [num 1; num 2] 3.
Proof. repeat split; vm_compute; reflexivity. Qed.

(** A count of microseconds divided by itself is the float 1, whatever
    its size: the division rounds the exact quotient. *)
Lemma int_truediv_self (d : Z) : d <> 0 -> int_truediv d d = float_of_int 1.
Proof.
  intros Hd.
  assert (Hcore : forall p,
             SFdiv_core_binary prec emax (Z.pos p) 0 (Z.pos p) 0
             = (2 ^ 53, -53, loc_Exact)).
  { intros p. unfold SFdiv_core_binary. cbv zeta.
    rewrite !Z.add_0_r. rewrite (Z.sub_diag (Zdigits2 (Z.pos p))).
    change (Z.min (fexp prec emax 0) (0 - 0)) with (-53).
    change (0 - 0 - -53) with 53.
    cbv iota beta.
    rewrite Z.shiftl_mul_pow2 by lia.
    assert (Hq : (Z.pos p * 2 ^ 53) / Z.pos p = 2 ^ 53).
    { rewrite Z.mul_comm. apply Z.div_mul. discriminate. }
    assert (Hr : (Z.pos p * 2 ^ 53) mod Z.pos p = 0).
    { rewrite Z.mul_comm. apply Z.mod_mul. discriminate. }
    unfold Z.div in Hq. unfold Z.modulo in Hr.
    destruct (Z.div_eucl (Z.pos p * 2 ^ 53) (Z.pos p)) as [q r].
    subst q r. f_equal.
    unfold new_location, new_location_even, new_location_odd.
    now destruct (Z.even (Z.pos p)). }
  unfold int_truediv, int_operand.
  destruct d as [|p|p]; [contradiction | |];
    unfold SFdiv; rewrite Hcore; vm_compute; reflexivity.
Qed.

Section ChangeOnlyStatistics.

Context {ext : External}.

(** C6, amended. For a change-only window of two samples or more
    whose smallest time between consecutive samples [m] is not zero,
    the statistics are the sigma-clipped statistics of the multiset in
    which the value of every sample but the last appears
    [int(delta / m * 100.)] times, [delta] being the time to the next
    sample.  The value of the last sample does not contribute: the
    statistics are the same whatever it is.  For a window of two
    samples at different times the multiset is the first value a
    hundred times, whatever the time between the two samples. *)
Theorem change_only_stats_weights (times : list datetime) (values : list euvalue)
  (sigma : Z) (m : timedelta) :
  (2 <= length times)%nat ->
  np_min (delta_time times) = Ok m ->
  m <> 0 ->
  change_only_stats times values sigma
    = Ok (sigma_clipped_stats (held_values m values (delta_time times)) sigma) /\
  (forall (vs : list euvalue) (v w : euvalue),
      (length vs + 1 = length times)%nat ->
      held_values m (vs ++ [v]) (delta_time times) = held_values m vs (delta_time times) /\
      change_only_stats times (vs ++ [v]) sigma = change_only_stats times (vs ++ [w]) sigma) /\
  (forall (t0 t1 : datetime) (v0 v1 : euvalue),
      t0 <> t1 ->
      change_only_stats [t0; t1] [v0; v1] sigma
      = Ok (sigma_clipped_stats (repeat v0 100) sigma)).
Proof.
  intros Hlen Hm Hne.
  assert (Hstats : forall ts vals k,
             (2 <= length ts)%nat -> np_min (delta_time ts) = Ok k -> k <> 0 ->
             change_only_stats ts vals sigma
             = Ok (sigma_clipped_stats (held_values k vals (delta_time ts)) sigma)).
  { intros ts vals k Hl Hk Hk0. destruct ts as [|t [|u ts]]; simpl in Hl; try lia.
    unfold change_only_stats.
    rewrite (time_fractions_nonzero _ k Hk Hk0), bind_ret.
    now rewrite flat_list_held_values. }
  split; [now apply Hstats|]. split.
  - intros vs v w Hvs.
    assert (Hheld : forall x, held_values m (vs ++ [x]) (delta_time times)
                              = held_values m vs (delta_time times)).
    { intros x. unfold held_values. rewrite combine_app_short; [reflexivity|].
      rewrite delta_time_length. lia. }
    split; [apply Hheld|].
    now rewrite !(Hstats times _ m Hlen Hm Hne), !Hheld.
  - intros t0 t1 v0 v1 Ht.
    rewrite (Hstats [t0; t1] [v0; v1] (t1 - t0));
      [| simpl; lia | reflexivity | lia].
    do 2 f_equal. unfold held_values, delta_time. simpl combine. simpl map.
    unfold time_fraction. rewrite int_truediv_self by lia.
    vm_compute. reflexivity.
Qed.

End ChangeOnlyStatistics.

Lemma change_only_stats_weights_example :
  change_only_stats [0; 10; 30] [num 1; num 2; num 7] 3
    = Ok (sigma_clipped_stats (repeat (num 1) 100 ++ repeat (num 2) 200) 3) /\
  (forall (vs : list euvalue) (v w : euvalue),
      (length vs + 1 = 3)%nat ->
      held_values 10 (vs ++ [v]) [10; 20] = held_values 10 vs [10; 20] /\
      change_only_stats [0; 10; 30] (vs ++ [v]) 3 = change_only_stats [0; 10; 30] (vs ++ [w]) 3) /\
  (forall (t0 t1 : datetime) (v0 v1 : euvalue),
      t0 <> t1 ->
      change_only_stats [t0; t1] [v0; v1] 3
      = Ok (sigma_clipped_stats (repeat v0 100) 3)).
Proof.
  exact (change_only_stats_weights [0; 10; 30] [num 1; num 2; num 7] 3 10
           ltac:(simpl; lia) eq_refl ltac:(discriminate)).
Defined.

(* ================================================================= *)
(** * Further properties *)

(** ** Interpolation of change-only data *)

Lemma last_opt_nil_inv {A : Type} (l : list A) : last_opt l = None -> l = [].
Proof.
  destruct l as [|a l]; [reflexivity|].
  destruct (last_opt_cons l a) as [b Hb]. congruence.
Qed.

(** The index [np.where] finds last is that of the last row passing
    the test. *)
Lemma where_last_row (p : Z -> bool) (rows : list (datetime * euvalue)) :
  match last_opt (np_where p (map fst rows)) with
  | Some i => exists r, last_opt (filter (fun r => p (fst r)) rows) = Some r /\
                        py_index (map snd rows) i = Ok (snd r)
  | None => filter (fun r => p (fst r)) rows = []
  end.
Proof.
  pose proof (take_where p (map fst rows) (map snd rows) []) as H.
  rewrite !length_map in H. specialize (H eq_refl).
  simpl in H. rewrite combine_fst_snd in H. unfold np_where.
  pose proof (mapM_length _ _ _ H) as Hlen. rewrite length_map in Hlen.
  destruct (last_opt (where_from p 0 (map fst rows))) as [i|] eqn:E.
  - destruct (filter (fun r => p (fst r)) rows) as [|r0 F] eqn:EF.
    + destruct (where_from p 0 (map fst rows)); [discriminate | discriminate].
    + destruct (last_opt_cons F r0) as [r Hr]. exists r. split; [exact Hr|].
      pose proof (mapM_last _ _ _ (snd r) H) as Hl. rewrite E in Hl.
      rewrite Hl, last_opt_map, Hr. reflexivity.
  - apply last_opt_nil_inv in E. rewrite E in Hlen.
    now destruct (filter (fun r => p (fst r)) rows).
Qed.

Lemma interpolate_change_only_rows (rows : list (datetime * euvalue)) (times : list datetime) :
  interpolate_change_only (Rows rows) times
  = Ok (match held_samples rows times with
        | [] => NoColumns
        | _ :: _ => Rows (held_samples rows times)
        end).
Proof.
  unfold interpolate_change_only.
  rewrite (mapM_ext_ok _ (fun t =>
             match last_opt (filter (fun r => fst r <=? t) rows) with
             | Some r => [(t, snd r)]
             | None => []
             end)).
  - rewrite bind_ret. fold (held_samples rows times).
    destruct (held_samples rows times) as [|h l]; [reflexivity|].
    rewrite length_map. simpl Nat.ltb. cbv iota.
    unfold set_euvalues, set_dates. rewrite bind_ret.
    rewrite !length_map, Nat.eqb_refl, combine_fst_snd. reflexivity.
  - intros t _. simpl col_dates. rewrite bind_ret. simpl col_euvalues.
    pose proof (where_last_row (fun x => x <=? t) rows) as H.
    destruct (last_opt (np_where (fun x => x <=? t) (map fst rows))) as [i|].
    + destruct H as (r & Hr & Hi). rewrite Hr, bind_ret, Hi. reflexivity.
    + rewrite H. reflexivity.
Qed.

(** X1. Interpolating a change-only series holds values: the new
    samples are, for each target that has a sample at or before it and
    in the order of the targets, the target with the value of the last
    such sample; the other targets are dropped. *)
Theorem interpolate_change_only_holds_value (s s' : EdbMnemonic)
  (rows : list (datetime * euvalue)) (times : list datetime) :
  meta s = Some 0 ->
  data s = Rows rows ->
  interpolate s times = Ok s' ->
  data s' = Rows (held_samples rows times).
Proof.
  intros Hm Hd H.
  apply interpolate_result in H as (ap & tab & nd & nb & Hap & Htab & Hnd & ->).
  rewrite Hm in Hap. inversion Hap; subst ap. simpl in Htab.
  rewrite Hd, interpolate_change_only_rows in Htab. inversion Htab; subst tab.
  simpl. destruct (held_samples rows times); [discriminate | reflexivity].
Qed.

Lemma interpolate_change_only_holds_value_example :
  data (match interpolate (series 0 [(0, num 1); (10, num 2)] Sentinel) [-5; 3; 10; 25] with
        | Ok s' => s'
        | Raise _ => series 0 [] Sentinel
        end)
  = Rows [(3, num 1); (10, num 2); (25, num 2)].
Proof.
  exact (interpolate_change_only_holds_value
           (series 0 [(0, num 1); (10, num 2)] Sentinel) _
           [(0, num 1); (10, num 2)] [-5; 3; 10; 25] eq_refl eq_refl eq_refl).
Defined.

Lemma held_samples_none (rows : list (datetime * euvalue)) (times : list datetime) :
  (forall t r, In t times -> In r rows -> t < fst r) ->
  held_samples rows times = [].
Proof.
  intros H. unfold held_samples.
  induction times as [|t times IH]; [reflexivity|].
  simpl. rewrite IH by (intros; apply H; [now right | assumption]).
  replace (filter (fun r => fst r <=? t) rows) with (@nil (datetime * euvalue));
    [reflexivity|].
  symmetry.
  assert (Hall : forall r, In r rows -> (fst r <=? t) = false).
  { intros r Hr. apply Z.leb_gt. apply H; [now left | exact Hr]. }
  clear -Hall. induction rows as [|r rows IHr]; [reflexivity|].
  simpl. rewrite (Hall r) by now left. apply IHr. intros; apply Hall; now right.
Qed.

Section InterpolationEdges.

Context {ext : External}.

(** X2. When every target lies before every sample of a change-only
    series (in particular when there is no target, or no sample),
    [interpolate] does not hand back an empty series: the new table
    was given no column and reading its ["dates"] raises a [KeyError].
    [__mul__] with such a right operand of two samples or more raises
    the same error and leaves the operand as it was. *)
Theorem interpolate_change_only_no_target_raises (a s : EdbMnemonic)
  (rows : list (datetime * euvalue)) (times : list datetime) :
  meta s = Some 0 ->
  data s = Rows rows ->
  (forall t r, In t times -> In r rows -> t < fst r) ->
  interpolate s times = Raise KeyError /\
  (col_dates (data a) = Ok times -> (2 <= length rows)%nat ->
   __mul__ a s = (Raise KeyError, s)).
Proof.
  intros Hm Hd Hbefore.
  assert (Hi : interpolate s times = Raise KeyError).
  { unfold interpolate. rewrite Hm. simpl all_points. rewrite bind_ret.
    simpl Z.eqb. cbv iota. rewrite Hd, interpolate_change_only_rows.
    rewrite (held_samples_none rows times Hbefore), bind_ret.
    now destruct (blocks_but_last (blocks s)). }
  split; [exact Hi|].
  intros Ha Hlen. unfold __mul__. rewrite Hd. simpl col_dates.
  cbv beta iota.
  destruct (Nat.ltb (length (map fst rows)) 2) eqn:E.
  { apply Nat.ltb_lt in E. rewrite length_map in E. lia. }
  rewrite Ha, bind_ret, Hi. reflexivity.
Qed.

End InterpolationEdges.

Lemma interpolate_change_only_no_target_raises_example :
  interpolate (series 0 [(10, num 1); (20, num 2)] Sentinel) [0; 5] = Raise KeyError /\
  (col_dates (data (series 1 [(0, num 1); (5, num 2)] Sentinel)) = Ok [0; 5] ->
   (2 <= length [(10, num 1); (20, num 2)])%nat ->
   __mul__ (series 1 [(0, num 1); (5, num 2)] Sentinel)
           (series 0 [(10, num 1); (20, num 2)] Sentinel)
   = (Raise KeyError, series 0 [(10, num 1); (20, num 2)] Sentinel)).
Proof.
  apply (interpolate_change_only_no_target_raises
           (series 1 [(0, num 1); (5, num 2)] Sentinel)
           (series 0 [(10, num 1); (20, num 2)] Sentinel)
           [(10, num 1); (20, num 2)] [0; 5]); [reflexivity | reflexivity |].
  intros t r Ht Hr. simpl in Ht, Hr.
  destruct Ht as [<-|[<-|[]]]; destruct Hr as [<-|[<-|[]]]; simpl; lia.
Defined.

(* ================================================================= *)
(** ** The blocks after an interpolation *)

Lemma mapM_Forall2 {A B : Type} (f : A -> result B) (l : list A) (r : list B) :
  mapM f l = Ok r -> Forall2 (fun a b => f a = Ok b) l r.
Proof.
  revert r; induction l as [|a l IH]; intros r H; simpl in H.
  - inversion H. constructor.
  - apply bind_ok in H as (b & Hb & H). apply bind_ok in H as (bs & Hbs & H).
    inversion H; subst. constructor; [exact Hb | now apply IH].
Qed.

(** The first index [np.where] returns is that of the first element
    passing the test. *)
Lemma where_from_head {A : Type} (p : A -> bool) (l : list A) :
  forall (k g : Z) (w : list Z),
    where_from p k l = g :: w ->
    k <= g < k + Z.of_nat (length l) /\
    (exists a, nth_error l (Z.to_nat (g - k)) = Some a /\ p a = true) /\
    (forall j a, (j < Z.to_nat (g - k))%nat -> nth_error l j = Some a -> p a = false).
Proof.
  induction l as [|x l IH]; intros k g w H; simpl in H; [discriminate|].
  destruct (p x) eqn:Hx.
  - inversion H; subst. rewrite Z.sub_diag. simpl.
    split; [lia|]. split; [now exists x|]. intros j a Hj. lia.
  - destruct (IH (k + 1) g w H) as (Hr & (a & Ha & Hpa) & Hfirst).
    assert (Hs : Z.to_nat (g - k) = S (Z.to_nat (g - (k + 1)))) by lia.
    split; [simpl length; lia|]. split.
    + exists a. rewrite Hs. simpl. split; assumption.
    + intros j b Hj Hb. destruct j as [|j]; simpl in Hb.
      * inversion Hb; subst. exact Hx.
      * apply (Hfirst j b); [lia | exact Hb].
Qed.

Lemma where_from_head_mono {A : Type} (p q : A -> bool) (l : list A)
  (g h : Z) (w u : list Z) :
  (forall a, q a = true -> p a = true) ->
  where_from p 0 l = g :: w -> where_from q 0 l = h :: u -> g <= h.
Proof.
  intros Himp Hp Hq.
  destruct (where_from_head p l 0 g w Hp) as (Hg & _ & Hfirst).
  destruct (where_from_head q l 0 h u Hq) as (Hh & (a & Ha & Hqa) & _).
  destruct (Z_le_gt_dec g h) as [Hle|Hgt]; [exact Hle|].
  rewrite Z.sub_0_r in *.
  assert (Hpa : p a = false) by (apply (Hfirst (Z.to_nat h) a); [lia | exact Ha]).
  rewrite (Himp a Hqa) in Hpa. discriminate.
Qed.

(** The block starts [interpolate] keeps, for the dates [bd] at the old
    block starts and the new dates [nd]. *)
Lemma kept_blocks_spec (nd : list datetime) :
  forall (bd : list datetime) (kept : list (list Z)),
    Forall2 (fun di out => out = match np_where (fun x => di <=? x) nd with
                                 | g :: _ => [g]
                                 | [] => []
                                 end) bd kept ->
    Forall (fun b => 0 <= b < Z.of_nat (length nd)) (concat kept) /\
    (length (concat kept) <= length bd)%nat /\
    (StronglySorted Z.le bd -> StronglySorted Z.le (concat kept)).
Proof.
  intros bd kept H. induction H as [|di out bd kept Hout Hrest IH].
  - repeat split; constructor.
  - destruct IH as (Hvalid & Hlen & Hsorted). simpl. subst out.
    unfold np_where in *.
    destruct (where_from (fun x => di <=? x) 0 nd) as [|g w] eqn:Eg.
    + simpl. repeat split; [exact Hvalid | lia |].
      intros Hs. apply Hsorted. now apply StronglySorted_inv in Hs.
    + simpl. destruct (where_from_head _ _ _ _ _ Eg) as (Hg & _).
      split; [constructor; [lia | exact Hvalid]|]. split; [lia|].
      intros Hs. apply StronglySorted_inv in Hs as [Hs Hdi].
      constructor; [now apply Hsorted|].
      rewrite Forall_forall in Hdi.
      clear -Hrest Hdi Eg. induction Hrest as [|dj out bd kept Hout Hrest IH].
      * constructor.
      * simpl. subst out.
        assert (Htail : Forall (Z.le g) (concat kept))
          by (apply IH; intros; apply Hdi; now right).
        destruct (where_from (fun x => dj <=? x) 0 nd) as [|h u] eqn:Eh; [exact Htail|].
        simpl. constructor; [|exact Htail].
        apply (where_from_head_mono (fun x => di <=? x) (fun x => dj <=? x) nd g h w u);
          try assumption.
        intros a Ha. apply Z.leb_le in Ha. apply Z.leb_le.
        specialize (Hdi dj (or_introl eq_refl)). lia.
Qed.

(** X3. After [interpolate] the blocks are an index array that ends
    with the number of new samples; every block start before it is a
    valid index into the new samples; no block start is added; and the
    starts are in non-decreasing order whenever the dates at the old
    block starts were. *)
Theorem interpolate_blocks_valid (s s' : EdbMnemonic) (times : list datetime) :
  interpolate s times = Ok s' ->
  exists starts nd,
    col_dates (data s') = Ok nd /\
    blocks s' = Indices (starts ++ [Z.of_nat (length nd)]) /\
    Forall (fun b => 0 <= b < Z.of_nat (length nd)) starts /\
    (length starts <= length (blocks_but_last (blocks s)))%nat /\
    (forall d bd, col_dates (data s) = Ok d ->
                  mapM (py_index d) (blocks_but_last (blocks s)) = Ok bd ->
                  StronglySorted Z.le bd -> StronglySorted Z.le starts).
Proof.
  unfold interpolate. intros H.
  apply bind_ok in H as (ap & _ & H).
  apply bind_ok in H as (tab & _ & H).
  apply bind_ok in H as (kept & Hkept & H).
  apply bind_ok in H as (nd & Hnd & H).
  inversion H; subst; clear H. simpl.
  exists (concat kept), nd. split; [exact Hnd|]. split; [reflexivity|].
  apply mapM_Forall2 in Hkept.
  assert (Hgen : forall d, col_dates (data s) = Ok d \/ blocks_but_last (blocks s) = [] ->
            exists bd, Forall2 (fun index di => py_index d index = Ok di)
                               (blocks_but_last (blocks s)) bd /\
                       Forall2 (fun di out => out = match np_where (fun x => di <=? x) nd with
                                                    | g :: _ => [g]
                                                    | [] => []
                                                    end) bd kept).
  { intros d Hd. induction Hkept as [|index out idxs kept Hout Hrest IH].
    - exists []. split; constructor.
    - destruct Hd as [Hd|Hd]; [|discriminate].
      destruct IH as (bd & Hbd1 & Hbd2); [now left|].
      rewrite Hnd, bind_ret, Hd, bind_ret in Hout.
      apply bind_ok in Hout as (di & Hdi & Hout).
      exists (di :: bd). split; constructor; try assumption.
      destruct (np_where (fun x => di <=? x) nd); now inversion Hout. }
  assert (Hd : exists d, col_dates (data s) = Ok d \/ blocks_but_last (blocks s) = []).
  { destruct (col_dates (data s)) as [d|e] eqn:E; [exists d; now left|].
    exists []. right. inversion Hkept as [|index out idxs kept' Hout Hrest]; [reflexivity|].
    subst. rewrite Hnd, bind_ret in Hout. discriminate. }
  destruct Hd as [d Hd]. destruct (Hgen d Hd) as (bd & Hbd1 & Hbd2).
  destruct (kept_blocks_spec nd bd kept Hbd2) as (Hvalid & Hlen & Hsorted).
  split; [exact Hvalid|]. split.
  - rewrite (Forall2_length Hbd1). exact Hlen.
  - intros d' bd' Hd' Hbd' Hs.
    destruct (Hgen d' (or_introl Hd')) as (bd2 & Hb1 & Hb2).
    apply mapM_Forall2 in Hbd'.
    assert (bd2 = bd').
    { clear -Hb1 Hbd'. revert bd' Hbd'.
      induction Hb1 as [|i x l l' Hx Hrest IH]; intros bd' Hbd';
        inversion Hbd'; subst; [reflexivity|].
      f_equal; [congruence | now apply IH]. }
    subst bd2.
    now apply (kept_blocks_spec nd bd' kept Hb2).
Qed.

Lemma interpolate_blocks_valid_example :
  exists starts nd,
    col_dates (data (match interpolate (series 1 [(0, num 1); (10, num 2); (20, num 4)]
                                               (Indices [0; 2; 3])) [5; 10; 15; 30] with
                     | Ok s' => s'
                     | Raise _ => series 1 [] Sentinel
                     end)) = Ok nd /\
    blocks (match interpolate (series 1 [(0, num 1); (10, num 2); (20, num 4)]
                                      (Indices [0; 2; 3])) [5; 10; 15; 30] with
            | Ok s' => s'
            | Raise _ => series 1 [] Sentinel
            end) = Indices (starts ++ [Z.of_nat (length nd)]) /\
    Forall (fun b => 0 <= b < Z.of_nat (length nd)) starts /\
    (length starts <= 2)%nat /\
    (forall d bd, Ok [0; 10; 20] = Ok d ->
                  mapM (py_index d) [0; 2] = Ok bd ->
                  StronglySorted Z.le bd -> StronglySorted Z.le starts).
Proof.
  exact (interpolate_blocks_valid
           (series 1 [(0, num 1); (10, num 2); (20, num 4)] (Indices [0; 2; 3])) _
           [5; 10; 15; 30] eq_refl).
Defined.

(* ================================================================= *)
(** ** Change-only statistics and repeated timestamps *)

Lemma delta_time_cons2 (a b : datetime) (l : list datetime) :
  delta_time (a :: b :: l) = (b - a) :: delta_time (b :: l).
Proof. reflexivity. Qed.

(** Timestamps in chronological order either increase strictly or
    hold two consecutive equal ones; their deltas are not negative. *)
Lemma sorted_le_deltas (l : list datetime) :
  StronglySorted Z.le l ->
  Forall (fun d => 0 <= d) (delta_time l) /\
  (StronglySorted Z.lt l \/ In 0 (delta_time l)).
Proof.
  induction l as [|a l IH]; intros H.
  - split; [constructor | left; constructor].
  - apply StronglySorted_inv in H as [Hl Ha].
    destruct (IH Hl) as [Hpos Hcase]. destruct l as [|b l].
    + split; [constructor | left; repeat constructor].
    + rewrite delta_time_cons2. pose proof (Forall_inv Ha) as Hab.
      split; [constructor; [lia | exact Hpos]|].
      destruct Hcase as [Hlt|H0]; [|right; now right].
      destruct (Z.eq_dec a b) as [->|Hne]; [right; left; lia|].
      left. constructor; [exact Hlt|].
      apply StronglySorted_inv in Hlt as [_ Hb].
      constructor; [lia|]. eapply Forall_impl; [|exact Hb]. simpl. lia.
Qed.

Lemma np_min_zero (l : list Z) :
  Forall (fun d => 0 <= d) l -> In 0 l -> np_min l = Ok 0.
Proof.
  intros Hpos H0. destruct l as [|x l]; [destruct H0|].
  destruct (np_min (x :: l)) as [m|e] eqn:E; [|discriminate].
  destruct (np_min_spec _ _ E) as [Hin Hle].
  rewrite Forall_forall in Hpos.
  specialize (Hpos m Hin). specialize (Hle 0 H0). f_equal. lia.
Qed.

Lemma sorted_lt_NoDup_iff (l : list datetime) :
  StronglySorted Z.le l -> (NoDup l <-> StronglySorted Z.lt l).
Proof.
  intros H. split; [|apply sorted_lt_NoDup].
  induction H as [|a l Hl IH Ha]; intros Hnd; [constructor|].
  inversion Hnd as [|a' l' Hnin Hnd']; subst.
  constructor; [now apply IH|].
  rewrite Forall_forall in *. intros x Hx. specialize (Ha x Hx).
  destruct (Z.eq_dec a x) as [->|Hne]; [contradiction | lia].
Qed.

Section ChangeOnlyRepeats.

Context {ext : External}.

Lemma change_only_stats_zero_delta (times : list datetime) (values : list euvalue)
  (sigma : Z) :
  (2 <= length times)%nat ->
  StronglySorted Z.le times -> In 0 (delta_time times) ->
  change_only_stats times values sigma = Raise ZeroDivisionError.
Proof.
  intros Hlen Hs H0.
  destruct times as [|a [|b l]]; simpl in Hlen; try lia.
  unfold change_only_stats.
  rewrite time_fractions_zero; [reflexivity|].
  apply np_min_zero; [now apply sorted_le_deltas | exact H0].
Qed.

(** X4. On a change-only window of two samples or more in
    chronological order, the statistics are returned exactly when no
    timestamp is repeated: two samples of one timestamp make the
    smallest time delta zero, and the division by it raises. *)
Theorem change_only_stats_repeated_timestamp (times : list datetime)
  (values : list euvalue) (sigma : Z) :
  (2 <= length times)%nat ->
  StronglySorted Z.le times ->
  (NoDup times -> exists r, change_only_stats times values sigma = Ok r) /\
  (~ NoDup times -> change_only_stats times values sigma = Raise ZeroDivisionError).
Proof.
  intros Hlen Hs. split.
  - intros Hnd. apply change_only_stats_sorted. now apply sorted_lt_NoDup_iff.
  - intros Hnd. apply change_only_stats_zero_delta; try assumption.
    destruct (sorted_le_deltas times Hs) as [_ [Hlt|H0]]; [|exact H0].
    exfalso. apply Hnd. now apply sorted_lt_NoDup.
Qed.

End ChangeOnlyRepeats.

Lemma change_only_stats_repeated_timestamp_example :
  (NoDup [0; 10; 10] -> exists r, change_only_stats [0; 10; 10] [num 1; num 2; num 3] 3 = Ok r) /\
  (~ NoDup [0; 10; 10] ->
   change_only_stats [0; 10; 10] [num 1; num 2; num 3] 3 = Raise ZeroDivisionError).
Proof.
  apply (change_only_stats_repeated_timestamp [0; 10; 10] [num 1; num 2; num 3] 3).
  - simpl. lia.
  - repeat constructor; lia.
Defined.

(* ================================================================= *)
(** ** Retrieval *)

Lemma calc_median_time_cons (t : datetime) (l : list datetime) :
  calc_median_time (t :: l) = Ok (t + td_half (last (t :: l) 0 - t)).
Proof.
  unfold calc_median_time.
  change (py_index (t :: l) 0) with (Ok (A := datetime) t).
  rewrite (py_index_last _ _ 0). reflexivity.
Qed.

Section RetrievalProperties.

Context {ext : External}.

(** The constructor on non-empty rows: the data range is recorded and
    the full-range statistics are taken when the first value is a
    number and the metadata has the encoding. *)
Lemma init_rows (ident : string) (st en : option datetime)
  (r0 : datetime * euvalue) (rows : list (datetime * euvalue)) (m : Meta)
  (i : option Info) (b : Blocks) :
  __init__ ident st en (Rows (r0 :: rows)) m i b =
  let self :=
    {| mnemonic_identifier := ident;
       requested_start_time := st; requested_end_time := en;
       data := Rows (r0 :: rows);
       mean := None; median := None; stdev := None; median_times := None;
       meta := m; info := i; blocks := b;
       data_start_time := Some (earliest (r0 :: rows));
       data_end_time := Some (latest (r0 :: rows)) |} in
  if is_number (snd r0) && match m with Some _ => true | None => false end
  then full_stats self 3 else Ok self.
Proof.
  unfold __init__. destruct r0 as [t0 v0].
  simpl table_len. simpl Nat.eqb. cbv iota.
  simpl col_dates. simpl col_euvalues. unfold np_min, np_max. simpl map.
  cbv beta iota delta [bind].
  change (py_index (v0 :: map snd rows) 0) with (Ok (A := euvalue) v0).
  reflexivity.
Qed.

Lemma full_stats_window (s r : EdbMnemonic) (sigma : Z) :
  full_stats s sigma = Ok r ->
  requested_start_time r = requested_start_time s /\
  requested_end_time r = requested_end_time s /\
  data_start_time r = data_start_time s /\ data_end_time r = data_end_time s.
Proof.
  unfold full_stats. intros H.
  apply bind_ok in H as (ap & _ & H).
  apply bind_ok in H as ([[m md] sd] & _ & H).
  apply bind_ok in H as (d & _ & H).
  apply bind_ok in H as (mt & _ & H).
  inversion H; subst. repeat split.
Qed.

(** What the constructor records of the window and of the data
    range. *)
Lemma init_window (ident : string) (st en : option datetime)
  (rows : list (datetime * euvalue)) (m : Meta) (i : option Info) (b : Blocks)
  (r : EdbMnemonic) :
  __init__ ident st en (Rows rows) m i b = Ok r ->
  requested_start_time r = st /\ requested_end_time r = en /\
  data_start_time r = match rows with [] => None | _ => Some (earliest rows) end /\
  data_end_time r = match rows with [] => None | _ => Some (latest rows) end.
Proof.
  destruct rows as [|r0 rows].
  - intros H. inversion H; subst. repeat split.
  - rewrite init_rows. cbv zeta.
    destruct (is_number (snd r0) && match m with Some _ => true | None => false end).
    + intros H. apply full_stats_window in H. exact H.
    + intros H. inversion H; subst. repeat split.
Qed.

(** X5. For a mnemonic stored with all points, [get_mnemonic] returns
    whatever rows the service gives, all numbers or all strings: the
    rows are the service's, unchanged and in its order; the blocks are
    the sentinel; the requested window and the description are
    recorded; the data range is set when there is a row; and the
    full-range statistics are taken exactly when the values are
    numbers. *)
Theorem get_mnemonic_all_points (service : Service) (ident : string)
  (start_time end_time : datetime) (ap : Z) (rows : list (datetime * euvalue)) :
  get_meta service ident = Some ap -> ap <> 0 ->
  get_values service ident start_time end_time false = rows ->
  homogeneous (map snd rows) = true ->
  exists r,
    get_mnemonic service ident start_time end_time = Ok r /\
    data r = Rows rows /\ blocks r = Sentinel /\
    mnemonic_identifier r = ident /\ meta r = Some ap /\
    info r = get_mnemonic_info service ident /\
    requested_start_time r = Some start_time /\
    requested_end_time r = Some end_time /\
    data_start_time r = match rows with [] => None | _ => Some (earliest rows) end /\
    data_end_time r = match rows with [] => None | _ => Some (latest rows) end /\
    mean r = match rows with
             | (_, Num _) :: _ => Some [fst (fst (sigma_clipped_stats (map snd rows) 3))]
             | _ => None
             end.
Proof.
  intros Hmeta Hap Hrows _.
  assert (Hflag : (ap =? 0) = false) by (apply Z.eqb_neq; exact Hap).
  unfold get_mnemonic. rewrite Hmeta. simpl all_points. rewrite bind_ret.
  cbv zeta. rewrite Hflag, Hrows. rewrite bind_ret.
  rewrite table_of_columns_rows by (now rewrite !length_map).
  rewrite combine_fst_snd, bind_ret.
  assert (Hinit : exists r,
             __init__ ident (Some start_time) (Some end_time) (Rows rows) (Some ap)
                      (get_mnemonic_info service ident) Sentinel = Ok r /\
             mean r = match rows with
                      | (_, Num _) :: _ =>
                          Some [fst (fst (sigma_clipped_stats (map snd rows) 3))]
                      | _ => None
                      end).
  { destruct rows as [|[t0 v0] rest]; [eexists; split; reflexivity|].
    rewrite init_rows. cbv zeta. simpl snd. rewrite andb_true_r.
    destruct v0 as [x|s]; simpl is_number; cbv iota; [|eexists; split; reflexivity].
    unfold full_stats. simpl meta. simpl all_points. rewrite bind_ret.
    rewrite Hflag. simpl negb. cbv iota. simpl data. simpl col_euvalues.
    simpl col_dates. rewrite !bind_ret.
    simpl map.
    destruct (sigma_clipped_stats (Num x :: map snd rest) 3) as [[mn md] sd] eqn:E.
    rewrite bind_ret, calc_median_time_cons, bind_ret.
    eexists; split; reflexivity. }
  destruct Hinit as (r & Hr & Hmean). rewrite Hr, bind_ret.
  exists r. split; [reflexivity|].
  destruct (init_frame _ _ _ _ _ _ _ _ Hr) as (Hd & Hb & Hi & Hm & Hinfo).
  destruct (init_window _ _ _ _ _ _ _ _ Hr) as (Hs & He & Hds & Hde).
  repeat (split; [assumption|]). exact Hmean.
Qed.

(** The bounding points of rows. *)
Lemma change_only_bounding_points_rows (rows : list (datetime * euvalue))
  (starttime endtime : datetime) :
  change_only_bounding_points (map fst rows) (map snd rows) starttime endtime
  = Ok (starttime :: map fst (clip_to_window rows starttime endtime) ++ [endtime],
        held_before rows starttime :: map snd (clip_to_window rows starttime endtime) ++
        [held_before rows endtime]).
Proof.
  assert (Hlen : length (map fst rows) = length (map snd rows))
    by now rewrite !length_map.
  unfold change_only_bounding_points, np_where, take.
  pose proof (take_where (fun t => t <? starttime) (map fst rows) (map snd rows) [] Hlen) as Hs.
  pose proof (take_where (fun t => t <? endtime) (map fst rows) (map snd rows) [] Hlen) as He.
  pose proof (take_where (fun t => (t <=? endtime) && (starttime <=? t))
                (map fst rows) (map snd rows) [] Hlen) as Hv.
  pose proof (take_where (fun t => (t <=? endtime) && (starttime <=? t))
                (map fst rows) (map fst rows) [] eq_refl) as Hd.
  simpl in Hs, He, Hv, Hd.
  rewrite (mapM_last _ _ _ (Num nan) Hs), (mapM_last _ _ _ (Num nan) He).
  simpl. rewrite Hd, Hv. simpl.
  rewrite (filter_combine_self (fun t => (t <=? endtime) && (starttime <=? t))).
  rewrite !last_value_map.
  unfold clip_to_window, held_before.
  rewrite <- (filter_combine_fst (fun t => (t <=? endtime) && (starttime <=? t))
                (map fst rows) (map snd rows)) by assumption.
  rewrite !combine_fst_snd. reflexivity.
Qed.

Lemma held_before_number (rows : list (datetime * euvalue)) (t : datetime) :
  Forall (fun r => is_number (snd r) = true) rows ->
  is_number (held_before rows t) = true.
Proof.
  intros H. unfold held_before.
  destruct (last_opt (filter (fun s => fst s <? t) rows)) as [s|] eqn:E; [|reflexivity].
  rewrite Forall_forall in H. apply H.
  assert (Hin : In s (filter (fun s => fst s <? t) rows)).
  { clear -E. induction (filter (fun s => fst s <? t) rows) as [|a l IH]; [discriminate|].
    destruct l as [|b l]; [inversion E; now left|]. right. now apply IH. }
  apply filter_In in Hin. tauto.
Qed.

Lemma map_fst_combine_eq {A B : Type} (l : list A) (l' : list B) :
  length l = length l' -> map fst (combine l l') = l /\ map snd (combine l l') = l'.
Proof.
  revert l'; induction l as [|a l IH]; intros [|b l'] H; simpl in *; try discriminate.
  - split; reflexivity.
  - destruct (IH l') as [H1 H2]; [congruence|]. now rewrite H1, H2.
Qed.

(** The dates [get_mnemonic] hands to the constructor for change-only
    data are in chronological order when the service's are. *)
Lemma bounded_dates_sorted (rows : list (datetime * euvalue))
  (starttime endtime : datetime) :
  StronglySorted Z.le (map fst rows) -> starttime <= endtime ->
  StronglySorted Z.le
    (starttime :: map fst (clip_to_window rows starttime endtime) ++ [endtime]).
Proof.
  intros Hs Hle. unfold clip_to_window.
  assert (Hin : forall x, In x (map fst (filter (fun s => (fst s <=? endtime) &&
                                                            (starttime <=? fst s)) rows)) ->
                          starttime <= x <= endtime).
  { intros x Hx. apply in_map_iff in Hx as (r & <- & Hr).
    apply filter_In in Hr as [_ Hr]. apply andb_prop in Hr as [H1 H2].
    apply Z.leb_le in H1, H2. lia. }
  constructor.
  - induction rows as [|r rows IH]; [repeat constructor|].
    simpl map in Hs. apply StronglySorted_inv in Hs as [Hs Hr].
    simpl filter.
    destruct ((fst r <=? endtime) && (starttime <=? fst r)) eqn:E.
    + simpl. constructor.
      * apply IH; [exact Hs|]. intros x Hx. apply Hin. simpl. rewrite E. now right.
      * apply Forall_app. split.
        -- rewrite Forall_forall in *. intros x Hx. apply Hr.
           apply in_map_iff in Hx as (q & <- & Hq). apply filter_In in Hq as [Hq _].
           now apply in_map.
        -- constructor; [|constructor]. apply andb_prop in E as [E _].
           now apply Z.leb_le in E.
    + apply IH; [exact Hs|]. intros x Hx. apply Hin. simpl. now rewrite E.
  - apply Forall_app. split.
    + rewrite Forall_forall. intros x Hx. now apply Hin.
    + constructor; [exact Hle | constructor].
Qed.

(** X6. For a mnemonic stored as change-only data whose values are
    numbers and whose samples come in chronological order,
    [get_mnemonic] raises a [ZeroDivisionError] when a sample lies
    exactly at the requested start or end, or when the window is a
    single instant: the bounding point put at that time repeats the
    timestamp, and the constructor's statistics divide by the smallest
    time between consecutive samples. *)
Theorem get_mnemonic_sample_on_boundary_raises (service : Service) (ident : string)
  (start_time end_time : datetime) (rows : list (datetime * euvalue)) :
  get_meta service ident = Some 0 ->
  get_values service ident start_time end_time true = rows ->
  StronglySorted Z.le (map fst rows) ->
  Forall (fun r => is_number (snd r) = true) rows ->
  start_time <= end_time ->
  start_time = end_time \/ In start_time (map fst rows) \/ In end_time (map fst rows) ->
  get_mnemonic service ident start_time end_time = Raise ZeroDivisionError.
Proof.
  intros Hmeta Hrows Hs Hnum Hle Hon.
  unfold get_mnemonic. rewrite Hmeta. simpl all_points. rewrite bind_ret.
  cbv zeta. rewrite Z.eqb_refl, Hrows.
  rewrite change_only_bounding_points_rows, bind_ret.
  set (clipped := clip_to_window rows start_time end_time).
  assert (Hlen : length (start_time :: map fst clipped ++ [end_time])
                 = length (held_before rows start_time :: map snd clipped ++
                           [held_before rows end_time]))
    by (simpl; rewrite !length_app, !length_map; reflexivity).
  rewrite (table_of_columns_rows _ _ Hlen), bind_ret.
  destruct (map_fst_combine_eq _ _ Hlen) as [Hfst Hsnd].
  change (combine (start_time :: map fst clipped ++ [end_time])
                  (held_before rows start_time :: map snd clipped ++
                   [held_before rows end_time]))
    with ((start_time, held_before rows start_time)
            :: combine (map fst clipped ++ [end_time])
                       (map snd clipped ++ [held_before rows end_time])) in *.
  rewrite init_rows. cbv zeta. simpl snd.
  rewrite (held_before_number rows start_time Hnum). simpl andb. cbv iota.
  unfold full_stats. simpl meta. simpl all_points. rewrite bind_ret.
  simpl negb. cbv iota. simpl data. unfold col_dates, col_euvalues.
  rewrite Hfst, Hsnd, !bind_ret.
  rewrite change_only_stats_zero_delta; [reflexivity | simpl; rewrite length_app; simpl; lia | |].
  - now apply bounded_dates_sorted.
  - destruct (sorted_le_deltas _ (bounded_dates_sorted rows start_time end_time Hs Hle))
      as [_ [Hlt|H0]]; [|exact H0].
    exfalso. fold clipped in Hlt.
    apply sorted_lt_NoDup in Hlt. apply NoDup_cons_iff in Hlt as [Hnin Hnd].
    assert (Hclip : forall t, In t (map fst rows) -> start_time <= t <= end_time ->
                              In t (map fst clipped)).
    { intros t Ht Hin. apply in_map_iff in Ht as (r & <- & Hr).
      apply in_map. apply filter_In. split; [exact Hr|].
      apply andb_true_intro. split; apply Z.leb_le; lia. }
    destruct Hon as [Heq|[Hst|Hen]].
    + apply Hnin. apply in_or_app. right. left. now symmetry.
    + apply Hnin. apply in_or_app. left. apply Hclip; [exact Hst | lia].
    + apply NoDup_remove_2 in Hnd. apply Hnd. rewrite app_nil_r.
      apply Hclip; [exact Hen | lia].
Qed.

End RetrievalProperties.

Lemma get_mnemonic_all_points_example :
  exists r,
    get_mnemonic (constant_service 1 [(0, num 1); (10, Num nan)]) "M" 5 20 = Ok r /\
    data r = Rows [(0, num 1); (10, Num nan)] /\ blocks r = Sentinel /\
    mnemonic_identifier r = "M"%string /\ meta r = Some 1 /\
    info r = None /\
    requested_start_time r = Some 5 /\
    requested_end_time r = Some 20 /\
    data_start_time r = Some 0 /\
    data_end_time r = Some 10 /\
    mean r = Some [fst (fst (sigma_clipped_stats [num 1; Num nan] 3))].
Proof.
  refine (get_mnemonic_all_points (constant_service 1 [(0, num 1); (10, Num nan)])
            "M" 5 20 1 [(0, num 1); (10, Num nan)] eq_refl _ eq_refl eq_refl).
  discriminate.
Defined.

Lemma get_mnemonic_sample_on_boundary_raises_example :
  get_mnemonic (constant_service 0 [(0, num 1); (5, num 2); (10, num 3)]) "M" 5 20
  = Raise ZeroDivisionError.
Proof.
  apply (get_mnemonic_sample_on_boundary_raises
           (constant_service 0 [(0, num 1); (5, num 2); (10, num 3)]) "M" 5 20
           [(0, num 1); (5, num 2); (10, num 3)]).
  - reflexivity.
  - reflexivity.
  - simpl. repeat (constructor; try lia).
  - repeat constructor.
  - lia.
  - right. left. simpl. tauto.
Defined.

(* ================================================================= *)
(** ** Addition: order of the operands, window and data range *)

Lemma earliest_spec (rows : list (datetime * euvalue)) :
  rows <> [] ->
  In (earliest rows) (map fst rows) /\
  forall t, In t (map fst rows) -> earliest rows <= t.
Proof.
  intros H. destruct rows as [|r rows]; [contradiction|].
  apply np_min_spec. apply np_min_earliest.
Qed.

Lemma latest_spec (rows : list (datetime * euvalue)) :
  rows <> [] ->
  In (latest rows) (map fst rows) /\
  forall t, In t (map fst rows) -> t <= latest rows.
Proof.
  intros H. destruct rows as [|r rows]; [contradiction|].
  apply np_max_spec. reflexivity.
Qed.

Lemma merged_rows_In (all : list (datetime * euvalue)) (t : datetime) :
  In t (map fst (merged_rows all)) <-> In t (map fst all).
Proof.
  rewrite merged_rows_dates.
  destruct (unique_pairs_spec (map fst all)) as (_ & Hsound & Hcomplete).
  split; [|apply Hcomplete].
  intros H. apply in_map_iff in H as ([t' i] & Ht & Hin). simpl in Ht. subst t'.
  destruct (Hsound t i Hin) as (_ & Hnth & _).
  eapply nth_error_In. exact Hnth.
Qed.

Lemma earlier_then_later_In (ra rb : list (datetime * euvalue)) (t : datetime) :
  In t (map fst (earlier_then_later ra rb)) <-> In t (map fst ra) \/ In t (map fst rb).
Proof.
  unfold earlier_then_later. destruct (earliest ra <? earliest rb);
    rewrite map_app, in_app_iff; tauto.
Qed.

Lemma earlier_then_later_comm (ra rb : list (datetime * euvalue)) :
  earliest ra <> earliest rb ->
  earlier_then_later ra rb = earlier_then_later rb ra /\
  (earliest rb <? earliest ra) = negb (earliest ra <? earliest rb).
Proof.
  intros H. unfold earlier_then_later.
  destruct (earliest ra <? earliest rb) eqn:E1, (earliest rb <? earliest ra) eqn:E2;
    try (split; reflexivity).
  - apply Z.ltb_lt in E1, E2. lia.
  - apply Z.ltb_ge in E1, E2. lia.
Qed.

Section AdditionOrder.

Context {ext : External}.

(** X7. The sum of two non-empty series of one identifier that start
    at different times has the same samples and the same blocks
    whichever operand is on the left. *)
Theorem add_commutes_on_samples (a b r r' : EdbMnemonic)
  (ra rb : list (datetime * euvalue)) :
  mnemonic_identifier a = mnemonic_identifier b ->
  data a = Rows ra -> ra <> [] ->
  data b = Rows rb -> rb <> [] ->
  earliest ra <> earliest rb ->
  __add__ a b = Ok r -> __add__ b a = Ok r' ->
  data r = data r' /\ blocks r = blocks r'.
Proof.
  intros Hid Ha Hra Hb Hrb Hne Hab Hba.
  rewrite (add_nonempty a b ra rb Hid Ha Hra Hb Hrb) in Hab.
  rewrite (add_nonempty b a rb ra (eq_sym Hid) Hb Hrb Ha Hra) in Hba.
  cbv zeta in Hab, Hba.
  destruct (earlier_then_later_comm ra rb Hne) as [Hall Hflip].
  rewrite <- Hall, Hflip in Hba.
  apply bind_ok in Hab as (nb & Hnb & Hab).
  apply bind_ok in Hba as (nb' & Hnb' & Hba).
  assert (nb = nb').
  { destruct (earliest ra <? earliest rb); simpl negb in Hnb'; cbv iota in Hnb'; congruence. }
  subst nb'.
  apply init_frame in Hab as (Hd & Hbl & _). apply init_frame in Hba as (Hd' & Hbl' & _).
  split; congruence.
Qed.

(** X8. The sum of two non-empty series keeps the identifier,
    metadata and description of the left operand and takes as its
    requested window the data range of the left operand, while its own
    data range runs from the earlier of the two first timestamps to the
    later of the two last ones. *)
Theorem add_window (a b r : EdbMnemonic) (ra rb : list (datetime * euvalue)) :
  mnemonic_identifier a = mnemonic_identifier b ->
  data a = Rows ra -> ra <> [] ->
  data b = Rows rb -> rb <> [] ->
  __add__ a b = Ok r ->
  requested_start_time r = data_start_time a /\
  requested_end_time r = data_end_time a /\
  mnemonic_identifier r = mnemonic_identifier a /\
  meta r = meta a /\ info r = info a /\
  data_start_time r = Some (Z.min (earliest ra) (earliest rb)) /\
  data_end_time r = Some (Z.max (latest ra) (latest rb)).
Proof.
  intros Hid Ha Hra Hb Hrb Hab.
  rewrite (add_nonempty a b ra rb Hid Ha Hra Hb Hrb) in Hab. cbv zeta in Hab.
  apply bind_ok in Hab as (nb & _ & Hab).
  destruct (init_frame _ _ _ _ _ _ _ _ Hab) as (_ & _ & Hi & Hm & Hinfo).
  destruct (init_window _ _ _ _ _ _ _ _ Hab) as (Hs & He & Hds & Hde).
  repeat (split; [assumption|]).
  set (all := earlier_then_later ra rb) in *.
  assert (Hmerged : merged_rows all <> []).
  { destruct ra as [|[t v] ra]; [contradiction|].
    intros Hnil.
    assert (Hin : In t (map fst (merged_rows all))).
    { apply merged_rows_In. apply earlier_then_later_In. left. now left. }
    rewrite Hnil in Hin. destruct Hin. }
  destruct (earliest_spec _ Hra) as [Ha1 Ha2]. destruct (earliest_spec _ Hrb) as [Hb1 Hb2].
  destruct (latest_spec _ Hra) as [Ha3 Ha4]. destruct (latest_spec _ Hrb) as [Hb3 Hb4].
  destruct (earliest_spec _ Hmerged) as [Hm1 Hm2].
  destruct (latest_spec _ Hmerged) as [Hm3 Hm4].
  assert (Hto : forall t, In t (map fst (merged_rows all)) <->
                          In t (map fst ra) \/ In t (map fst rb)).
  { intros t. rewrite merged_rows_In. apply earlier_then_later_In. }
  destruct (merged_rows all) as [|m0 ms] eqn:Em; [contradiction|].
  rewrite Hds, Hde. rewrite <- Em in *. split; f_equal.
  - apply Hto in Hm1.
    pose proof (Hm2 _ (proj2 (Hto _) (or_introl Ha1))).
    pose proof (Hm2 _ (proj2 (Hto _) (or_intror Hb1))).
    destruct Hm1 as [Hm1|Hm1]; [specialize (Ha2 _ Hm1) | specialize (Hb2 _ Hm1)]; lia.
  - apply Hto in Hm3.
    pose proof (Hm4 _ (proj2 (Hto _) (or_introl Ha3))).
    pose proof (Hm4 _ (proj2 (Hto _) (or_intror Hb3))).
    destruct Hm3 as [Hm3|Hm3]; [specialize (Ha4 _ Hm3) | specialize (Hb4 _ Hm3)]; lia.
Qed.

End AdditionOrder.

Lemma add_commutes_on_samples_example :
  data (sum_of early_example late_example) = data (sum_of late_example early_example) /\
  blocks (sum_of early_example late_example) = blocks (sum_of late_example early_example).
Proof.
  apply (add_commutes_on_samples early_example late_example
           (sum_of early_example late_example) (sum_of late_example early_example)
           [(1, num 10); (2, num 20); (3, num 30)]
           [(3, num 31); (4, num 40); (5, num 50)]).
  - reflexivity.
  - reflexivity.
  - discriminate.
  - reflexivity.
  - discriminate.
  - vm_compute. discriminate.
  - vm_compute. reflexivity.
  - vm_compute. reflexivity.
Defined.

Lemma add_window_example :
  requested_start_time (sum_of late_example early_example) = data_start_time late_example /\
  requested_end_time (sum_of late_example early_example) = data_end_time late_example /\
  mnemonic_identifier (sum_of late_example early_example) = mnemonic_identifier late_example /\
  meta (sum_of late_example early_example) = meta late_example /\
  info (sum_of late_example early_example) = info late_example /\
  data_start_time (sum_of late_example early_example) = Some 1 /\
  data_end_time (sum_of late_example early_example) = Some 5.
Proof.
  apply (add_window late_example early_example (sum_of late_example early_example)
           [(3, num 31); (4, num 40); (5, num 50)]
           [(1, num 10); (2, num 20); (3, num 30)]).
  - reflexivity.
  - reflexivity.
  - discriminate.
  - reflexivity.
  - discriminate.
  - vm_compute. reflexivity.
Defined.

(* ================================================================= *)
(** ** Daily statistics *)

Lemma nth_error_range (n k : nat) : (k < n)%nat -> nth_error (range n) k = Some (Z.of_nat k).
Proof.
  intros H. unfold range. rewrite nth_error_map, nth_error_seq.
  apply Nat.ltb_lt in H. rewrite H. reflexivity.
Qed.

(** The limits of the daily windows: [f 0 .. f (n-1)] and a last one. *)
Lemma limits_index (f : Z -> datetime) (n : nat) (x : datetime) (i : Z) :
  0 <= i < Z.of_nat n ->
  py_index (map f (range n) ++ [x]) i = Ok (f i) /\
  py_index (map f (range n) ++ [x]) (i + 1)
  = Ok (if i + 1 <? Z.of_nat n then f (i + 1) else x).
Proof.
  intros Hi.
  assert (Hnth : forall k, (k < n)%nat ->
            py_index (map f (range n) ++ [x]) (Z.of_nat k) = Ok (f (Z.of_nat k))).
  { intros k Hk. apply py_index_nth_error.
    rewrite nth_error_app1 by (rewrite length_map; unfold range;
                               rewrite length_map, length_seq; exact Hk).
    rewrite nth_error_map, nth_error_range by exact Hk. reflexivity. }
  split.
  - rewrite <- (Z2Nat.id i) by lia. apply Hnth. lia.
  - destruct (i + 1 <? Z.of_nat n) eqn:E.
    + apply Z.ltb_lt in E. rewrite <- (Z2Nat.id (i + 1)) by lia. apply Hnth. lia.
    + apply Z.ltb_ge in E. replace (i + 1) with (Z.of_nat (length (map f (range n)))).
      * apply py_index_app_here.
      * rewrite length_map. unfold range. rewrite length_map, length_seq. lia.
Qed.

Section DailyStatistics.

Context {ext : External}.

(** X9. On an all-points series with at least one sample the daily
    statistics are the sigma-clipped statistics of the samples of each
    daily window, with the middle of the window as its time.  There is
    one window per day begun between the first and the last timestamp,
    and no window holds a sample at the last timestamp: the latest
    samples enter no statistic. *)
Theorem daily_stats_windows (s : EdbMnemonic) (rows : list (datetime * euvalue))
  (ap sigma : Z) :
  data s = Rows rows -> rows <> [] ->
  meta s = Some ap -> ap <> 0 ->
  let ws := daily_windows (earliest rows) (latest rows) in
  let stats := fun w => sigma_clipped_stats (map snd (filter (in_window w) rows)) sigma in
  daily_stats s sigma
  = Ok (with_stats s (map (fun w => fst (fst (stats w))) ws)
                     (map (fun w => snd (fst (stats w))) ws)
                     (map (fun w => snd (stats w)) ws)
                     (map (fun w => fst w + td_half (snd w - fst w)) ws)) /\
  length ws = Z.to_nat ((latest rows - earliest rows) / day + 1) /\
  (forall w r, In w ws -> In r rows -> fst r = latest rows -> in_window w r = false).
Proof.
  intros Hdata Hne Hmeta Hap ws stats.
  assert (Hflag : (ap =? 0) = false) by (apply Z.eqb_neq; exact Hap).
  destruct (earliest_spec rows Hne) as [Hlo1 Hlo2].
  destruct (latest_spec rows Hne) as [Hhi1 Hhi2].
  assert (Hspan : 0 <= (latest rows - earliest rows) / day).
  { apply Z.div_pos; [|unfold day; lia]. specialize (Hlo2 _ Hhi1). lia. }
  split; [|split].
  - unfold daily_stats. rewrite Hdata. simpl col_dates. rewrite bind_ret.
    assert (Hmin : np_min (map fst rows) = Ok (earliest rows))
      by (destruct rows; [contradiction | reflexivity]).
    assert (Hmax : np_max (map fst rows) = Ok (latest rows))
      by (destruct rows; [contradiction | reflexivity]).
    rewrite Hmin, Hmax, !bind_ret. cbv zeta.
    set (n := Z.to_nat ((latest rows - earliest rows) / day + 1)).
    set (f := fun x => earliest rows + x * day).
    set (limits := map f (range n) ++ [latest rows]).
    assert (Hlen : (length limits - 1 = n)%nat).
    { unfold limits, range. rewrite length_app, !length_map, length_seq. simpl. lia. }
    rewrite Hlen.
    rewrite (mapM_ext_ok _
               (fun i => let w := (f i, if i + 1 <? Z.of_nat n then f (i + 1) else latest rows) in
                         (stats w, fst w + td_half (snd w - fst w)))).
    + rewrite bind_ret. unfold ws, daily_windows. cbv zeta.
      fold n. replace ((latest rows - earliest rows) / day + 1) with (Z.of_nat n)
        by (unfold n; lia).
      fold f. rewrite !map_map. simpl. reflexivity.
    + intros i Hi. apply in_range in Hi.
      destruct (limits_index f n (latest rows) i Hi) as [H1 H2]. fold limits in H1, H2.
      rewrite H1, H2, !bind_ret. rewrite Hmeta. simpl all_points. rewrite bind_ret.
      rewrite Hflag. simpl negb. cbv iota. simpl col_euvalues. rewrite bind_ret.
      pose proof (take_where
                    (fun t => (f i <=? t) &&
                              (t <? (if i + 1 <? Z.of_nat n then f (i + 1) else latest rows)))
                    (map fst rows) (map snd rows) []) as Ht.
      simpl in Ht. unfold take, np_where. rewrite Ht by (now rewrite !length_map).
      rewrite combine_fst_snd, bind_ret. cbv zeta. unfold stats, in_window. simpl fst. simpl snd.
      destruct (sigma_clipped_stats _ sigma) as [[avg med] dev]. reflexivity.
  - unfold ws, daily_windows. cbv zeta. unfold range.
    now rewrite !length_map, length_seq.
  - intros w r Hw Hr Hlast. unfold ws, daily_windows in Hw. cbv zeta in Hw.
    apply in_map_iff in Hw as (i & <- & Hi). apply in_range in Hi.
    unfold in_window. simpl fst. simpl snd. apply andb_false_iff. right.
    apply Z.ltb_ge. rewrite Hlast.
    destruct (i + 1 <? (latest rows - earliest rows) / day + 1) eqn:E; [|lia].
    apply Z.ltb_lt in E.
    assert (Hd : day * ((latest rows - earliest rows) / day) <= latest rows - earliest rows)
      by (apply Z.mul_div_le; unfold day; lia).
    assert (Hi1 : (i + 1) * day <= day * ((latest rows - earliest rows) / day))
      by (unfold day in *; nia).
    lia.
Qed.

End DailyStatistics.

Lemma daily_stats_windows_example :
  daily_stats (series 1 [(0, num 1); (day, num 2); (day + 5, num 3)] Sentinel) 3
  = Ok (with_stats (series 1 [(0, num 1); (day, num 2); (day + 5, num 3)] Sentinel)
          [fst (fst (sigma_clipped_stats [num 1] 3));
           fst (fst (sigma_clipped_stats [num 2] 3))]
          [snd (fst (sigma_clipped_stats [num 1] 3));
           snd (fst (sigma_clipped_stats [num 2] 3))]
          [snd (sigma_clipped_stats [num 1] 3); snd (sigma_clipped_stats [num 2] 3)]
          [43200000000; 86400000002]) /\
  length (daily_windows 0 (day + 5)) = 2%nat /\
  (forall w r, In w (daily_windows 0 (day + 5)) ->
               In r [(0, num 1); (day, num 2); (day + 5, num 3)] ->
               fst r = day + 5 -> in_window w r = false).
Proof.
  apply (daily_stats_windows (series 1 [(0, num 1); (day, num 2); (day + 5, num 3)] Sentinel)
           [(0, num 1); (day, num 2); (day + 5, num 3)] 1 3).
  - reflexivity.
  - discriminate.
  - reflexivity.
  - discriminate.
Defined.

(* ================================================================= *)
(** ** Fixed-duration statistics *)

Lemma mapM_raise {A B : Type} (f : A -> result B) (e : exn) (l : list A) :
  (forall a, In a l -> f a = Raise e \/ exists b, f a = Ok b) ->
  (exists a, In a l /\ f a = Raise e) ->
  mapM f l = Raise e.
Proof.
  induction l as [|a l IH]; intros Hall (x & Hx & Hfx); [destruct Hx|].
  simpl. destruct (Hall a (or_introl eq_refl)) as [Ha|[b Hb]].
  - now rewrite Ha.
  - rewrite Hb, bind_ret. rewrite IH; [reflexivity | |].
    + intros y Hy. apply Hall. now right.
    + destruct Hx as [->|Hx]; [congruence|]. now exists x.
Qed.

Lemma filter_map_fst (p : Z -> bool) (rows : list (datetime * euvalue)) :
  filter p (map fst rows) = map fst (filter (fun r => p (fst r)) rows).
Proof.
  induction rows as [|r rows IH]; simpl; [reflexivity|].
  destruct (p (fst r)); simpl; now rewrite IH.
Qed.

Section TimedStatistics.

Context {ext : External}.

(** One bin of [timed_stats] on all-points rows: the statistics of the
    samples inside, or an [IndexError] from the median time when there
    is none. *)
Lemma timed_stats_bin (s : EdbMnemonic) (r0 : datetime * euvalue)
  (rows : list (datetime * euvalue)) (ap sigma : Z) (lo hi : datetime) :
  data s = Rows (r0 :: rows) -> meta s = Some ap -> ap <> 0 ->
  (good <- Ok (np_where (fun t => (lo <=? t) && (t <? hi)) (map fst (r0 :: rows))) ;;
   ap <- all_points (meta s) ;;
   v <- col_euvalues (data s) ;;
   vg <- take v good ;;
   dg <- take (map fst (r0 :: rows)) good ;;
   '(avg, med, dev) <-
     (if negb (ap =? 0) then Ok (sigma_clipped_stats vg sigma)
      else change_only_stats dg vg sigma) ;;
   medtime <- calc_median_time dg ;;
   Ok (avg, med, dev, medtime))
  = match filter (in_window (lo, hi)) (r0 :: rows) with
    | [] => Raise IndexError
    | q :: qs =>
        Ok (sigma_clipped_stats (map snd (q :: qs)) sigma,
            fst q + td_half (last (map fst (q :: qs)) 0 - fst q))
    end.
Proof.
  intros Hdata Hmeta Hap.
  assert (Hflag : (ap =? 0) = false) by (apply Z.eqb_neq; exact Hap).
  rewrite bind_ret, Hmeta. simpl all_points. rewrite bind_ret, Hdata.
  simpl col_euvalues. rewrite bind_ret.
  pose proof (take_where (fun t => (lo <=? t) && (t <? hi))
                (map fst (r0 :: rows)) (map snd (r0 :: rows)) []) as Hv.
  pose proof (take_where (fun t => (lo <=? t) && (t <? hi))
                (map fst (r0 :: rows)) (map fst (r0 :: rows)) [] eq_refl) as Hd.
  unfold take, np_where. change (Z.of_nat (length (@nil euvalue))) with 0 in Hv.
  change (Z.of_nat (length (@nil Z))) with 0 in Hd.
  rewrite app_nil_l in Hv, Hd.
  change (snd r0 :: map snd rows) with (map snd (r0 :: rows)).
  rewrite Hv by (now rewrite !length_map). rewrite bind_ret, Hd, bind_ret.
  rewrite combine_fst_snd.
  rewrite (filter_combine_self (fun t => (lo <=? t) && (t <? hi))), filter_map_fst.
  rewrite Hflag. simpl negb. cbv iota.
  change (fun r : Z * euvalue => (lo <=? fst r) && (fst r <? hi)) with (in_window (lo, hi)).
  change (fun s0 : Z * euvalue => (lo <=? fst s0) && (fst s0 <? hi)) with (in_window (lo, hi)).
  destruct (filter (in_window (lo, hi)) (r0 :: rows)) as [|q qs].
  - simpl map. rewrite bind_ret.
    destruct (sigma_clipped_stats [] sigma) as [[avg med] dev]. reflexivity.
  - rewrite bind_ret.
    destruct (sigma_clipped_stats (map snd (q :: qs)) sigma) as [[avg med] dev].
    simpl map. rewrite calc_median_time_cons. reflexivity.
Qed.

Lemma mapM_through {A B C : Type} (f : A -> result C) (g : A -> result B)
  (h : B -> result C) (l : list A) (bs : list B) :
  mapM g l = Ok bs ->
  (forall a b, g a = Ok b -> f a = h b) ->
  mapM f l = mapM h bs.
Proof.
  intros Hg Hf. revert bs Hg. induction l as [|a l IH]; intros bs Hg; simpl in Hg.
  - inversion Hg. reflexivity.
  - apply bind_ok in Hg as (b & Hb & Hg). apply bind_ok in Hg as (bs' & Hbs & Hg).
    inversion Hg; subst. simpl. rewrite (Hf a b Hb), (IH bs' Hbs). reflexivity.
Qed.

(** X10. On an all-points series with at least one sample the
    fixed-duration statistics cut the bins that the float arithmetic
    of the method gives: as many as the span in seconds over the
    duration, rounded up, counted from the timestamp of the first row.
    When every bin holds a sample the statistics of each bin are the
    sigma-clipped statistics of its samples; when some bin holds none
    (a gap of the data, or bins that start off the earliest timestamp)
    the method raises an [IndexError]. *)
Theorem timed_stats_bins (s : EdbMnemonic) (r0 : datetime * euvalue)
  (rows : list (datetime * euvalue)) (ap sigma : Z) (duration : float)
  (bins : list (datetime * datetime)) :
  data s = Rows (r0 :: rows) -> meta s = Some ap -> ap <> 0 ->
  timed_bins (r0 :: rows) duration = Ok bins ->
  let inside := fun w => filter (in_window w) (r0 :: rows) in
  (Forall (fun w => inside w <> []) bins ->
   exists r,
     timed_stats s duration sigma = Ok r /\
     mean r = Some (map (fun w => fst (fst (sigma_clipped_stats (map snd (inside w)) sigma))) bins) /\
     median r = Some (map (fun w => snd (fst (sigma_clipped_stats (map snd (inside w)) sigma))) bins) /\
     stdev r = Some (map (fun w => snd (sigma_clipped_stats (map snd (inside w)) sigma)) bins)) /\
  (Exists (fun w => inside w = []) bins ->
   timed_stats s duration sigma = Raise IndexError).
Proof.
  intros Hdata Hmeta Hap Hbins inside.
  unfold timed_bins in Hbins.
  apply bind_ok in Hbins as (n & Hn & Hbins).
  pose (stats_of := fun w : datetime * datetime =>
          match inside w with
          | [] => Raise IndexError
          | q :: qs =>
              Ok (sigma_clipped_stats (map snd (q :: qs)) sigma,
                  fst q + td_half (last (map fst (q :: qs)) 0 - fst q))
          end).
  assert (Hbin : forall i w, (timed_bin (fst r0) duration i = Ok w) ->
    (d0 <- py_index (map fst (r0 :: rows)) 0 ;;
     offset <- timedelta_of_seconds (fmul (float_of_int i) duration) ;;
     min_date <- datetime_add d0 offset ;;
     width <- timedelta_of_seconds duration ;;
     max_date <- datetime_add min_date width ;;
     let good := np_where (fun t => (min_date <=? t) && (t <? max_date)) (map fst (r0 :: rows)) in
     ap <- all_points (meta s) ;;
     v <- col_euvalues (data s) ;;
     vg <- take v good ;;
     dg <- take (map fst (r0 :: rows)) good ;;
     '(avg, med, dev) <-
       (if negb (ap =? 0) then Ok (sigma_clipped_stats vg sigma)
        else change_only_stats dg vg sigma) ;;
     medtime <- calc_median_time dg ;;
     Ok (avg, med, dev, medtime))
    = stats_of w).
  { intros i w Hw. unfold timed_bin in Hw.
    apply bind_ok in Hw as (offset & Hoffset & Hw).
    apply bind_ok in Hw as (min_date & Hmin & Hw).
    apply bind_ok in Hw as (width & Hwidth & Hw).
    apply bind_ok in Hw as (max_date & Hmax & Hw).
    inversion Hw; subst w; clear Hw.
    change (py_index (map fst (r0 :: rows)) 0) with (Ok (A := datetime) (fst r0)).
    rewrite bind_ret, Hoffset, bind_ret, Hmin, bind_ret, Hwidth, bind_ret, Hmax, bind_ret.
    cbv zeta.
    exact (timed_stats_bin s r0 rows ap sigma _ _ Hdata Hmeta Hap). }
  unfold timed_stats. rewrite Hdata. simpl col_dates. rewrite bind_ret.
  change (np_max (fst r0 :: map fst rows)) with (Ok (A := Z) (latest (r0 :: rows))).
  change (np_min (fst r0 :: map fst rows)) with (Ok (A := Z) (earliest (r0 :: rows))).
  rewrite !bind_ret. cbv zeta.
  unfold bin_count in Hn. rewrite Hn, bind_ret.
  change (fst r0 :: map fst rows) with (map fst (r0 :: rows)).
  rewrite (mapM_through _ (timed_bin (fst r0) duration) stats_of _ bins Hbins)
    by (intros i w Hw; pose proof (Hbin i w Hw) as E; rewrite Hdata in E; exact E).
  split.
  - intros Hall. rewrite Forall_forall in Hall.
    rewrite (mapM_ext_ok _
               (fun w => (sigma_clipped_stats (map snd (inside w)) sigma,
                          match inside w with
                          | [] => 0
                          | q :: qs => fst q + td_half (last (map fst (q :: qs)) 0 - fst q)
                          end))).
    + rewrite bind_ret. eexists. split; [reflexivity|].
      simpl. rewrite !map_map. split; [|split]; reflexivity.
    + intros w Hw. unfold stats_of. specialize (Hall w Hw).
      destruct (inside w); [contradiction | reflexivity].
  - intros Hex. apply Exists_exists in Hex as (w & Hw & Hempty).
    rewrite (mapM_raise _ IndexError); [reflexivity | |].
    + intros u _. unfold stats_of.
      destruct (inside u); [left; reflexivity | right; eexists; reflexivity].
    + exists w. split; [exact Hw|]. unfold stats_of. now rewrite Hempty.
Qed.

End TimedStatistics.

Lemma timed_stats_bins_example :
  (exists r,
     timed_stats (series 1 tenths_example Sentinel) seven_tenths 3 = Ok r /\
     mean r = Some (map (fun w => fst (fst (sigma_clipped_stats
                       (map snd (filter (in_window w) tenths_example)) 3)))
                    [(0, 700000); (700000, 1400000); (1400000, 2100000);
                     (2100000, 2800000)]) /\
     median r = Some (map (fun w => snd (fst (sigma_clipped_stats
                       (map snd (filter (in_window w) tenths_example)) 3)))
                    [(0, 700000); (700000, 1400000); (1400000, 2100000);
                     (2100000, 2800000)]) /\
     stdev r = Some (map (fun w => snd (sigma_clipped_stats
                       (map snd (filter (in_window w) tenths_example)) 3))
                    [(0, 700000); (700000, 1400000); (1400000, 2100000);
                     (2100000, 2800000)])) /\
  timed_stats (series 1 [(0, num 1); (2500000, num 2); (3000000, num 3)] Sentinel)
              (float_of_int 1) 3
  = Raise IndexError.
Proof.
  split.
  - apply (timed_stats_bins (series 1 tenths_example Sentinel)
             (0, num 1) [(700000, num 2); (1400000, num 3); (2100000, num 4)] 1 3
             seven_tenths
             [(0, 700000); (700000, 1400000); (1400000, 2100000); (2100000, 2800000)]
             eq_refl eq_refl).
    + discriminate.
    + vm_compute. reflexivity.
    + repeat constructor; discriminate.
  - apply (timed_stats_bins
             (series 1 [(0, num 1); (2500000, num 2); (3000000, num 3)] Sentinel)
             (0, num 1) [(2500000, num 2); (3000000, num 3)] 1 3 (float_of_int 1)
             [(0, 1000000); (1000000, 2000000); (2000000, 3000000)]
             eq_refl eq_refl).
    + discriminate.
    + vm_compute. reflexivity.
    + apply Exists_cons_tl, Exists_cons_hd. reflexivity.
Defined.

(* ================================================================= *)
(** ** Statistics per block *)

Lemma py_slice_map {A B : Type} (f : A -> B) (l : list A) (lo hi : option Z) :
  py_slice (map f l) lo hi = map f (py_slice l lo hi).
Proof.
  unfold py_slice. rewrite length_map. cbv zeta.
  now rewrite skipn_map, firstn_map.
Qed.

Lemma blocks_but_last_firstn (l : list Z) :
  blocks_but_last (Indices l) = firstn (length l - 1) l.
Proof.
  unfold blocks_but_last, py_slice, slice_bound. cbv zeta.
  change (if 0 <? 0 then 0 + Z.of_nat (length l) else 0) with 0.
  change (-1 <? 0) with true. cbv iota.
  replace (Z.to_nat (Z.max 0 (Z.min (Z.of_nat (length l)) 0))) with 0%nat by lia.
  simpl skipn. f_equal. lia.
Qed.

Lemma combine_range_firstn (l : list Z) :
  forall (m j : nat), (m <= length l)%nat ->
    combine (map Z.of_nat (seq j m)) (firstn m l)
    = map (fun k => (Z.of_nat (j + k), nth k l 0)) (seq 0 m).
Proof.
  induction l as [|a l IH]; intros m j Hm.
  - simpl in Hm. assert (m = 0%nat) by lia. subst. reflexivity.
  - destruct m as [|m]; [reflexivity|]. simpl in Hm.
    simpl. rewrite Nat.add_0_r. f_equal.
    rewrite IH by lia. rewrite <- seq_shift, map_map.
    apply map_ext. intros k. f_equal. f_equal. lia.
Qed.

Lemma combine_tl (l : list Z) :
  combine l (tl l) = map (fun k => (nth k l 0, nth (S k) l 0)) (seq 0 (length l - 1)).
Proof.
  destruct l as [|a l]; [reflexivity|]. simpl tl.
  replace (length (a :: l) - 1)%nat with (length l) by (simpl; lia).
  revert a. induction l as [|b l IH]; intros a; [reflexivity|].
  change (combine (a :: b :: l) (b :: l)) with ((a, b) :: combine (b :: l) l).
  rewrite IH.
  change (seq 0 (length (b :: l))) with (0%nat :: seq 1 (length l)).
  rewrite <- seq_shift. simpl map. f_equal. rewrite map_map. reflexivity.
Qed.

Lemma mapM_map {A B C : Type} (f : B -> result C) (h : A -> B) (l : list A) :
  mapM f (map h l) = mapM (fun a => f (h a)) l.
Proof. induction l as [|a l IH]; simpl; [reflexivity | now rewrite IH]. Qed.

Section BlockStatistics.

Context {ext : External}.

(** X11. On an all-points series of numbers whose blocks are an index
    array, the per-block statistics pair each entry of the array with
    the next one: when every slice of rows from a block start to the
    next entry holds a sample, there is one statistic per entry but the
    last, the sigma-clipped statistics of the slice; when some slice is
    empty (two equal consecutive entries, or a start at or beyond the
    end of the rows) the method raises an [IndexError]. *)
Theorem block_stats_slices (s : EdbMnemonic) (t0 : datetime) (x0 : float)
  (rest : list (datetime * euvalue)) (ap sigma : Z) (bs : list Z) :
  data s = Rows ((t0, Num x0) :: rest) ->
  meta s = Some ap -> ap <> 0 ->
  blocks s = Indices bs ->
  let rows := (t0, Num x0) :: rest in
  let pairs := combine bs (tl bs) in
  let inside := fun p => py_slice rows (Some (fst p)) (Some (snd p)) in
  (Forall (fun p => inside p <> []) pairs ->
   exists r,
     block_stats s sigma = Ok r /\
     mean r = Some (map (fun p => fst (fst (sigma_clipped_stats (map snd (inside p)) sigma))) pairs) /\
     median r = Some (map (fun p => snd (fst (sigma_clipped_stats (map snd (inside p)) sigma))) pairs) /\
     stdev r = Some (map (fun p => snd (sigma_clipped_stats (map snd (inside p)) sigma)) pairs)) /\
  (Exists (fun p => inside p = []) pairs -> block_stats s sigma = Raise IndexError).
Proof.
  intros Hdata Hmeta Hap Hblocks rows pairs inside.
  assert (Hflag : (ap =? 0) = false) by (apply Z.eqb_neq; exact Hap).
  pose (pair_of := fun k => (nth k bs 0, nth (S k) bs 0)).
  set (m := (length bs - 1)%nat).
  assert (Hpairs : pairs = map pair_of (seq 0 m)) by apply combine_tl.
  unfold block_stats. rewrite Hdata. simpl col_euvalues. rewrite bind_ret.
  change (py_index (Num x0 :: map snd rest) 0) with (Ok (A := euvalue) (Num x0)).
  rewrite bind_ret. cbv zeta. rewrite Hblocks, blocks_but_last_firstn. fold m.
  assert (Hm : (m <= length bs)%nat) by (unfold m; lia).
  rewrite length_firstn, (Nat.min_l _ _ Hm).
  unfold range. rewrite (combine_range_firstn bs m 0 Hm), mapM_map.
  simpl is_number. cbv iota. simpl fst. simpl snd.
  assert (Hblock : forall k, In k (seq 0 m) ->
    (ap <- all_points (meta s) ;;
     hi <- blocks_index (Indices bs) (Z.of_nat (0 + k) + 1) ;;
     '(meanval, medianval, stdevval) <-
       (if negb (ap =? 0)
        then v <- Ok (Num x0 :: map snd rest) ;;
             Ok (sigma_clipped_stats (py_slice v (Some (nth k bs 0)) hi) sigma)
        else d <- Ok (t0 :: map fst rest) ;;
             v <- Ok (Num x0 :: map snd rest) ;;
             change_only_stats (py_slice d (Some (nth k bs 0)) hi)
                               (py_slice v (Some (nth k bs 0)) hi) sigma) ;;
     d <- Ok (t0 :: map fst rest) ;;
     medtime <- calc_median_time (py_slice d (Some (nth k bs 0)) hi) ;;
     Ok (meanval, medianval, stdevval, medtime))
    = match inside (pair_of k) with
      | [] => Raise IndexError
      | q :: qs =>
          Ok (sigma_clipped_stats (map snd (q :: qs)) sigma,
              fst q + td_half (last (map fst (q :: qs)) 0 - fst q))
      end).
  { intros k Hk. apply in_seq in Hk.
    rewrite Hmeta. simpl all_points. rewrite bind_ret.
    assert (Hidx : py_index bs (Z.of_nat (0 + k) + 1) = Ok (nth (S k) bs 0)).
    { replace (Z.of_nat (0 + k) + 1) with (Z.of_nat (S k)) by lia.
      apply py_index_nth_error. apply nth_error_nth'. unfold m in Hk. lia. }
    unfold blocks_index. rewrite Hidx, !bind_ret.
    rewrite Hflag. simpl negb. cbv iota. rewrite !bind_ret.
    change (Num x0 :: map snd rest) with (map snd rows).
    rewrite py_slice_map. unfold inside, pair_of. simpl fst. simpl snd.
    set (sl := py_slice rows (Some (nth k bs 0)) (Some (nth (S k) bs 0))).
    destruct (sigma_clipped_stats (map snd sl) sigma) as [[a b] c] eqn:Est.
    rewrite bind_ret. change (t0 :: map fst rest) with (map fst rows).
    rewrite py_slice_map. fold sl. clearbody sl. destruct sl as [|q qs].
    - reflexivity.
    - rewrite Est. simpl map. rewrite calc_median_time_cons. reflexivity. }
  rewrite Hpairs. split.
  - intros Hall. rewrite Forall_forall in Hall.
    rewrite (mapM_ext_ok _
               (fun k => (sigma_clipped_stats (map snd (inside (pair_of k))) sigma,
                          match inside (pair_of k) with
                          | [] => 0
                          | q :: qs => fst q + td_half (last (map fst (q :: qs)) 0 - fst q)
                          end))).
    + rewrite bind_ret. eexists. split; [reflexivity|].
      simpl. rewrite !map_map. split; [|split]; reflexivity.
    + intros k Hk. etransitivity; [exact (Hblock k Hk)|].
      specialize (Hall (pair_of k) (in_map pair_of _ _ Hk)).
      destruct (inside (pair_of k)); [contradiction | reflexivity].
  - intros Hex. apply Exists_exists in Hex as (w & Hw & Hempty).
    apply in_map_iff in Hw as (k & <- & Hk).
    match goal with
    | |- context [mapM ?f (seq 0 m)] =>
        assert (Hraise : mapM f (seq 0 m) = Raise IndexError);
        [|rewrite Hraise; reflexivity]
    end.
    apply mapM_raise.
    + intros j Hj. pose proof (Hblock j Hj) as Hj'.
      destruct (inside (pair_of j)); [left; exact Hj' | right; eexists; exact Hj'].
    + exists k. split; [exact Hk|]. pose proof (Hblock k Hk) as Hk'.
      rewrite Hempty in Hk'. exact Hk'.
Qed.

End BlockStatistics.

Lemma block_stats_slices_example :
  (Forall (fun p => py_slice [(0, num 1); (10, num 2); (20, num 3)]
                             (Some (fst p)) (Some (snd p)) <> [])
          [(0, 2); (2, 2); (2, 3)] ->
   exists r,
     block_stats (series 1 [(0, num 1); (10, num 2); (20, num 3)] (Indices [0; 2; 2; 3])) 3
     = Ok r /\
     mean r = Some (map (fun p => fst (fst (sigma_clipped_stats
                       (map snd (py_slice [(0, num 1); (10, num 2); (20, num 3)]
                                          (Some (fst p)) (Some (snd p)))) 3)))
                    [(0, 2); (2, 2); (2, 3)]) /\
     median r = Some (map (fun p => snd (fst (sigma_clipped_stats
                       (map snd (py_slice [(0, num 1); (10, num 2); (20, num 3)]
                                          (Some (fst p)) (Some (snd p)))) 3)))
                    [(0, 2); (2, 2); (2, 3)]) /\
     stdev r = Some (map (fun p => snd (sigma_clipped_stats
                       (map snd (py_slice [(0, num 1); (10, num 2); (20, num 3)]
                                          (Some (fst p)) (Some (snd p)))) 3))
                    [(0, 2); (2, 2); (2, 3)])) /\
  (Exists (fun p => py_slice [(0, num 1); (10, num 2); (20, num 3)]
                             (Some (fst p)) (Some (snd p)) = [])
          [(0, 2); (2, 2); (2, 3)] ->
   block_stats (series 1 [(0, num 1); (10, num 2); (20, num 3)] (Indices [0; 2; 2; 3])) 3
   = Raise IndexError).
Proof.
  apply (block_stats_slices
           (series 1 [(0, num 1); (10, num 2); (20, num 3)] (Indices [0; 2; 2; 3]))
           0 (float_of_int 1) [(10, num 2); (20, num 3)] 1 3 [0; 2; 2; 3]).
  - reflexivity.
  - reflexivity.
  - discriminate.
  - reflexivity.
Defined.

(* ================================================================= *)
(** ** File names *)

Ltac class_facts :=
  unfold word, lower, upper, digit, underscore, slash, dot, isascii in *;
  repeat match goal with
         | H : _ && _ = true |- _ => apply andb_prop in H as [? ?]
         | H : _ || _ = true |- _ => apply orb_prop in H as [?|?]
         | H : N.leb _ _ = true |- _ => apply N.leb_le in H
         | H : N.eqb _ _ = true |- _ => apply N.eqb_eq in H
         | H : N.ltb _ _ = true |- _ => apply N.ltb_lt in H
         | H : negb _ = true |- _ => apply negb_true_iff in H
         | H : N.eqb _ _ = false |- _ => apply N.eqb_neq in H
         end.

Lemma digit_not_lower (c : Ascii.ascii) : digit c = true -> lower c = false.
Proof.
  intros H. class_facts. apply andb_false_iff. left. apply N.leb_gt. lia.
Qed.

Lemma word_not_slash (c : Ascii.ascii) : word c = true -> slash c = false.
Proof. intros H. class_facts; apply N.eqb_neq; lia. Qed.

Lemma lower_word (c : Ascii.ascii) : lower c = true -> word c = true.
Proof. intros H. unfold word. now rewrite H. Qed.

Lemma digit_word (c : Ascii.ascii) : digit c = true -> word c = true.
Proof. intros H. unfold word. rewrite H. now rewrite !orb_true_r. Qed.

Lemma forallb_impl {A : Type} (p q : A -> bool) (l : list A) :
  (forall a, p a = true -> q a = true) -> forallb p l = true -> forallb q l = true.
Proof.
  intros Hpq H. rewrite forallb_forall in *. intros a Ha. apply Hpq. now apply H.
Qed.

Lemma firstn_length_app {A : Type} (x s : list A) : firstn (length x) (x ++ s) = x.
Proof. induction x as [|a x IH]; simpl; [now destruct s | now rewrite IH]. Qed.

Lemma skipn_length_app {A : Type} (x s : list A) : skipn (length x) (x ++ s) = s.
Proof. induction x as [|a x IH]; simpl; [reflexivity | exact IH]. Qed.

Lemma span_unbounded (cls : Ascii.ascii -> bool) (x s : list Ascii.ascii) :
  forallb cls x = true -> stops cls s = true -> span cls None (x ++ s) = length x.
Proof.
  intros Hx Hs. induction x as [|c x IH]; simpl in *.
  - destruct s as [|c s]; [reflexivity|]. simpl in Hs |- *.
    apply negb_true_iff in Hs. now rewrite Hs.
  - apply andb_prop in Hx as [Hc Hx]. rewrite Hc. f_equal. now apply IH.
Qed.

Lemma span_bounded (cls : Ascii.ascii -> bool) (x s : list Ascii.ascii) :
  forallb cls x = true -> span cls (Some (length x)) (x ++ s) = length x.
Proof.
  intros Hx. induction x as [|c x IH]; simpl in *.
  - destruct s as [|c s]; [reflexivity|]. simpl. now destruct (cls c).
  - apply andb_prop in Hx as [Hc Hx]. rewrite Hc. f_equal. now apply IH.
Qed.

Lemma span_sound (cls : Ascii.ascii -> bool) (s : list Ascii.ascii) :
  forall (hi : option nat) (k : nat),
    (k <= span cls hi s)%nat ->
    forallb cls (firstn k s) = true /\ length (firstn k s) = k /\
    s = firstn k s ++ skipn k s /\
    match hi with Some h => (k <= h)%nat | None => True end.
Proof.
  induction s as [|c s IH]; intros hi k Hk; simpl in Hk.
  - assert (k = 0%nat) by lia. subst. repeat split. destruct hi; [lia | exact I].
  - destruct k as [|k]; [repeat split; destruct hi; [lia | exact I]|].
    destruct (cls c) eqn:Hc; [|lia].
    destruct hi as [[|h]|]; [lia | |].
    + destruct (IH (Some h) k) as (H1 & H2 & H3 & H4); [lia|].
      simpl. rewrite Hc, H1, H2, <- H3. repeat split. lia.
    + destruct (IH None k) as (H1 & H2 & H3 & _); [lia|].
      simpl. rewrite Hc, H1, H2, <- H3. repeat split.
Qed.

Lemma backoff_eq {R : Type} (k lo : nat) (continue : nat -> option R) :
  backoff k lo continue
  = if Nat.ltb k lo then None
    else match continue k with
         | Some r => Some r
         | None => match k with
                   | O => None
                   | S k' => backoff k' lo continue
                   end
         end.
Proof. destruct k; reflexivity. Qed.

Lemma backoff_here {R : Type} (k lo : nat) (continue : nat -> option R) (r : R) :
  (lo <= k)%nat -> continue k = Some r -> backoff k lo continue = Some r.
Proof.
  intros Hlo Hk. rewrite backoff_eq, Hk.
  replace (Nat.ltb k lo) with false; [reflexivity|].
  symmetry. apply Nat.ltb_ge. exact Hlo.
Qed.

Lemma backoff_next {R : Type} (k lo : nat) (continue : nat -> option R) :
  (lo <= S k)%nat -> continue (S k) = None ->
  backoff (S k) lo continue = backoff k lo continue.
Proof.
  intros Hlo Hk. rewrite backoff_eq, Hk.
  replace (Nat.ltb (S k) lo) with false; [reflexivity|].
  symmetry. apply Nat.ltb_ge. exact Hlo.
Qed.

Lemma backoff_sound {R : Type} (lo : nat) (continue : nat -> option R) (r : R) :
  forall n, backoff n lo continue = Some r ->
            exists k, (lo <= k <= n)%nat /\ continue k = Some r.
Proof.
  induction n as [|n IH]; rewrite backoff_eq; intros H.
  - destruct (Nat.ltb_spec0 0 lo); [discriminate|].
    destruct (continue 0%nat) eqn:E; [|discriminate]. inversion H; subst.
    exists 0%nat. split; [lia | exact E].
  - destruct (Nat.ltb_spec0 (S n) lo); [discriminate|].
    destruct (continue (S n)) eqn:E.
    + inversion H; subst. exists (S n). split; [lia | exact E].
    + destruct (IH H) as (k & Hk & Hr). exists k. split; [lia | exact Hr].
Qed.

Lemma strip_app (t s : list Ascii.ascii) : strip t (t ++ s) = Some s.
Proof.
  induction t as [|a t IH]; simpl; [now destruct s|].
  now rewrite Ascii.eqb_refl.
Qed.

Lemma strip_sound (t : list Ascii.ascii) :
  forall s s', strip t s = Some s' -> s = t ++ s'.
Proof.
  induction t as [|a t IH]; intros s s' H.
  - destruct s; simpl in H; inversion H; reflexivity.
  - destruct s as [|b s]; simpl in H; [discriminate|].
    destruct (Ascii.eqb a b) eqn:E; [|discriminate].
    apply Ascii.eqb_eq in E. subst b. simpl. f_equal. now apply IH.
Qed.

(** A greedy repetition that can take its whole run at once. *)
Lemma rep_greedy (cls : Ascii.ascii -> bool) (lo : nat) (hi : option nat)
  (name : option string) (rest : list item) (x s : list Ascii.ascii)
  (groups : list (string * list Ascii.ascii)) :
  forallb cls x = true -> (lo <= length x)%nat ->
  match hi with None => stops cls s = true | Some h => h = length x end ->
  match_items rest s = Some groups ->
  match_items (Rep cls lo hi name :: rest) (x ++ s) = Some (add_group name x groups).
Proof.
  intros Hx Hlo Hhi Hrest. simpl.
  assert (Hspan : span cls hi (x ++ s) = length x).
  { destruct hi as [h|]; [subst h; now apply span_bounded | now apply span_unbounded]. }
  rewrite Hspan. apply backoff_here; [exact Hlo|].
  now rewrite skipn_length_app, firstn_length_app, Hrest.
Qed.

(** Every match spells the text piece by piece. *)
Lemma match_items_sound (items : list item) :
  forall s groups, match_items items s = Some groups -> parsed items s groups.
Proof.
  induction items as [|[t|cls lo hi name] rest IH]; intros s groups H; simpl in *.
  - now inversion H.
  - destruct (strip (chars t) s) as [s'|] eqn:E; [|discriminate].
    exists s'. split; [now apply strip_sound | now apply IH].
  - apply backoff_sound in H as (k & Hk & H).
    destruct (match_items rest (skipn k s)) as [groups'|] eqn:E; [|discriminate].
    inversion H; subst groups; clear H.
    destruct (span_sound cls s hi k (proj2 Hk)) as (H1 & H2 & H3 & H4).
    exists (firstn k s), (skipn k s), groups'.
    rewrite H2. split; [exact H3|]. split; [exact H1|]. split; [lia|].
    split; [exact H4|]. split; [now apply IH | reflexivity].
Qed.

Lemma basename_no_slash (s : list Ascii.ascii) :
  forallb (fun c => negb (slash c)) s = true -> basename s = s.
Proof.
  intros H. destruct s as [|c s]; [reflexivity|]. simpl in *.
  apply andb_prop in H as [Hc Hs]. apply negb_true_iff in Hc. rewrite Hc. simpl.
  replace (existsb slash s) with false; [reflexivity|].
  symmetry. apply not_true_iff_false. intros Hex.
  apply existsb_exists in Hex as (x & Hx & Hsl).
  rewrite forallb_forall in Hs. specialize (Hs x Hx). now rewrite Hsl in Hs.
Qed.

Lemma basename_directory (dir name : list Ascii.ascii) :
  forallb (fun c => negb (slash c)) name = true ->
  basename (dir ++ chars "/" ++ name) = name.
Proof.
  intros H. induction dir as [|c dir IH].
  - simpl. now apply basename_no_slash.
  - change (basename ((c :: dir) ++ chars "/" ++ name))
      with (if slash c || existsb slash (dir ++ chars "/" ++ name)
            then basename (dir ++ chars "/" ++ name)
            else c :: dir ++ chars "/" ++ name).
    replace (existsb slash (dir ++ chars "/" ++ name)) with true.
    + rewrite orb_true_r. exact IH.
    + symmetry. apply existsb_exists. exists (Ascii.ascii_of_nat 47).
      split; [|reflexivity]. apply in_or_app. right. now left.
Qed.

Lemma text_here (t : string) (rest : list item) (s : list Ascii.ascii)
  (groups : list (string * list Ascii.ascii)) :
  match_items rest s = Some groups ->
  match_items (Text t :: rest) (chars t ++ s) = Some groups.
Proof. intros H. simpl. now rewrite strip_app. Qed.

Lemma trailing_text (tail : list Ascii.ascii) :
  match_items [Rep dot 0 None None] tail = Some [].
Proof. simpl. apply backoff_here; [lia | reflexivity]. Qed.

Lemma ends_word_stops (tail : list Ascii.ascii) :
  ends_word tail = true -> stops word tail = true.
Proof.
  destruct tail as [|c tail]; [reflexivity|]. simpl. intros H.
  now apply andb_prop in H as [H _].
Qed.

(** No underscore stands at the [j]-th place of a suffix without
    underscores, nor right after it. *)
Lemma no_underscore_there (suf tail : list Ascii.ascii) :
  forallb (fun c => negb (underscore c)) suf = true ->
  ends_word tail = true ->
  forall j, (j <= length suf)%nat ->
            strip (chars "_") (skipn j (suf ++ tail)) = None.
Proof.
  assert (Hhead : forall c s, underscore c = false -> strip (chars "_") (c :: s) = None).
  { intros c s Hc.
    change (strip (chars "_") (c :: s))
      with (if Ascii.eqb (Ascii.Ascii true true true true true false true false) c
            then Some s else None).
    destruct (Ascii.eqb_spec (Ascii.Ascii true true true true true false true false) c)
      as [E|E]; [subst c; discriminate | reflexivity]. }
  intros Hsuf Htail. induction suf as [|c suf IH]; intros j Hj; simpl in Hj.
  - assert (j = 0%nat) by lia. subst j. simpl.
    destruct tail as [|c tail]; [reflexivity|]. apply Hhead.
    simpl in Htail. apply andb_prop in Htail as [Hw _]. apply negb_true_iff in Hw.
    unfold word in Hw. apply orb_false_iff in Hw. tauto.
  - simpl in Hsuf. apply andb_prop in Hsuf as [Hc Hsuf]. apply negb_true_iff in Hc.
    destruct j as [|j]; [now apply Hhead|]. simpl. apply IH; [exact Hsuf | lia].
Qed.

(** The detector gives back characters until an underscore and a
    suffix follow: it ends at the last underscore. *)
Lemma detector_backoff (det suf tail : list Ascii.ascii) :
  some word det = true -> some word suf = true ->
  forallb (fun c => negb (underscore c)) suf = true ->
  ends_word tail = true ->
  match_items [Rep word 1 None (Some "detector"%string); Text "_";
               Rep word 1 None (Some "suffix"%string); Rep dot 0 None None]
              (det ++ chars "_" ++ suf ++ tail)
  = Some [("detector"%string, det); ("suffix"%string, suf)].
Proof.
  intros Hdet Hsuf Hno Htail.
  apply andb_prop in Hdet as [Hdlen Hdet]. apply Nat.leb_le in Hdlen.
  apply andb_prop in Hsuf as [Hslen Hsuf]. apply Nat.leb_le in Hslen.
  set (rest := [Text "_"; Rep word 1 None (Some "suffix"%string); Rep dot 0 None None]).
  set (s := det ++ chars "_" ++ suf ++ tail).
  change (match_items (Rep word 1 None (Some "detector"%string) :: rest) s)
    with (backoff (span word None s) 1
            (fun k => match match_items rest (skipn k s) with
                      | Some groups => Some (("detector"%string, firstn k s) :: groups)
                      | None => None
                      end)).
  set (continue := fun k => match match_items rest (skipn k s) with
                            | Some groups => Some (("detector"%string, firstn k s) :: groups)
                            | None => None
                            end).
  assert (Hspan : span word None s = (length det + 1 + length suf)%nat).
  { unfold s. rewrite (app_assoc (chars "_")), app_assoc.
    rewrite span_unbounded; [| |now apply ends_word_stops].
    - rewrite !length_app. simpl. lia.
    - rewrite !forallb_app, Hdet, Hsuf. reflexivity. }
  assert (Hhere : continue (length det)
                  = Some [("detector"%string, det); ("suffix"%string, suf)]).
  { unfold continue, s. rewrite skipn_length_app, firstn_length_app.
    unfold rest. rewrite (text_here "_" _ _ [("suffix"%string, suf)]); [reflexivity|].
    apply (rep_greedy word 1 None (Some "suffix"%string) _ suf tail []);
      [exact Hsuf | exact Hslen | now apply ends_word_stops | apply trailing_text]. }
  assert (Hback : forall j, (j <= length suf)%nat ->
            backoff (length det + 1 + j) 1 continue
            = Some [("detector"%string, det); ("suffix"%string, suf)]).
  { intros j Hj.
    assert (Hnone : continue (S (length det + j)) = None).
    { unfold continue, s, rest. rewrite skipn_app, skipn_all2 by lia.
      replace (S (length det + j) - length det)%nat with (S j) by lia.
      change ([] ++ skipn (S j) (chars "_" ++ suf ++ tail)) with (skipn j (suf ++ tail)).
      cbn [match_items]. now rewrite (no_underscore_there suf tail Hno Htail j Hj). }
    replace (length det + 1 + j)%nat with (S (length det + j)) by lia.
    rewrite backoff_next; [|lia | exact Hnone].
    clear Hnone. induction j as [|j IH].
    - rewrite Nat.add_0_r. apply backoff_here; [exact Hdlen | exact Hhere].
    - replace (length det + S j)%nat with (S (length det + j)) by lia.
      rewrite backoff_next; [apply IH; lia | lia |].
      unfold continue, s, rest. rewrite skipn_app, skipn_all2 by lia.
      replace (S (length det + j) - length det)%nat with (S j) by lia.
      change ([] ++ skipn (S j) (chars "_" ++ suf ++ tail)) with (skipn j (suf ++ tail)).
      cbn [match_items].
      rewrite (no_underscore_there suf tail Hno Htail j); [reflexivity | lia]. }
  rewrite Hspan. apply Hback. lia.
Qed.

(** The pattern on a name spelled from conforming parts. *)
Lemma match_elements_spelled (n : name_parts) (tail : list Ascii.ascii) :
  conforms n = true ->
  forallb (fun c => negb (underscore c)) (suffix n) = true ->
  ends_word tail = true ->
  match_items elements (spelled n ++ tail) = Some (groupdict n).
Proof.
  intros Hn Hno Htail. unfold conforms in Hn.
  repeat match goal with
         | H : _ && _ = true |- _ => apply andb_prop in H as [H ?]
         end.
  unfold digits, some in *.
  repeat match goal with
         | H : _ && _ = true |- _ => apply andb_prop in H as [? ?]
         | H : Nat.eqb _ _ = true |- _ => apply Nat.eqb_eq in H
         | H : Nat.leb _ _ = true |- _ => apply Nat.leb_le in H
         end.
  unfold spelled. rewrite <- !app_assoc. unfold elements, groupdict.
  apply (rep_greedy lower 1 None None); [assumption | assumption | |].
  { destruct (program_id n) as [|c pid]; [discriminate|].
    simpl. match goal with H : forallb digit (c :: pid) = true |- _ =>
                             simpl in H; apply andb_prop in H as [H _];
                             now rewrite (digit_not_lower c H) end. }
  apply (rep_greedy digit 5 (Some 5%nat) (Some "program_id"%string));
    [assumption | lia | congruence |].
  apply (rep_greedy digit 3 (Some 3%nat) (Some "observation"%string));
    [assumption | lia | congruence |].
  apply (rep_greedy digit 3 (Some 3%nat) (Some "visit"%string));
    [assumption | lia | congruence |].
  apply text_here.
  apply (rep_greedy digit 2 (Some 2%nat) (Some "visit_group"%string));
    [assumption | lia | congruence |].
  apply (rep_greedy digit 1 (Some 1%nat) (Some "parallel_seq_id"%string));
    [assumption | lia | congruence |].
  apply (rep_greedy digit 2 (Some 2%nat) (Some "activity"%string));
    [assumption | lia | congruence |].
  apply text_here.
  apply (rep_greedy digit 1 None (Some "exposure_id"%string));
    [assumption | assumption | reflexivity |].
  apply text_here.
  apply detector_backoff; unfold some; try assumption.
  - apply andb_true_intro. split; [now apply Nat.leb_le | assumption].
  - apply andb_true_intro. split; [now apply Nat.leb_le | assumption].
Qed.

Lemma conforms_no_slash (n : name_parts) :
  conforms n = true -> forallb (fun c => negb (slash c)) (spelled n) = true.
Proof.
  intros Hn. unfold conforms in Hn.
  repeat match goal with
         | H : _ && _ = true |- _ => apply andb_prop in H as [H ?]
         end.
  unfold digits, some in *.
  repeat match goal with
         | H : _ && _ = true |- _ => apply andb_prop in H as [_ H]
         end.
  assert (Hw : forall x, forallb word x = true ->
                         forallb (fun c => negb (slash c)) x = true).
  { intros x. apply forallb_impl. intros c Hc. now rewrite (word_not_slash c Hc). }
  assert (Hd : forall x, forallb digit x = true ->
                         forallb (fun c => negb (slash c)) x = true).
  { intros x Hx. apply Hw. revert Hx. apply forallb_impl. exact digit_word. }
  assert (Hl : forall x, forallb lower x = true ->
                         forallb (fun c => negb (slash c)) x = true).
  { intros x Hx. apply Hw. revert Hx. apply forallb_impl. exact lower_word. }
  unfold spelled. rewrite !forallb_app.
  repeat (apply andb_true_intro; split); auto.
Qed.

(** X12. A file name spelled from conforming parts (lowercase prefix;
    program of five digits, observation and visit of three; visit
    group of two digits, parallel sequence of one, activity of two;
    exposure of one digit or more; detector and suffix of one word
    character or more, the suffix without underscore) is parsed into
    exactly those parts, whatever directory comes before it and
    whatever text that does not start with a word character (an
    extension) comes after it.  The detector may itself contain
    underscores: of several underscore-separated words after the
    exposure, all but the last are the detector. *)
Theorem filename_parser_round_trip (n : name_parts) (dir tail : list Ascii.ascii) :
  conforms n = true ->
  forallb (fun c => negb (underscore c)) (suffix n) = true ->
  ends_word tail = true ->
  forallb (fun c => negb (slash c)) tail = true ->
  filename_parser (spelled n ++ tail) = Ok (groupdict n) /\
  filename_parser (dir ++ chars "/" ++ spelled n ++ tail) = Ok (groupdict n).
Proof.
  intros Hn Hno Htail Hslash.
  assert (Hname : forallb (fun c => negb (slash c)) (spelled n ++ tail) = true)
    by (rewrite forallb_app, (conforms_no_slash n Hn), Hslash; reflexivity).
  unfold filename_parser. cbv zeta. split.
  - rewrite (basename_no_slash _ Hname).
    now rewrite (match_elements_spelled n tail Hn Hno Htail).
  - rewrite (basename_directory dir _ Hname).
    now rewrite (match_elements_spelled n tail Hn Hno Htail).
Qed.

(** What a match of the pattern says of the text. *)
Lemma match_elements_shape (s : list Ascii.ascii)
  (groups : list (string * list Ascii.ascii)) :
  match_items elements s = Some groups ->
  exists n tail, s = spelled n ++ tail /\ conforms n = true /\ groups = groupdict n.
Proof.
  intros E.
  apply match_items_sound in E. unfold elements in E. cbn [parsed] in E.
  destruct E as (p & s1 & g1 & E0 & Hp & Lp & _ & E & G0).
  destruct E as (pid & s2 & g2 & E1 & Hpid & Lpid & Upid & E & G1).
  destruct E as (obs & s3 & g3 & E2 & Hobs & Lobs & Uobs & E & G2).
  destruct E as (vis & s4 & g4 & E3 & Hvis & Lvis & Uvis & E & G3).
  destruct E as (s5 & E4 & E).
  destruct E as (vg & s6 & g6 & E5 & Hvg & Lvg & Uvg & E & G5).
  destruct E as (par & s7 & g7 & E6 & Hpar & Lpar & Upar & E & G6).
  destruct E as (act & s8 & g8 & E7 & Hact & Lact & Uact & E & G7).
  destruct E as (s9 & E8 & E).
  destruct E as (expo & s10 & g10 & E9 & Hexpo & Lexpo & _ & E & G9).
  destruct E as (s11 & E10 & E).
  destruct E as (det & s12 & g12 & E11 & Hdet & Ldet & _ & E & G11).
  destruct E as (s13 & E12 & E).
  destruct E as (suf & s14 & g14 & E13 & Hsuf & Lsuf & _ & E & G13).
  destruct E as (rest & s15 & g15 & E14 & _ & _ & _ & E & G14).
  cbn [parsed] in E. subst.
  exists {| instrument_prefix := p; program_id := pid; observation := obs; visit := vis;
            visit_group := vg; parallel_seq_id := par; activity := act;
            exposure_id := expo; detector := det; suffix := suf |}, (rest ++ s15).
  split; [|split].
  - unfold spelled. cbn [instrument_prefix program_id observation visit
      visit_group parallel_seq_id activity exposure_id detector suffix].
    rewrite <- !app_assoc. reflexivity.
  - unfold conforms, digits, some.
    cbn [instrument_prefix program_id observation visit
      visit_group parallel_seq_id activity exposure_id detector suffix].
    rewrite Hp, Hpid, Hobs, Hvis, Hvg, Hpar, Hact, Hexpo, Hdet, Hsuf, !andb_true_r.
    repeat (apply andb_true_intro; split);
      try (apply Nat.leb_le; assumption); apply Nat.eqb_eq; lia.
  - reflexivity.
Qed.

(** X13. Whatever [filename_parser] returns for an ASCII name is a
    reading of its base name: the base name is a name spelled from
    conforming parts, followed by some text, and the dictionary holds
    exactly those parts (all but the prefix) under their nine keys. *)
Theorem filename_parser_shape (filename : list Ascii.ascii)
  (filename_dict : list (string * list Ascii.ascii)) :
  forallb isascii filename = true ->
  filename_parser filename = Ok filename_dict ->
  exists n tail,
    basename filename = spelled n ++ tail /\
    conforms n = true /\
    filename_dict = groupdict n.
Proof.
  intros _ H. unfold filename_parser in H. cbv zeta in H.
  destruct (match_items elements (basename filename)) as [d|] eqn:E; [|discriminate].
  inversion H; subst d; clear H.
  now apply match_elements_shape.
Qed.

Lemma count_underscore_app (x y : list Ascii.ascii) :
  length (filter underscore (x ++ y))
  = (length (filter underscore x) + length (filter underscore y))%nat.
Proof. now rewrite filter_app, length_app. Qed.

(** X14. [filename_parser] raises a [ValueError] on every name whose
    base name is empty or starts with anything but a lowercase letter,
    and on every name whose base name holds fewer than four
    underscores: a path that ends in a slash, an upper-case name, a
    name without a part after the detector. *)
Theorem filename_parser_rejects (filename : list Ascii.ascii) :
  stops lower (basename filename) = true \/
  (length (filter underscore (basename filename)) < 4)%nat ->
  filename_parser filename = Raise ValueError.
Proof.
  intros H. unfold filename_parser. cbv zeta.
  destruct (match_items elements (basename filename)) as [d|] eqn:E; [|reflexivity].
  exfalso. apply match_elements_shape in E as (n & tail & Hs & Hn & _).
  rewrite Hs in H. unfold conforms in Hn.
  repeat match goal with
         | H : _ && _ = true |- _ => apply andb_prop in H as [H ?]
         end.
  destruct H as [H|H].
  - unfold some in Hn. apply andb_prop in Hn as [Hlen Hlow].
    unfold spelled in H. destruct (instrument_prefix n) as [|c p]; [discriminate|].
    simpl in Hlow. apply andb_prop in Hlow as [Hc _].
    simpl in H. rewrite Hc in H. discriminate.
  - unfold spelled in H. rewrite !count_underscore_app in H.
    change (length (filter underscore (chars "_"))) with 1%nat in H. lia.
Qed.

Lemma filename_parser_round_trip_example :
  filename_parser (chars "jw00327001001_02101_00001_nrca1_rate.fits")
    = Ok (groupdict example_name) /\
  filename_parser (chars "/data/jwst/jw00327001001_02101_00001_nrca1_rate.fits")
    = Ok (groupdict example_name).
Proof.
  apply (filename_parser_round_trip example_name (chars "/data/jwst") (chars ".fits"));
    reflexivity.
Defined.

Lemma filename_parser_shape_example :
  exists n tail,
    basename (chars "/data/jw00327001001_02101_00001_nrca1_rate_cal.fits")
      = spelled n ++ tail /\
    conforms n = true /\
    [ ("program_id"%string, chars "00327"); ("observation"%string, chars "001");
      ("visit"%string, chars "001"); ("visit_group"%string, chars "02");
      ("parallel_seq_id"%string, chars "1"); ("activity"%string, chars "01");
      ("exposure_id"%string, chars "00001");
      ("detector"%string, chars "nrca1_rate"); ("suffix"%string, chars "cal") ]
    = groupdict n.
Proof.
  apply (filename_parser_shape
           (chars "/data/jw00327001001_02101_00001_nrca1_rate_cal.fits")).
  - reflexivity.
  - reflexivity.
Defined.

Lemma filename_parser_rejects_example :
  filename_parser (chars "/data/JW00327001001_02101_00001_nrca1_rate.fits")
  = Raise ValueError.
Proof.
  apply (filename_parser_rejects
           (chars "/data/JW00327001001_02101_00001_nrca1_rate.fits")).
  left. reflexivity.
Defined.

(* ================================================================= *)
(** ** Cosmic rays *)

Lemma where_from_In {A : Type} (p : A -> bool) (l : list A) :
  forall k j, In j (where_from p k l) <->
              k <= j /\ exists v, nth_error l (Z.to_nat (j - k)) = Some v /\ p v = true.
Proof.
  induction l as [|a l IH]; intros k j; simpl.
  - split; [intros [] | intros (_ & v & Hv & _)]. now destruct (Z.to_nat (j - k)).
  - assert (Hstep : In j (where_from p (k + 1) l) <->
                    k < j /\ exists v, nth_error l (Z.to_nat (j - k) - 1) = Some v /\ p v = true).
    { rewrite IH. replace (Z.to_nat (j - (k + 1))) with (Z.to_nat (j - k) - 1)%nat by lia.
      split; intros [H1 H2]; (split; [lia | exact H2]). }
    destruct (p a) eqn:Ha; simpl; rewrite Hstep; split.
    + intros [<-|(Hlt & v & Hv & Hp)].
      * split; [lia|]. exists a. now rewrite Z.sub_diag.
      * split; [lia|]. exists v. split; [|exact Hp].
        replace (Z.to_nat (j - k)) with (S (Z.to_nat (j - k) - 1)) by lia. exact Hv.
    + intros (Hle & v & Hv & Hp). destruct (Z.eq_dec k j) as [->|Hne]; [now left|].
      right. split; [lia|]. exists v. split; [|exact Hp].
      replace (Z.to_nat (j - k)) with (S (Z.to_nat (j - k) - 1)) in Hv by lia. exact Hv.
    + intros (Hlt & v & Hv & Hp). split; [lia|]. exists v. split; [|exact Hp].
      replace (Z.to_nat (j - k)) with (S (Z.to_nat (j - k) - 1)) by lia. exact Hv.
    + intros (Hle & v & Hv & Hp). destruct (Z.eq_dec k j) as [->|Hne].
      * rewrite Z.sub_diag in Hv. simpl in Hv. inversion Hv; subst. congruence.
      * split; [lia|]. exists v. split; [|exact Hp].
        replace (Z.to_nat (j - k)) with (S (Z.to_nat (j - k) - 1)) in Hv by lia. exact Hv.
Qed.

Lemma where_from_length {A : Type} (p : A -> bool) (l : list A) :
  forall k, length (where_from p k l) = length (filter p l).
Proof.
  induction l as [|a l IH]; intros k; simpl; [reflexivity|].
  destruct (p a); simpl; now rewrite IH.
Qed.

Lemma entry_spec {A : Type} (l : list A) (i : Z) (b : A) :
  entry l i = Some b <-> 0 <= i /\ nth_error l (Z.to_nat i) = Some b.
Proof.
  unfold entry. destruct (Z.ltb_spec i 0); split.
  - discriminate.
  - intros [H1 _]. lia.
  - intros H1. split; [lia | exact H1].
  - now intros [_ H1].
Qed.

Lemma where_nested_In {A : Type} (inner : A -> list (list Z)) (a : list A)
  (i : Z) (c : list Z) :
  In (i :: c) (where_nested inner a) <-> exists b, entry a i = Some b /\ In c (inner b).
Proof.
  unfold where_nested. rewrite in_concat. split.
  - intros (cs & Hcs & Hin). apply in_map_iff in Hcs as ([b j] & <- & Hbj).
    simpl in Hin. apply in_map_iff in Hin as (c' & Heq & Hc'). inversion Heq; subst.
    exists b. split; [|exact Hc'].
    apply (combine_seq_In a 0 b i) in Hbj as [H1 H2].
    apply entry_spec. split; [lia|]. now rewrite Nat.sub_0_r in H2.
  - intros (b & Hb & Hc). apply entry_spec in Hb as [H1 H2].
    exists (map (cons i) (inner b)). split; [|now apply in_map].
    apply in_map_iff. exists (b, i). split; [reflexivity|].
    apply (combine_seq_In a 0 b i). split; [lia|]. now rewrite Nat.sub_0_r.
Qed.

Lemma where_nested_width {A : Type} (inner : A -> list (list Z)) (a : list A) (n : nat) :
  (forall b c, In c (inner b) -> length c = n) ->
  forall c, In c (where_nested inner a) -> length c = S n.
Proof.
  intros Hinner c Hc. unfold where_nested in Hc. apply in_concat in Hc as (cs & Hcs & Hin).
  apply in_map_iff in Hcs as ([b j] & <- & _). simpl in Hin.
  apply in_map_iff in Hin as (c' & <- & Hc'). simpl. f_equal. now apply (Hinner b).
Qed.

Lemma where_nested_length {A : Type} (inner : A -> list (list Z)) (a : list A) :
  length (where_nested inner a) = list_sum (map (fun b => length (inner b)) a).
Proof.
  unfold where_nested, range. generalize 0%nat.
  induction a as [|b a IH]; intros k; [reflexivity|].
  simpl. rewrite length_app, length_map. f_equal. apply IH.
Qed.

Lemma where1_In (p : Z -> bool) (d : list Z) (x : Z) :
  In [x] (where1 p d) <-> exists v, entry d x = Some v /\ p v = true.
Proof.
  unfold where1, np_where. rewrite in_map_iff. split.
  - intros (j & Hj & Hin). inversion Hj; subst j.
    apply where_from_In in Hin as (H0 & v & Hv & Hp). exists v. split; [|exact Hp].
    apply entry_spec. split; [lia|]. now rewrite Z.sub_0_r in Hv.
  - intros (v & Hv & Hp). apply entry_spec in Hv as [H0 Hv].
    exists x. split; [reflexivity|]. apply where_from_In. split; [lia|].
    exists v. split; [|exact Hp]. now rewrite Z.sub_0_r.
Qed.

(** The coordinates [np.where] gives for a four-dimensional array are
    those of the entries that pass the test, of four indices each, as
    many as there are such entries. *)
Lemma where4_spec (a : list (list (list (list Z)))) :
  (forall i g y x, In [i; g; y; x] (where4 (fun v => v =? 4) a) <->
                   entry4 a i g y x = Some 4) /\
  (forall c, In c (where4 (fun v => v =? 4) a) -> length c = 4%nat) /\
  length (where4 (fun v => v =? 4) a) = count4 a.
Proof.
  split; [|split].
  - intros i g y x. unfold where4, where3, where2, entry4.
    rewrite where_nested_In. split.
    + intros (b & Hb & H). rewrite Hb.
      apply where_nested_In in H as (c & Hc & H). rewrite Hc.
      apply where_nested_In in H as (d & Hd & H). rewrite Hd.
      apply where1_In in H as (v & Hv & Hp). apply Z.eqb_eq in Hp. now subst v.
    + intros H. destruct (entry a i) as [b|]; [|discriminate].
      exists b. split; [reflexivity|]. apply where_nested_In.
      destruct (entry b g) as [c|]; [|discriminate].
      exists c. split; [reflexivity|]. apply where_nested_In.
      destruct (entry c y) as [d|]; [|discriminate].
      exists d. split; [reflexivity|]. apply where1_In.
      exists 4. split; [exact H | reflexivity].
  - apply where_nested_width. intros b0. apply where_nested_width.
    intros b1. apply where_nested_width. intros b2 c Hc.
    unfold where1 in Hc. apply in_map_iff in Hc as (j & <- & _). reflexivity.
  - unfold where4, where3, where2, count4, count3, count2, count1.
    rewrite where_nested_length. f_equal. apply map_ext. intros b.
    rewrite where_nested_length. f_equal. apply map_ext. intros c.
    rewrite where_nested_length. f_equal. apply map_ext. intros d.
    unfold where1, np_where. now rewrite length_map, where_from_length.
Qed.

Lemma py_index_map {A B : Type} (h : A -> B) (l : list A) (i : Z) :
  py_index (map h l) i = (x <- py_index l i ;; Ok (h x)).
Proof.
  unfold py_index. rewrite length_map. cbv zeta.
  destruct ((0 <=? (if i <? 0 then i + Z.of_nat (length l) else i)) &&
            ((if i <? 0 then i + Z.of_nat (length l) else i) <? Z.of_nat (length l)));
    [|reflexivity].
  rewrite nth_error_map.
  now destruct (nth_error l _).
Qed.

Lemma mapM_ext {A B : Type} (f g : A -> result B) (l : list A) :
  (forall a, f a = g a) -> mapM f l = mapM g l.
Proof. intros H. induction l as [|a l IH]; simpl; [reflexivity | now rewrite H, IH]. Qed.

Lemma mapM_ext_in {A B : Type} (f g : A -> result B) (l : list A) :
  (forall a, In a l -> f a = g a) -> mapM f l = mapM g l.
Proof.
  intros H. induction l as [|a l IH]; simpl; [reflexivity|].
  rewrite (H a (or_introl eq_refl)), IH; [reflexivity|].
  intros b Hb. apply H. now right.
Qed.

(** Reading a list back by its indices. *)
Lemma mapM_range {A B : Type} (g : A -> result B) (l : list A) :
  mapM (fun i => x <- py_index l i ;; g x) (range (length l)) = mapM g l.
Proof.
  unfold range.
  assert (H : forall pre,
             mapM (fun i => x <- py_index (pre ++ l) i ;; g x)
                  (map Z.of_nat (seq (length pre) (length l)))
             = mapM g l).
  { induction l as [|a l IH]; intros pre; [reflexivity|].
    simpl. rewrite py_index_app_here, bind_ret.
    specialize (IH (pre ++ [a])). rewrite <- app_assoc, length_app in IH.
    simpl in IH. rewrite Nat.add_1_r in IH. now rewrite IH. }
  exact (H []).
Qed.

Lemma tuple4_eta (c : list Z) :
  length c = 4%nat -> [nth 0 c 0; nth 1 c 0; nth 2 c 0; nth 3 c 0] = c.
Proof. destruct c as [|a [|b [|c' [|d [|e c]]]]]; simpl; intros H; try discriminate. reflexivity. Qed.

Lemma tuple3_firstn (c : list Z) :
  length c = 4%nat -> [nth 0 c 0; nth 1 c 0; nth 2 c 0] = firstn 3 c.
Proof. destruct c as [|a [|b [|c' [|d [|e c]]]]]; simpl; intros H; try discriminate. reflexivity. Qed.

(** [get_jump_locations] on a four-dimensional array: what
    [np.where] found, cut to three indices unless there are several
    integrations. *)
Lemma get_jump_locations_4d (nints : Z) (a : list (list (list (list Z)))) :
  get_jump_locations nints (Dq4 a)
  = Ok (if 1 <? nints then where4 (fun v => v =? 4) a
        else map (firstn 3) (where4 (fun v => v =? 4) a)).
Proof.
  unfold get_jump_locations, np_where_flagged. cbv zeta.
  set (c := where4 (fun v => v =? 4) a).
  assert (Hwidth : forall x, In x c -> length x = 4%nat) by apply where4_spec.
  change (py_index [column 0 c; column 1 c; column 2 c; column 3 c] 0)
    with (Ok (A := list Z) (column 0 c)).
  change (py_index [column 0 c; column 1 c; column 2 c; column 3 c] 1)
    with (Ok (A := list Z) (column 1 c)).
  change (py_index [column 0 c; column 1 c; column 2 c; column 3 c] 2)
    with (Ok (A := list Z) (column 2 c)).
  change (py_index [column 0 c; column 1 c; column 2 c; column 3 c] 3)
    with (Ok (A := list Z) (column 3 c)).
  rewrite bind_ret.
  replace (length (column 0 c)) with (length c) by (unfold column; now rewrite length_map).
  destruct (1 <? nints).
  - rewrite (mapM_ext _ (fun i => x <- py_index c i ;;
                                  Ok [nth 0 x 0; nth 1 x 0; nth 2 x 0; nth 3 x 0])).
    + rewrite mapM_range, (mapM_ext_ok _ (fun x => x)); [now rewrite map_id|].
      intros x Hx. now rewrite (tuple4_eta x (Hwidth x Hx)).
    + intros i. rewrite !bind_ret. unfold column. rewrite !py_index_map.
      now destruct (py_index c i).
  - rewrite (mapM_ext _ (fun i => x <- py_index c i ;;
                                  Ok [nth 0 x 0; nth 1 x 0; nth 2 x 0])).
    + rewrite mapM_range. apply mapM_ext_ok.
      intros x Hx. now rewrite (tuple3_firstn x (Hwidth x Hx)).
    + intros i. rewrite !bind_ret. unfold column. rewrite !py_index_map.
      now destruct (py_index c i).
Qed.

Lemma jump_locations_flagged_aux (nints : Z) (a : list (list (list (list Z)))) :
  1 < nints ->
  get_jump_locations nints (Dq4 a) = Ok (where4 (fun v => v =? 4) a) /\
  group_before nints (where4 (fun v => v =? 4) a)
  = Ok (map (fun c => [nth 0 c 0; nth 1 c 0 - 1; nth 2 c 0; nth 3 c 0])
            (where4 (fun v => v =? 4) a)).
Proof.
  intros Hn. apply Z.ltb_lt in Hn.
  destruct (where4_spec a) as (_ & Hwidth & _).
  rewrite get_jump_locations_4d, Hn. split; [reflexivity|].
  unfold group_before. rewrite Hn. apply mapM_ext_ok.
  intros c Hc. specialize (Hwidth c Hc).
  destruct c as [|c0 [|c1 [|c2 [|c3 [|c4 c]]]]]; try discriminate. reflexivity.
Qed.

Lemma jump_locations_single_aux (nints : Z) (a : list (list (list (list Z)))) :
  nints <= 1 ->
  get_jump_locations nints (Dq4 a) = Ok (map (firstn 3) (where4 (fun v => v =? 4) a)) /\
  group_before nints (map (firstn 3) (where4 (fun v => v =? 4) a))
  = Ok (map (fun c => [nth 0 c 0 - 1; nth 1 c 0; nth 2 c 0])
            (where4 (fun v => v =? 4) a)).
Proof.
  intros Hn. apply Z.ltb_ge in Hn.
  destruct (where4_spec a) as (_ & Hwidth & _).
  rewrite get_jump_locations_4d, Hn. split; [reflexivity|].
  unfold group_before. rewrite Hn, mapM_map. apply mapM_ext_ok.
  intros c Hc. specialize (Hwidth c Hc).
  destruct c as [|c0 [|c1 [|c2 [|c3 [|c4 c]]]]]; try discriminate. reflexivity.
Qed.

(** X15. With several integrations and a four-dimensional
    data-quality array, [get_jump_locations] returns the coordinates
    (integration, group, row, column) of exactly the entries equal to
    the jump flag 4 (an entry that carries the flag together with
    another, such as 6, is not among them), one coordinate per entry;
    and [group_before] gives for each the coordinate one group
    earlier, all other indices kept. *)
Theorem jump_locations_flagged (nints : Z) (a : list (list (list (list Z)))) :
  1 < nints ->
  exists locs,
    get_jump_locations nints (Dq4 a) = Ok locs /\
    (forall i g y x, In [i; g; y; x] locs <-> entry4 a i g y x = Some 4) /\
    (forall c, In c locs -> length c = 4%nat) /\
    length locs = count4 a /\
    group_before nints locs
    = Ok (map (fun c => [nth 0 c 0; nth 1 c 0 - 1; nth 2 c 0; nth 3 c 0]) locs).
Proof.
  intros Hn. exists (where4 (fun v => v =? 4) a).
  destruct (where4_spec a) as (Hin & Hwidth & Hcount).
  destruct (jump_locations_flagged_aux nints a Hn) as [Hloc Hpre].
  repeat (split; [assumption|]). exact Hpre.
Qed.

(** X16. With a single integration (or none) and a four-dimensional
    data-quality array, [get_jump_locations] still returns one
    coordinate per entry equal to the jump flag, but only its first
    three indices (integration, group, row): the column is dropped, and
    entries that differ in the column alone give the same coordinate
    again.  [group_before] then lowers the first index, the
    integration, and leaves the group as it is. *)
Theorem jump_locations_single_integration (nints : Z)
  (a : list (list (list (list Z)))) :
  nints <= 1 ->
  exists locs,
    (forall i g y x, In [i; g; y; x] locs <-> entry4 a i g y x = Some 4) /\
    (forall c, In c locs -> length c = 4%nat) /\
    length locs = count4 a /\
    get_jump_locations nints (Dq4 a) = Ok (map (firstn 3) locs) /\
    group_before nints (map (firstn 3) locs)
    = Ok (map (fun c => [nth 0 c 0 - 1; nth 1 c 0; nth 2 c 0]) locs).
Proof.
  intros Hn. exists (where4 (fun v => v =? 4) a).
  destruct (where4_spec a) as (Hin & Hwidth & Hcount).
  destruct (jump_locations_single_aux nints a Hn) as [Hloc Hpre].
  repeat (split; [assumption|]). exact Hpre.
Qed.

Lemma jump_locations_flagged_example :
  exists locs,
    get_jump_locations 2 (Dq4 [[[[0; 4]; [6; 0]]; [[4; 0]; [0; 4]]];
                               [[[0; 0]; [0; 0]]; [[0; 0]; [4; 5]]]]) = Ok locs /\
    (forall i g y x, In [i; g; y; x] locs <->
                     entry4 [[[[0; 4]; [6; 0]]; [[4; 0]; [0; 4]]];
                             [[[0; 0]; [0; 0]]; [[0; 0]; [4; 5]]]] i g y x = Some 4) /\
    (forall c, In c locs -> length c = 4%nat) /\
    length locs = 4%nat /\
    group_before 2 locs
    = Ok (map (fun c => [nth 0 c 0; nth 1 c 0 - 1; nth 2 c 0; nth 3 c 0]) locs).
Proof.
  apply (jump_locations_flagged 2 [[[[0; 4]; [6; 0]]; [[4; 0]; [0; 4]]];
                                   [[[0; 0]; [0; 0]]; [[0; 0]; [4; 5]]]]).
  lia.
Defined.

Lemma jump_locations_single_integration_example :
  exists locs,
    (forall i g y x, In [i; g; y; x] locs <->
                     entry4 [[[[0; 4]; [6; 0]]; [[4; 4]; [0; 4]]]] i g y x = Some 4) /\
    (forall c, In c locs -> length c = 4%nat) /\
    length locs = 4%nat /\
    get_jump_locations 1 (Dq4 [[[[0; 4]; [6; 0]]; [[4; 4]; [0; 4]]]])
    = Ok (map (firstn 3) locs) /\
    group_before 1 (map (firstn 3) locs)
    = Ok (map (fun c => [nth 0 c 0 - 1; nth 1 c 0; nth 2 c 0]) locs).
Proof.
  apply (jump_locations_single_integration 1 [[[[0; 4]; [6; 0]]; [[4; 4]; [0; 4]]]]).
  lia.
Defined.

Lemma entry_bounds {A : Type} (l : list A) (i : Z) (b : A) :
  entry l i = Some b -> 0 <= i < Z.of_nat (length l) /\ In b l.
Proof.
  intros H. apply entry_spec in H as [H0 H]. split.
  - split; [exact H0|]. assert (Hlt : (Z.to_nat i < length l)%nat)
      by (apply nth_error_Some; congruence). lia.
  - eapply nth_error_In. exact H.
Qed.

Lemma at2_returns {A : Type} (c : list (list A)) (n3 n4 : nat) (k l : Z) :
  has_shape2 c n3 n4 ->
  - Z.of_nat n3 <= k < Z.of_nat n3 -> - Z.of_nat n4 <= l < Z.of_nat n4 ->
  exists v, at2 c k l = Ok v.
Proof.
  intros [Hlen Hrows] Hk Hl. unfold at2.
  destruct (py_index_in_range c k) as [d Hd]; [lia|]. rewrite Hd, bind_ret.
  rewrite Forall_forall in Hrows. specialize (Hrows d (py_index_In _ _ _ Hd)).
  apply py_index_in_range. lia.
Qed.

Lemma at3_returns {A : Type} (b : list (list (list A))) (n2 n3 n4 : nat) (j k l : Z) :
  has_shape3 b n2 n3 n4 ->
  - Z.of_nat n2 <= j < Z.of_nat n2 ->
  - Z.of_nat n3 <= k < Z.of_nat n3 -> - Z.of_nat n4 <= l < Z.of_nat n4 ->
  exists v, at3 b j k l = Ok v.
Proof.
  intros [Hlen Hplanes] Hj Hk Hl. unfold at3.
  destruct (py_index_in_range b j) as [c Hc]; [lia|]. rewrite Hc, bind_ret.
  rewrite Forall_forall in Hplanes. specialize (Hplanes c (py_index_In _ _ _ Hc)).
  now apply (at2_returns c n3 n4).
Qed.

Lemma at4_returns {A : Type} (a : list (list (list (list A)))) (n1 n2 n3 n4 : nat)
  (i j k l : Z) :
  has_shape4 a n1 n2 n3 n4 ->
  - Z.of_nat n1 <= i < Z.of_nat n1 -> - Z.of_nat n2 <= j < Z.of_nat n2 ->
  - Z.of_nat n3 <= k < Z.of_nat n3 -> - Z.of_nat n4 <= l < Z.of_nat n4 ->
  exists v, at4 a i j k l = Ok v.
Proof.
  intros [Hlen Hcubes] Hi Hj Hk Hl. unfold at4.
  destruct (py_index_in_range a i) as [b Hb]; [lia|]. rewrite Hb, bind_ret.
  rewrite Forall_forall in Hcubes. specialize (Hcubes b (py_index_In _ _ _ Hb)).
  now apply (at3_returns b n2 n3 n4).
Qed.

(** The indices of an entry of an array of a given shape. *)
Lemma entry4_bounds (a : list (list (list (list Z)))) (n1 n2 n3 n4 : nat)
  (i g y x v : Z) :
  has_shape4 a n1 n2 n3 n4 -> entry4 a i g y x = Some v ->
  0 <= i < Z.of_nat n1 /\ 0 <= g < Z.of_nat n2 /\
  0 <= y < Z.of_nat n3 /\ 0 <= x < Z.of_nat n4.
Proof.
  intros [H1 Ha] H. unfold entry4 in H. rewrite Forall_forall in Ha.
  destruct (entry a i) as [b|] eqn:Eb; [|discriminate].
  apply entry_bounds in Eb as [Hi Hb]. destruct (Ha b Hb) as [H2 Hbs].
  rewrite Forall_forall in Hbs.
  destruct (entry b g) as [c|] eqn:Ec; [|discriminate].
  apply entry_bounds in Ec as [Hg Hc]. destruct (Hbs c Hc) as [H3 Hcs].
  rewrite Forall_forall in Hcs.
  destruct (entry c y) as [d|] eqn:Ed; [|discriminate].
  apply entry_bounds in Ed as [Hy Hd]. specialize (Hcs d Hd).
  apply entry_bounds in H as [Hx _]. lia.
Qed.

Lemma mapM_total {A B : Type} (f : A -> result B) (P : B -> Prop) (l : list A) :
  (forall a, In a l -> exists b, f a = Ok b /\ P b) ->
  exists bs, mapM f l = Ok bs /\ length bs = length l /\ Forall P bs.
Proof.
  induction l as [|a l IH]; intros H.
  - exists []. repeat split. constructor.
  - destruct (H a (or_introl eq_refl)) as (b & Hb & Pb).
    destruct IH as (bs & Hbs & Hlen & HP); [intros x Hx; apply H; now right|].
    exists (b :: bs). simpl. rewrite Hb, Hbs. repeat split.
    + simpl. now rewrite Hlen.
    + now constructor.
Qed.

Section MagnitudeProperties.

Variable V : Type.
Variables sub mul : V -> V -> V.

(** The magnitudes of an exposure of several integrations, and those
    of an exposure of one. *)
Lemma process_magnitudes_several (nints : Z) (a : list (list (list (list Z))))
  (data : list (list (list (list V)))) (r : list (list (list V))) (tgroup : V) :
  1 < nints ->
  process_magnitudes sub mul nints (Dq4 a) (Rate3 r) data (Some tgroup)
  = mapM (fun c =>
            match c with
            | [i; g; y; x] =>
                rate <- at3 r i y x ;;
                v <- at4 data i g y x ;;
                w <- at4 data i (g - 1) y x ;;
                Ok (Some (sub (sub v w) (mul rate tgroup)))
            | _ => Raise IndexError
            end) (where4 (fun v => v =? 4) a).
Proof.
  intros Hn. destruct (where4_spec a) as (_ & Hwidth & _).
  destruct (jump_locations_flagged_aux nints a) as [Hloc Hpre]; [exact Hn|].
  unfold process_magnitudes. rewrite Hloc, bind_ret, Hpre, bind_ret.
  unfold get_cr_mags. rewrite combine_map_r, mapM_map.
  assert (Hdiag : forall (l : list (list Z)), combine l l = map (fun c => (c, c)) l)
    by (induction l as [|c l IH]; simpl; congruence).
  rewrite Hdiag, mapM_map.
  assert (Hnot1 : (nints =? 1) = false) by (apply Z.eqb_neq; lia).
  apply mapM_ext_in. intros c Hc. specialize (Hwidth c Hc).
  destruct c as [|c0 [|c1 [|c2 [|c3 [|c4 c]]]]]; try discriminate.
  unfold magnitude. simpl fst. simpl snd. rewrite Hnot1.
  change (py_index [c0; c1; c2; c3] 0) with (Ok (A := Z) c0).
  change (py_index [c0; c1; c2; c3] (-2)) with (Ok (A := Z) c2).
  change (py_index [c0; c1; c2; c3] (-1)) with (Ok (A := Z) c3).
  rewrite !bind_ret. unfold data_at.
  change (nth 0 [c0; c1; c2; c3] 0) with c0. change (nth 1 [c0; c1; c2; c3] 0) with c1.
  change (nth 2 [c0; c1; c2; c3] 0) with c2. change (nth 3 [c0; c1; c2; c3] 0) with c3.
  destruct (at3 r c0 c2 c3) as [rate|e]; [|reflexivity]. rewrite !bind_ret.
  destruct (at4 data c0 c1 c2 c3) as [v|e]; [|reflexivity]. rewrite !bind_ret.
  destruct (at4 data c0 (c1 - 1) c2 c3) as [w|e]; reflexivity.
Qed.

Lemma process_magnitudes_single (a : list (list (list (list Z))))
  (data : list (list (list (list V)))) (r : list (list V)) (tgroup : V) :
  process_magnitudes sub mul 1 (Dq4 a) (Rate2 r) data (Some tgroup)
  = mapM (fun c =>
            match c with
            | [i; g; y; x] =>
                rate <- at2 r g y ;;
                v <- at4 data 0 i g y ;;
                w <- at4 data 0 (i - 1) g y ;;
                Ok (Some (sub (sub v w) (mul rate tgroup)))
            | _ => Raise IndexError
            end) (where4 (fun v => v =? 4) a).
Proof.
  destruct (where4_spec a) as (_ & Hwidth & _).
  destruct (jump_locations_single_aux 1 a) as [Hloc Hpre]; [lia|].
  unfold process_magnitudes. rewrite Hloc, bind_ret, Hpre, bind_ret.
  unfold get_cr_mags. rewrite combine_map_both, mapM_map.
  apply mapM_ext_in. intros c Hc. specialize (Hwidth c Hc).
  destruct c as [|c0 [|c1 [|c2 [|c3 [|c4 c]]]]]; try discriminate.
  unfold magnitude. change (1 =? 1) with true. cbv iota.
  change (firstn 3 [c0; c1; c2; c3]) with [c0; c1; c2].
  change (nth 0 [c0; c1; c2; c3] 0) with c0. change (nth 1 [c0; c1; c2; c3] 0) with c1.
  change (nth 2 [c0; c1; c2; c3] 0) with c2.
  simpl fst. simpl snd.
  change (py_index [c0; c1; c2] 0) with (Ok (A := Z) c0).
  change (py_index [c0; c1; c2] 1) with (Ok (A := Z) c1).
  change (py_index [c0; c1; c2] 2) with (Ok (A := Z) c2).
  change (py_index [c0; c1; c2] (-2)) with (Ok (A := Z) c1).
  change (py_index [c0; c1; c2] (-1)) with (Ok (A := Z) c2).
  change (py_index [c0 - 1; c1; c2] 0) with (Ok (A := Z) (c0 - 1)).
  change (py_index [c0 - 1; c1; c2] 1) with (Ok (A := Z) c1).
  change (py_index [c0 - 1; c1; c2] 2) with (Ok (A := Z) c2).
  rewrite !bind_ret.
  destruct (at2 r c1 c2) as [rate|e]; [|reflexivity]. rewrite !bind_ret.
  destruct (at4 data 0 c0 c1 c2) as [v|e]; [|reflexivity]. rewrite !bind_ret.
  destruct (at4 data 0 (c0 - 1) c1 c2) as [w|e]; reflexivity.
Qed.

Lemma StronglySorted_app {A : Type} (R : A -> A -> Prop) (l1 l2 : list A) :
  StronglySorted R l1 -> StronglySorted R l2 ->
  (forall x y, In x l1 -> In y l2 -> R x y) ->
  StronglySorted R (l1 ++ l2).
Proof.
  induction l1 as [|a l1 IH]; simpl; intros H1 H2 H; [exact H2|].
  apply StronglySorted_inv in H1 as [H1 Ha]. constructor.
  - apply IH; [exact H1 | exact H2 | intros x y Hx Hy; apply H; [now right | exact Hy]].
  - apply Forall_app. split; [exact Ha|].
    apply Forall_forall. intros y Hy. apply H; [now left | exact Hy].
Qed.

Lemma where_from_sorted {A : Type} (p : A -> bool) (l : list A) :
  forall k, StronglySorted Z.lt (where_from p k l).
Proof.
  induction l as [|a l IH]; intros k; simpl; [constructor|].
  destruct (p a); [|apply IH].
  constructor; [apply IH|].
  apply Forall_forall. intros j Hj. apply where_from_In in Hj as [Hj _]. lia.
Qed.

Lemma where1_sorted (p : Z -> bool) (d : list Z) :
  StronglySorted coord_lt (where1 p d).
Proof.
  unfold where1, np_where.
  pose proof (where_from_sorted p d 0) as H.
  induction H as [|j l Hl IH Hj]; simpl; constructor; [exact IH|].
  rewrite Forall_forall in Hj. apply Forall_forall.
  intros c Hc. apply in_map_iff in Hc as (i & <- & Hi).
  left. now apply Hj.
Qed.

Lemma map_cons_sorted (j : Z) (l : list (list Z)) :
  StronglySorted coord_lt l -> StronglySorted coord_lt (map (cons j) l).
Proof.
  intros H. induction H as [|c l Hl IH Hc]; simpl; constructor; [exact IH|].
  rewrite Forall_forall in Hc. apply Forall_forall.
  intros d Hd. apply in_map_iff in Hd as (d' & <- & Hd').
  right. split; [reflexivity | now apply Hc].
Qed.

(** [np.where] lists the entries in the order of the array. *)
Lemma where_nested_sorted {A : Type} (inner : A -> list (list Z)) (a : list A) :
  (forall b, StronglySorted coord_lt (inner b)) ->
  StronglySorted coord_lt (where_nested inner a).
Proof.
  intros Hinner. unfold where_nested, range.
  assert (H : forall k,
    StronglySorted coord_lt
      (concat (map (fun ai => map (cons (snd ai)) (inner (fst ai)))
                   (combine a (map Z.of_nat (seq k (length a)))))) /\
    forall c, In c (concat (map (fun ai => map (cons (snd ai)) (inner (fst ai)))
                                (combine a (map Z.of_nat (seq k (length a)))))) ->
              exists j t, c = j :: t /\ Z.of_nat k <= j).
  { induction a as [|b a IH]; intros k.
    - split; [constructor | intros c []].
    - destruct (IH (S k)) as [Hs Hh]. simpl. split.
      + apply StronglySorted_app; [now apply map_cons_sorted | exact Hs |].
        intros x y Hx Hy. apply in_map_iff in Hx as (x' & <- & _).
        destruct (Hh y Hy) as (j & t & -> & Hj). left. lia.
      + intros c Hc. apply in_app_or in Hc as [Hc|Hc].
        * apply in_map_iff in Hc as (t & <- & _). exists (Z.of_nat k), t.
          split; [reflexivity | lia].
        * destruct (Hh c Hc) as (j & t & -> & Hj). exists j, t.
          split; [reflexivity | lia]. }
  exact (proj1 (H 0%nat)).
Qed.

Lemma where4_sorted (p : Z -> bool) (a : list (list (list (list Z)))) :
  StronglySorted coord_lt (where4 p a).
Proof.
  unfold where4, where3, where2.
  apply where_nested_sorted. intros b.
  apply where_nested_sorted. intros c.
  apply where_nested_sorted. intros d.
  apply where1_sorted.
Qed.

(** X17. The analysis of one exposure in [process], on a
    four-dimensional data-quality array: there is one magnitude per
    entry equal to the jump flag, in the order of the array (the
    coordinates of the jumps, of four indices each, increase from one
    magnitude to the next, the first index counting most).  With
    several integrations the magnitude of the jump at (integration i,
    group g, row y, column x) is [data[i][g][y][x] - data[i][g-1][y][x]
    - rate[i][y][x] * TGROUP], the index [g-1] of a jump in group 0
    being -1, the last group.  With a single integration and a
    two-dimensional rate array it is [data[0][i][g][y] -
    data[0][i-1][g][y] - rate[g][y] * TGROUP]: the column [x] plays no
    part, the group and the row are used as row and column. *)
Theorem process_magnitudes_spec (nints : Z) (a : list (list (list (list Z))))
  (data : list (list (list (list V)))) (tgroup : V) :
  exists locs,
    (forall i g y x, In [i; g; y; x] locs <-> entry4 a i g y x = Some 4) /\
    length locs = count4 a /\
    Forall (fun c => length c = 4%nat) locs /\
    StronglySorted coord_lt locs /\
    (1 < nints -> forall r,
       process_magnitudes sub mul nints (Dq4 a) (Rate3 r) data (Some tgroup)
       = mapM (fun c =>
                 match c with
                 | [i; g; y; x] =>
                     rate <- at3 r i y x ;;
                     v <- at4 data i g y x ;;
                     w <- at4 data i (g - 1) y x ;;
                     Ok (Some (sub (sub v w) (mul rate tgroup)))
                 | _ => Raise IndexError
                 end) locs) /\
    (nints = 1 -> forall r,
       process_magnitudes sub mul nints (Dq4 a) (Rate2 r) data (Some tgroup)
       = mapM (fun c =>
                 match c with
                 | [i; g; y; x] =>
                     rate <- at2 r g y ;;
                     v <- at4 data 0 i g y ;;
                     w <- at4 data 0 (i - 1) g y ;;
                     Ok (Some (sub (sub v w) (mul rate tgroup)))
                 | _ => Raise IndexError
                 end) locs).
Proof.
  exists (where4 (fun v => v =? 4) a).
  destruct (where4_spec a) as (Hin & Hwidth & Hcount).
  split; [exact Hin|]. split; [exact Hcount|].
  split; [apply Forall_forall; exact Hwidth|].
  split; [apply where4_sorted|]. split.
  - intros Hn r. now apply process_magnitudes_several.
  - intros Hn r. subst nints. apply process_magnitudes_single.
Qed.

(** X18. With several integrations, a data-quality array and a data
    array of one shape (integrations, groups, rows, columns) and a
    rate array of the shape (integrations, rows, columns), the analysis
    of an exposure returns: no index is out of range, and there is one
    magnitude, a number, for each entry equal to the jump flag. *)
Theorem process_magnitudes_returns (nints : Z) (a : list (list (list (list Z))))
  (data : list (list (list (list V)))) (r : list (list (list V))) (tgroup : V)
  (n1 n2 n3 n4 : nat) :
  1 < nints ->
  has_shape4 a n1 n2 n3 n4 -> has_shape4 data n1 n2 n3 n4 -> has_shape3 r n1 n3 n4 ->
  exists mags,
    process_magnitudes sub mul nints (Dq4 a) (Rate3 r) data (Some tgroup) = Ok mags /\
    length mags = count4 a /\
    Forall (fun m => m <> None) mags.
Proof.
  intros Hn Ha Hdata Hr.
  rewrite (process_magnitudes_several nints a data r tgroup Hn).
  destruct (where4_spec a) as (Hin & Hwidth & Hcount). rewrite <- Hcount.
  apply mapM_total. intros c Hc. pose proof (Hwidth c Hc) as Hlen.
  destruct c as [|i [|g [|y [|x [|c4 c]]]]]; try discriminate.
  apply Hin in Hc. destruct (entry4_bounds a n1 n2 n3 n4 i g y x 4 Ha Hc) as (Hi & Hg & Hy & Hx).
  destruct (at3_returns r n1 n3 n4 i y x Hr) as [rate Hrate]; try lia.
  destruct (at4_returns data n1 n2 n3 n4 i g y x Hdata) as [v Hv]; try lia.
  destruct (at4_returns data n1 n2 n3 n4 i (g - 1) y x Hdata) as [w Hw]; try lia.
  rewrite Hrate, Hv, Hw. eexists. split; [reflexivity | discriminate].
Qed.

End MagnitudeProperties.

Lemma process_magnitudes_returns_example :
  exists mags,
    process_magnitudes Z.sub Z.mul 2
      (Dq4 [[[[0; 4]]; [[4; 0]]]; [[[0; 0]]; [[6; 4]]]])
      (Rate3 [[[1; 2]]; [[3; 4]]])
      [[[[10; 20]]; [[30; 40]]]; [[[50; 60]]; [[70; 80]]]] (Some 5) = Ok mags /\
    length mags = 3%nat /\
    Forall (fun m => m <> None) mags.
Proof.
  apply (process_magnitudes_returns Z Z.sub Z.mul 2
           [[[[0; 4]]; [[4; 0]]]; [[[0; 0]]; [[6; 4]]]]
           [[[[10; 20]]; [[30; 40]]]; [[[50; 60]]; [[70; 80]]]]
           [[[1; 2]]; [[3; 4]]] 5 2 2 1 2).
  - lia.
  - repeat (split || constructor).
  - repeat (split || constructor).
  - repeat (split || constructor).
Defined.

(* ================================================================= *)
(** ** Retrieval of change-only data *)

(** What [change_only_add_points] leaves of non-empty rows: the first
    row, and for every row but the last a row one microsecond before
    it. *)
Lemma change_only_add_points_rows (self : EdbMnemonic) (r0 : datetime * euvalue)
  (rest : list (datetime * euvalue)) :
  data self = Rows (r0 :: rest) ->
  exists added,
    change_only_add_points self = Ok (with_data self (Rows (r0 :: added))) /\
    length added = length rest /\
    (forall p, In p added ->
               exists t, In t (map fst (r0 :: rest)) /\ fst p = t - microsecond) /\
    (rest <> [] -> nth_error added 0 = Some (fst r0 - microsecond, snd (last rest r0))).
Proof.
  intros Hdata.
  set (all := r0 :: rest).
  set (d := map fst all). set (v := map snd all).
  set (g := fun i : Z =>
              (match py_index d i with Ok x => x | Raise _ => 0 end - microsecond,
               match py_index v (i - 1) with Ok x => x | Raise _ => snd r0 end)).
  exists (map g (range (length rest))).
  assert (Hd : length d = S (length rest)) by (unfold d, all; now rewrite length_map).
  assert (Hv : length v = S (length rest)) by (unfold v, all; now rewrite length_map).
  assert (Hadd : mapM (fun i =>
                   di <- py_index d i ;;
                   vi <- py_index v (i - 1) ;;
                   Ok (di - microsecond, vi)) (range (length rest))
                 = Ok (map g (range (length rest)))).
  { apply mapM_ext_ok. intros i Hi. apply in_range in Hi.
    destruct (py_index_in_range d i) as [x Hx]; [lia|].
    destruct (py_index_in_range v (i - 1)) as [y Hy]; [lia|].
    unfold g. rewrite Hx, Hy. reflexivity. }
  split; [|split; [|split]].
  - unfold change_only_add_points. rewrite Hdata.
    unfold table_slice_from. rewrite py_slice_tail. simpl table_len.
    change (col_dates (Rows (r0 :: rest))) with (Ok (A := list datetime) d).
    change (col_euvalues (Rows (r0 :: rest))) with (Ok (A := list euvalue) v).
    cbv beta iota delta [bind].
    change (py_index d 0) with (Ok (A := datetime) (fst r0)).
    change (py_index v 0) with (Ok (A := euvalue) (snd r0)).
    cbv beta iota delta [bind] in Hadd. rewrite Hadd.
    unfold set_dates, set_euvalues. simpl length.
    rewrite !length_map, Nat.eqb_refl.
    change (fst r0 :: map fst (map g (range (length rest))))
      with (map fst (r0 :: map g (range (length rest)))).
    change (snd r0 :: map snd (map g (range (length rest))))
      with (map snd (r0 :: map g (range (length rest)))).
    rewrite combine_fst_snd. reflexivity.
  - unfold range. now rewrite !length_map, length_seq.
  - intros p Hp. apply in_map_iff in Hp as (i & <- & Hi). apply in_range in Hi.
    destruct (py_index_in_range d i) as [x Hx]; [lia|].
    exists x. split; [exact (py_index_In _ _ _ Hx)|]. unfold g. now rewrite Hx.
  - intros Hne. destruct rest as [|r1 rest]; [contradiction|].
    change (nth_error (map g (range (length (r1 :: rest)))) 0) with (Some (g 0)).
    unfold g.
    change (py_index d 0) with (Ok (A := datetime) (fst r0)).
    change (0 - 1) with (-1).
    unfold v, all.
    change (map snd (r0 :: r1 :: rest)) with (snd r0 :: map snd (r1 :: rest)).
    rewrite (py_index_last _ _ (snd r0)).
    change (last (snd r0 :: map snd (r1 :: rest)) (snd r0))
      with (last (map snd (r1 :: rest)) (snd r0)).
    now rewrite last_map_apply.
Qed.

Lemma NoDup_snoc {A : Type} (l : list A) (y : A) :
  NoDup l -> ~ In y l -> NoDup (l ++ [y]).
Proof.
  induction l as [|a l IH]; intros Hl Hy; simpl.
  - constructor; [intros [] | constructor].
  - inversion Hl; subst. constructor.
    + intros Hin. apply in_app_or in Hin as [Hin|[->|[]]]; [contradiction|].
      apply Hy. now left.
    + apply IH; [assumption|]. intros Hin. apply Hy. now right.
Qed.

Lemma sorted_lt_le (l : list Z) : StronglySorted Z.lt l -> StronglySorted Z.le l.
Proof.
  induction 1 as [|a l Hl IH Ha]; constructor; [exact IH|].
  eapply Forall_impl; [|exact Ha]. simpl. lia.
Qed.

(** The dates handed to the constructor for change-only data increase
    strictly when the service's do and none lies on a bound of the
    window. *)
Lemma bounded_dates_increasing (rows : list (datetime * euvalue))
  (starttime endtime : datetime) :
  StronglySorted Z.lt (map fst rows) -> starttime < endtime ->
  ~ In starttime (map fst rows) -> ~ In endtime (map fst rows) ->
  StronglySorted Z.lt
    (starttime :: map fst (clip_to_window rows starttime endtime) ++ [endtime]).
Proof.
  intros Hs Hlt Hst Hen.
  apply sorted_lt_NoDup_iff.
  - apply bounded_dates_sorted; [now apply sorted_lt_le | lia].
  - assert (Hsub : forall t, In t (map fst (clip_to_window rows starttime endtime)) ->
                             In t (map fst rows)).
    { intros t Ht. apply in_map_iff in Ht as (r & <- & Hr).
      apply filter_In in Hr as [Hr _]. now apply in_map. }
    constructor.
    + intros Hin. apply in_app_or in Hin as [Hin|[Heq|[]]]; [|lia].
      apply Hst. now apply Hsub.
    + apply NoDup_snoc.
      * unfold clip_to_window.
        rewrite <- (filter_map_fst (fun t => (t <=? endtime) && (starttime <=? t))).
        apply NoDup_filter. now apply sorted_lt_NoDup.
      * intros Hin. apply Hen. now apply Hsub.
Qed.

Lemma last_combine_snoc {A B : Type} (l : list A) (l' : list B) (a : A) (b : B)
  (d : A * B) :
  length l = length l' -> last (combine (l ++ [a]) (l' ++ [b])) d = (a, b).
Proof.
  revert l'. induction l as [|x l IH]; intros [|y l'] Hl; simpl in Hl;
    try discriminate; [reflexivity|].
  simpl app. simpl combine. specialize (IH l' (f_equal pred Hl)).
  destruct (combine (l ++ [a]) (l' ++ [b])) eqn:E; [|exact IH].
  destruct l, l'; discriminate.
Qed.

Section ChangeOnlyRetrieval.

Context {ext : External}.

(** X19. For a mnemonic stored as change-only data with numeric
    values, samples in strictly increasing order and none exactly at
    the requested start or end, [get_mnemonic] returns.  The instance
    has as many rows as there are samples inside the window plus two.
    Its first row stands at the start with the value held before it;
    its second row stands one microsecond BEFORE the requested start
    and carries the value held before the end; no row stands at the
    requested end or later, although the recorded data range still
    runs from the requested start to the requested end. *)
Theorem get_mnemonic_change_only (service : Service) (ident : string)
  (start_time end_time : datetime) (rows : list (datetime * euvalue)) :
  get_meta service ident = Some 0 ->
  get_values service ident start_time end_time true = rows ->
  StronglySorted Z.lt (map fst rows) ->
  Forall (fun r => is_number (snd r) = true) rows ->
  start_time < end_time ->
  ~ In start_time (map fst rows) -> ~ In end_time (map fst rows) ->
  exists r new_rows,
    get_mnemonic service ident start_time end_time = Ok r /\
    data r = Rows new_rows /\
    length new_rows = (length (clip_to_window rows start_time end_time) + 2)%nat /\
    nth_error new_rows 0 = Some (start_time, held_before rows start_time) /\
    nth_error new_rows 1 = Some (start_time - microsecond, held_before rows end_time) /\
    (forall t, In t (map fst new_rows) -> t < end_time) /\
    data_start_time r = Some start_time /\ data_end_time r = Some end_time /\
    requested_start_time r = Some start_time /\ requested_end_time r = Some end_time.
Proof.
  intros Hmeta Hrows Hs Hnum Hlt Hst Hen.
  unfold get_mnemonic. rewrite Hmeta. simpl all_points. rewrite bind_ret.
  cbv zeta. rewrite Z.eqb_refl, Hrows.
  rewrite change_only_bounding_points_rows, bind_ret.
  set (clipped := clip_to_window rows start_time end_time).
  set (first_row := (start_time, held_before rows start_time)).
  set (bounded := map fst clipped ++ [end_time]).
  set (values := map snd clipped ++ [held_before rows end_time]).
  assert (Hlen : length (start_time :: bounded)
                 = length (held_before rows start_time :: values))
    by (unfold bounded, values; simpl; rewrite !length_app, !length_map; reflexivity).
  rewrite (table_of_columns_rows _ _ Hlen), bind_ret.
  change (combine (start_time :: bounded) (held_before rows start_time :: values))
    with (first_row :: combine bounded values).
  assert (Hlen' : length bounded = length values) by (simpl in Hlen; congruence).
  destruct (map_fst_combine_eq _ _ Hlen') as [Hfst Hsnd].
  assert (Hsorted : StronglySorted Z.lt (map fst (first_row :: combine bounded values))).
  { simpl map. rewrite Hfst. now apply bounded_dates_increasing. }
  destruct (init_sorted_rows ident (Some start_time) (Some end_time)
              (first_row :: combine bounded values) (Some 0)
              (get_mnemonic_info service ident) Sentinel Hsorted) as [m Hm].
  rewrite Hm, bind_ret.
  destruct (init_frame _ _ _ _ _ _ _ _ Hm) as (Hdata & _).
  destruct (init_window _ _ _ _ _ _ _ _ Hm) as (Hrs & Hre & Hds & Hde).
  unfold __len__. rewrite Hdata. simpl col_dates. rewrite bind_ret.
  change (Nat.ltb 0 (length (fst first_row :: map fst (combine bounded values))))
    with true. cbv iota.
  destruct (change_only_add_points_rows m first_row (combine bounded values) Hdata)
    as (added & Hadd & Hlen_added & Hdates & Hsecond).
  rewrite Hadd. exists (with_data m (Rows (first_row :: added))), (first_row :: added).
  assert (Hblen : length (combine bounded values) = S (length clipped)).
  { rewrite length_combine, <- Hlen', Nat.min_id. unfold bounded.
    rewrite length_app, length_map. simpl. lia. }
  assert (Hbounds : forall t, In t (map fst (first_row :: combine bounded values)) ->
                              t <= end_time).
  { intros t Ht. simpl map in Ht. rewrite Hfst in Ht.
    destruct Ht as [<-|Ht]; [simpl; lia|].
    unfold bounded in Ht. apply in_app_or in Ht as [Ht|[<-|[]]]; [|lia].
    apply in_map_iff in Ht as (q & <- & Hq). apply filter_In in Hq as [_ Hq].
    apply andb_prop in Hq as [Hq _]. now apply Z.leb_le in Hq. }
  split; [reflexivity|]. split; [reflexivity|].
  split; [simpl; rewrite Hlen_added, Hblen; lia|].
  split; [reflexivity|]. split.
  - change (nth_error (first_row :: added) 1) with (nth_error added 0).
    rewrite Hsecond.
    + f_equal. f_equal.
      assert (Hlast : last (combine bounded values) first_row
                      = (end_time, held_before rows end_time)).
      { unfold bounded, values. apply last_combine_snoc. now rewrite !length_map. }
      now rewrite Hlast.
    + intros Hnil. rewrite Hnil in Hblen. discriminate.
  - split.
    + intros t Ht. simpl map in Ht. destruct Ht as [<-|Ht]; [simpl; lia|].
      apply in_map_iff in Ht as (p & <- & Hp).
      destruct (Hdates p Hp) as (u & Hu & ->).
      specialize (Hbounds u Hu). unfold microsecond. lia.
    + change (data_start_time (with_data m (Rows (first_row :: added))))
        with (data_start_time m).
      change (data_end_time (with_data m (Rows (first_row :: added))))
        with (data_end_time m).
      change (requested_start_time (with_data m (Rows (first_row :: added))))
        with (requested_start_time m).
      change (requested_end_time (with_data m (Rows (first_row :: added))))
        with (requested_end_time m).
      rewrite Hds, Hde, Hrs, Hre.
      assert (Hne : first_row :: combine bounded values <> []) by discriminate.
      destruct (earliest_spec _ Hne) as [He1 He2].
      destruct (latest_spec _ Hne) as [Hl1 Hl2].
      assert (Hstart : In start_time (map fst (first_row :: combine bounded values)))
        by now left.
      assert (Hend : In end_time (map fst (first_row :: combine bounded values))).
      { simpl map. rewrite Hfst. right. unfold bounded. apply in_or_app. right. now left. }
      assert (Hhead : forall t, In t (map fst (first_row :: combine bounded values)) ->
                                start_time <= t).
      { intros t [<-|Ht]; [simpl; lia|].
        simpl map in Hsorted. apply StronglySorted_inv in Hsorted as [_ Hall].
        rewrite Forall_forall in Hall. specialize (Hall t Ht). simpl in Hall. lia. }
      pose proof (He2 _ Hstart). pose proof (Hhead _ He1).
      pose proof (Hl2 _ Hend). pose proof (Hbounds _ Hl1).
      repeat split; f_equal; lia.
Qed.

End ChangeOnlyRetrieval.

Lemma get_mnemonic_change_only_example :
  exists r new_rows,
    get_mnemonic (constant_service 0 [(0, num 1); (7, num 2); (30, num 3)]) "M" 5 20 = Ok r /\
    data r = Rows new_rows /\
    length new_rows = 3%nat /\
    nth_error new_rows 0 = Some (5, num 1) /\
    nth_error new_rows 1 = Some (4, num 2) /\
    (forall t, In t (map fst new_rows) -> t < 20) /\
    data_start_time r = Some 5 /\ data_end_time r = Some 20 /\
    requested_start_time r = Some 5 /\ requested_end_time r = Some 20.
Proof.
  apply (get_mnemonic_change_only
           (constant_service 0 [(0, num 1); (7, num 2); (30, num 3)]) "M" 5 20
           [(0, num 1); (7, num 2); (30, num 3)]).
  - reflexivity.
  - reflexivity.
  - simpl. repeat (constructor; try lia).
  - repeat constructor.
  - lia.
  - simpl. lia.
  - simpl. lia.
Defined.

(* ================================================================= *)
(** ** The midpoint that serves as median time *)

(** X20. The median time of a window is the middle between its first
    and its last timestamp, whatever timestamps lie between them (it
    is not their median): it is the same for every window with those
    two ends, differs from the exact middle by half a microsecond at
    most, and lies between the two when they are in order. *)
Theorem calc_median_time_midpoint (first final : datetime) (between : list datetime) :
  exists med_time,
    calc_median_time (first :: between ++ [final]) = Ok med_time /\
    calc_median_time [first; final] = Ok med_time /\
    -1 <= 2 * med_time - (first + final) <= 1 /\
    (first <= final -> first <= med_time <= final).
Proof.
  exists (first + td_half (final - first)).
  assert (Hlast : forall l, last (first :: l ++ [final]) 0 = final).
  { intros l. change (first :: l ++ [final]) with ((first :: l) ++ [final]).
    apply last_last. }
  split; [now rewrite calc_median_time_cons, Hlast|].
  split; [reflexivity|].
  unfold td_half. cbv zeta.
  pose proof (Z.div_mod (final - first) 2 ltac:(lia)) as Hdm.
  pose proof (Z.mod_pos_bound (final - first) 2 ltac:(lia)) as Hmod.
  destruct (Z.even (final - first)) eqn:Ed.
  - apply Z.even_spec in Ed. destruct Ed as [k Hk].
    assert ((final - first) / 2 = k) by (rewrite Hk, Z.mul_comm; now apply Z.div_mul).
    lia.
  - assert (Hodd : (final - first) mod 2 = 1).
    { rewrite <- Z.negb_odd in Ed. apply negb_false_iff in Ed.
      apply Z.odd_spec in Ed. destruct Ed as [k Hk]. rewrite Hk.
      rewrite Z.add_comm, Z.mul_comm, Z.mod_add by lia. reflexivity. }
    destruct (Z.even ((final - first) / 2)); lia.
Qed.

(* ================================================================= *)
(** ** The product of two series *)

Lemma Forall2_nth_error_l {A B : Type} (R : A -> B -> Prop) (l : list A) (l' : list B) :
  Forall2 R l l' ->
  forall k a, nth_error l k = Some a -> exists b, nth_error l' k = Some b /\ R a b.
Proof.
  induction 1 as [|x y l l' Hxy Hrest IH]; intros k a Hk.
  - now destruct k.
  - destruct k as [|k]; simpl in *; [inversion Hk; subst; eauto | now apply IH].
Qed.

Lemma Forall2_nth_error_r {A B : Type} (R : A -> B -> Prop) (l : list A) (l' : list B) :
  Forall2 R l l' ->
  forall k b, nth_error l' k = Some b -> exists a, nth_error l k = Some a /\ R a b.
Proof.
  induction 1 as [|x y l l' Hxy Hrest IH]; intros k b Hk.
  - now destruct k.
  - destruct k as [|k]; simpl in *; [inversion Hk; subst; eauto | now apply IH].
Qed.

Lemma nth_error_combine {A B : Type} (l : list A) (l' : list B) (k : nat) (a : A) (b : B) :
  nth_error (combine l l') k = Some (a, b) <->
  nth_error l k = Some a /\ nth_error l' k = Some b.
Proof.
  revert l' k. induction l as [|x l IH]; intros [|y l'] [|k]; simpl;
    try (split; [discriminate | intros [H1 H2]; discriminate]).
  - split; [intros H; inversion H; now subst | intros [H1 H2]; congruence].
  - apply IH.
Qed.

Lemma StronglySorted_filter (p : Z -> bool) (l : list Z) :
  StronglySorted Z.lt l -> StronglySorted Z.lt (filter p l).
Proof.
  induction 1 as [|a l Hl IH Ha]; simpl; [constructor|].
  destruct (p a); [|exact IH]. constructor; [exact IH|].
  rewrite Forall_forall in *. intros x Hx. apply Ha.
  now apply filter_In in Hx as [Hx _].
Qed.

(** The values [np.intersect1d] returns: the distinct values of the
    first array that occur in the second, in increasing order, each
    with an index at which it stands in either array. *)
Lemma np_intersect1d_spec (ar1 ar2 common i1 i2 : list Z) :
  np_intersect1d ar1 ar2 = (common, i1, i2) ->
  StronglySorted Z.lt common /\
  (forall t, In t ar1 -> In t ar2 -> In t common) /\
  length i1 = length common /\ length i2 = length common /\
  (forall k t, nth_error common k = Some t ->
     exists i j, nth_error i1 k = Some i /\ nth_error i2 k = Some j /\
                 0 <= i /\ 0 <= j /\
                 nth_error ar1 (Z.to_nat i) = Some t /\
                 nth_error ar2 (Z.to_nat j) = Some t).
Proof.
  unfold np_intersect1d. cbv zeta.
  set (u1 := unique_pairs ar1). set (u2 := unique_pairs ar2).
  set (pick := fun p : Z * Z =>
                 match find (fun q : Z * Z => fst q =? fst p) u2 with
                 | Some q => [(fst p, (snd p, snd q))]
                 | None => []
                 end).
  intros H. inversion H; subst common i1 i2; clear H.
  destruct (unique_pairs_spec ar1) as (Hs1 & Hsound1 & Hcomplete1).
  destruct (unique_pairs_spec ar2) as (Hs2 & Hsound2 & Hcomplete2).
  fold u1 in Hs1, Hsound1, Hcomplete1. fold u2 in Hs2, Hsound2, Hcomplete2.
  assert (Hdates : map fst (concat (map pick u1))
                   = filter (fun t => existsb (fun q => fst q =? t) u2) (map fst u1)).
  { clear. induction u1 as [|p u IH]; [reflexivity|].
    simpl. rewrite map_app, IH. unfold pick at 1.
    destruct (find (fun q => fst q =? fst p) u2) as [q|] eqn:E.
    - apply find_some in E as [Hq Heq].
      replace (existsb (fun q0 => fst q0 =? fst p) u2) with true; [reflexivity|].
      symmetry. apply existsb_exists. now exists q.
    - replace (existsb (fun q0 => fst q0 =? fst p) u2) with false; [reflexivity|].
      symmetry. apply not_true_iff_false. intros Hex.
      apply existsb_exists in Hex as (q & Hq & Heq).
      now rewrite (find_none _ _ E q Hq) in Heq. }
  split; [rewrite Hdates; now apply StronglySorted_filter|].
  split; [|split; [now rewrite !length_map | split; [now rewrite !length_map|]]].
  - intros t H1 H2. rewrite Hdates. apply filter_In. split; [now apply Hcomplete1|].
    apply Hcomplete2 in H2. apply in_map_iff in H2 as (q & Hq & Hin).
    apply existsb_exists. exists q. split; [exact Hin | now apply Z.eqb_eq].
  - intros k t Hk. rewrite nth_error_map in Hk.
    destruct (nth_error (concat (map pick u1)) k) as [[t' [i j]]|] eqn:E; [|discriminate].
    simpl in Hk. inversion Hk; subst t'; clear Hk.
    exists i, j. rewrite !nth_error_map, E. simpl.
    split; [reflexivity|]. split; [reflexivity|].
    apply nth_error_In in E. apply in_concat in E as (cs & Hcs & Hin).
    apply in_map_iff in Hcs as (p & <- & Hp). unfold pick in Hin.
    destruct (find (fun q => fst q =? fst p) u2) as [q|] eqn:Eq; [|destruct Hin].
    destruct Hin as [Heq|[]]. inversion Heq; subst t i j; clear Heq.
    apply find_some in Eq as [Hq Hfst]. apply Z.eqb_eq in Hfst.
    destruct p as [tp ip], q as [tq iq]. simpl in *. subst tq.
    destruct (Hsound1 tp ip Hp) as (H0 & Hn & _).
    destruct (Hsound2 tp iq Hq) as (H0' & Hn' & _). tauto.
Qed.

Lemma py_index_nonneg {A : Type} (l : list A) (i : Z) (a : A) :
  0 <= i -> py_index l i = Ok a -> nth_error l (Z.to_nat i) = Some a.
Proof.
  intros Hi. unfold py_index. cbv zeta.
  replace (i <? 0) with false by (symmetry; apply Z.ltb_ge; exact Hi).
  destruct ((0 <=? i) && (i <? Z.of_nat (length l))); [|discriminate].
  destruct (nth_error l (Z.to_nat i)); [congruence | discriminate].
Qed.

Lemma value_mul_ok (a b v : euvalue) :
  value_mul a b = Ok v -> exists x y, a = Num x /\ b = Num y /\ v = Num (fmul x y).
Proof.
  destruct a as [x|s], b as [y|s']; simpl; intros H; try discriminate.
  inversion H. eauto.
Qed.

Section Product.

Context {ext : External}.

Lemma mul_info_frame (self mnem o r : EdbMnemonic) :
  mul_info self mnem o = Ok r ->
  data r = data o /\ blocks r = blocks o /\
  requested_start_time r = requested_start_time o /\
  requested_end_time r = requested_end_time o /\
  meta r = meta o /\ mnemonic_identifier r = mnemonic_identifier o.
Proof.
  unfold mul_info. intros H.
  repeat match type of H with
         | context [match ?x with _ => _ end] => destruct x; try discriminate
         end;
    inversion H; subst; repeat split.
Qed.

(** The product once the right operand has been interpolated. *)
Lemma mul_aligned_spec (self mnem r : EdbMnemonic) :
  mul_aligned self mnem = Ok r ->
  exists ra rb rows,
    data self = Rows ra /\ data mnem = Rows rb /\ data r = Rows rows /\
    StronglySorted Z.lt (map fst rows) /\
    (forall t, In t (map fst ra) -> In t (map fst rb) -> In t (map fst rows)) /\
    (forall t v, In (t, v) rows ->
       exists x y, In (t, Num x) ra /\ In (t, Num y) rb /\ v = Num (fmul x y)) /\
    (blocks r = blocks self \/ blocks r = blocks mnem) /\
    requested_start_time r = requested_start_time self /\
    requested_end_time r = requested_end_time self /\
    meta r = meta self /\ mnemonic_identifier r = mnemonic_identifier self.
Proof.
  unfold mul_aligned. intros H.
  apply bind_ok in H as (sd & Hsd & H). apply bind_ok in H as (md & Hmd & H).
  destruct (np_intersect1d sd md) as [[cd si] mi] eqn:Ei.
  apply bind_ok in H as (ub & Hub & H).
  apply bind_ok in H as (sdat & Hsdat & H).
  apply bind_ok in H as (mdat & Hmdat & H).
  apply bind_ok in H as (tab & Htab & H).
  apply bind_ok in H as (sv & Hsv & H). apply bind_ok in H as (mv & Hmv & H).
  apply bind_ok in H as (prod & Hprod & H).
  apply bind_ok in H as (new_tab & Hnt & H).
  apply bind_ok in H as (o & Ho & H).
  simpl in Htab. inversion Htab; subst tab; clear Htab.
  (* both operands hold rows *)
  destruct (data self) as [|d0|v0|ra] eqn:Eself; simpl in Hsd; try discriminate.
  { simpl in Hsdat. apply bind_ok in Hsdat as (c & _ & Hc). inversion Hc; subst sdat.
    discriminate. }
  destruct (data mnem) as [|d1|v1|rb] eqn:Emnem; simpl in Hmd; try discriminate.
  { simpl in Hmdat. apply bind_ok in Hmdat as (c & _ & Hc). inversion Hc; subst mdat.
    discriminate. }
  inversion Hsd; subst sd; clear Hsd. inversion Hmd; subst md; clear Hmd.
  simpl in Hsdat, Hmdat.
  apply bind_ok in Hsdat as (c1 & Hc1 & Hs). inversion Hs; subst sdat; clear Hs.
  apply bind_ok in Hmdat as (c2 & Hc2 & Hm). inversion Hm; subst mdat; clear Hm.
  simpl in Hsv, Hmv. inversion Hsv; subst sv; clear Hsv.
  inversion Hmv; subst mv; clear Hmv.
  simpl in Hnt. destruct (Nat.eqb (length prod) (length cd)) eqn:Elen; [|discriminate].
  apply Nat.eqb_eq in Elen. inversion Hnt; subst new_tab; clear Hnt.
  destruct (np_intersect1d_spec _ _ _ _ _ Ei) as (Hsorted & Hcomplete & Hl1 & Hl2 & Hidx).
  destruct (map_fst_combine_eq cd prod (eq_sym Elen)) as [Hfst Hsnd].
  destruct (init_frame _ _ _ _ _ _ _ _ Ho) as (Hdo & Hbo & Hio & Hmo & _).
  destruct (init_window _ _ _ _ _ _ _ _ Ho) as (Hrs & Hre & _).
  destruct (mul_info_frame _ _ _ _ H) as (Hd & Hb & Hs & He & Hm & Hi).
  exists ra, rb, (combine cd prod).
  split; [reflexivity|]. split; [reflexivity|]. split; [congruence|].
  split; [now rewrite Hfst|]. split; [now rewrite Hfst|]. split.
  - intros t v Hin. apply In_nth_error in Hin as [k Hk].
    apply nth_error_combine in Hk as [Hkt Hkv].
    destruct (Hidx k t Hkt) as (i & j & Hi1 & Hi2 & H0i & H0j & Hn1 & Hn2).
    apply mapM_Forall2 in Hc1, Hc2, Hprod.
    destruct (Forall2_nth_error_l _ _ _ Hc1 k i Hi1) as (row1 & Hrow1 & Hp1).
    destruct (Forall2_nth_error_l _ _ _ Hc2 k j Hi2) as (row2 & Hrow2 & Hp2).
    apply py_index_nonneg in Hp1; [|exact H0i]. apply py_index_nonneg in Hp2; [|exact H0j].
    rewrite nth_error_map, Hp1 in Hn1. rewrite nth_error_map, Hp2 in Hn2.
    simpl in Hn1, Hn2. inversion Hn1 as [Ht1]. inversion Hn2 as [Ht2].
    destruct (Forall2_nth_error_r _ _ _ Hprod k v Hkv) as ([a b] & Hab & Hmul).
    apply nth_error_combine in Hab as [Ha Hb'].
    rewrite nth_error_map, Hrow1 in Ha. rewrite nth_error_map, Hrow2 in Hb'.
    simpl in Ha, Hb'. inversion Ha; subst a. inversion Hb'; subst b.
    simpl in Hmul. apply value_mul_ok in Hmul as (x & y & Hx & Hy & Hv).
    exists x, y. split; [|split; [|exact Hv]].
    + apply nth_error_In in Hp1. destruct row1 as [t1 v1]. simpl in *. now subst.
    + apply nth_error_In in Hp2. destruct row2 as [t2 v2]. simpl in *. now subst.
  - split.
    + rewrite Hb, Hbo.
      match type of Hub with
      | context [if ?c then _ else _] => destruct c
      end.
      * inversion Hub. now left.
      * match type of Hub with
        | context [if ?c then _ else _] => destruct c; [|discriminate]
        end.
        inversion Hub. now right.
    + repeat split; congruence.
Qed.

(** X21. When the right operand has two samples or more and the
    product is returned, the product holds exactly the timestamps that
    the left operand and the interpolated right operand share, in
    strictly increasing order, and each value is the product of a value
    of the left operand and one of the interpolated right operand at
    that timestamp.  Its blocks are those of the left operand or of the
    interpolated right one; the requested window, the metadata and the
    identifier are the left operand's. *)
Theorem mul_product (a b r b' : EdbMnemonic) (db : list datetime) :
  col_dates (data b) = Ok db ->
  (2 <= length db)%nat ->
  __mul__ a b = (Ok r, b') ->
  exists ra rb rows,
    data a = Rows ra /\ data b' = Rows rb /\ data r = Rows rows /\
    StronglySorted Z.lt (map fst rows) /\
    (forall t, In t (map fst ra) -> In t (map fst rb) -> In t (map fst rows)) /\
    (forall t v, In (t, v) rows ->
       exists x y, In (t, Num x) ra /\ In (t, Num y) rb /\ v = Num (fmul x y)) /\
    (blocks r = blocks a \/ blocks r = blocks b') /\
    requested_start_time r = requested_start_time a /\
    requested_end_time r = requested_end_time a /\
    meta r = meta a /\ mnemonic_identifier r = mnemonic_identifier a.
Proof.
  intros Hdb Hlen H. unfold __mul__ in H. rewrite Hdb in H.
  replace (Nat.ltb (length db) 2) with false in H
    by (symmetry; apply Nat.ltb_ge; exact Hlen).
  destruct (col_dates (data a)) as [da|e]; [|simpl in H; inversion H].
  rewrite bind_ret in H.
  destruct (interpolate b da) as [mnem'|e] eqn:Hi; [|inversion H].
  inversion H as [[Hr Hb']]. subst b'.
  now apply mul_aligned_spec.
Qed.

End Product.

Lemma mul_product_witness :
  exists ra rb rows,
    data mul_left_example = Rows ra /\ data mul_right_after_example = Rows rb /\
    data mul_product_example = Rows rows /\
    StronglySorted Z.lt (map fst rows) /\
    (forall t, In t (map fst ra) -> In t (map fst rb) -> In t (map fst rows)) /\
    (forall t v, In (t, v) rows ->
       exists x y, In (t, Num x) ra /\ In (t, Num y) rb /\ v = Num (fmul x y)) /\
    (blocks mul_product_example = blocks mul_left_example \/
     blocks mul_product_example = blocks mul_right_after_example) /\
    requested_start_time mul_product_example = requested_start_time mul_left_example /\
    requested_end_time mul_product_example = requested_end_time mul_left_example /\
    meta mul_product_example = meta mul_left_example /\
    mnemonic_identifier mul_product_example = mnemonic_identifier mul_left_example.
Proof.
  apply (mul_product mul_left_example mul_right_example mul_product_example
           mul_right_after_example [0; 20]).
  - reflexivity.
  - simpl. lia.
  - vm_compute. reflexivity.
Defined.

(* ================================================================= *)
(** ** The targets an interpolation emits *)













(* ================================================================= *)
(** ** The right operand after a multiplication *)


Section RightOperand.

Context {ext : External}.


End RightOperand.

